(** * GEDCOM parser and genealogy query engine: a shallow embedding

    This development embeds [src/gedcom_parser.py] (classes [GEDCOMParser]
    and [GenealogyQueryEngine]) and proves properties of the embedded
    functions.

    Conventions of the embedding:
    - a Python [str] is a [string]; a character is an [ascii], read as the
      code point of the same number (code points above 255 are outside the
      model);
    - a Python [int] is a [Z];
    - a Python [dict] keyed by strings is an association list in insertion
      order ([dict]); assigning to an existing key keeps its position;
    - the records built by the parser are Rocq records with one field per
      key; the optional keys of the [birth], [death] and [marriage]
      sub-dictionaries are [option] fields;
    - [print] calls and the counters that are only printed
      ([individual_count], [family_count], [processed_lines], [indi_count])
      are left out. *)

From Stdlib Require Import String Ascii List ZArith NArith Bool Lia DecimalString.
Import ListNotations.
Open Scope string_scope.
Open Scope Z_scope.

(* ===================================================================== *)
(** ** Python string primitives *)
(* ===================================================================== *)

Module PyStr.

(** [bool(s)] for a string: non-empty. *)
Definition truthy (s : string) : bool :=
  match s with
  | EmptyString => false
  | String _ _ => true
  end.

(** [c.isspace()] for the code points below 256: TAB..CR, FS..US, SPACE,
    NEL and NBSP. *)
Definition isspace (c : ascii) : bool :=
  let n := N_of_ascii c in
  (((9 <=? n) && (n <=? 13)) || ((28 <=? n) && (n <=? 32))
   || (n =? 133) || (n =? 160))%N.

Fixpoint lstrip_with (p : ascii -> bool) (s : string) : string :=
  match s with
  | EmptyString => EmptyString
  | String c s' => if p c then lstrip_with p s' else s
  end.

Fixpoint rstrip_with (p : ascii -> bool) (s : string) : string :=
  match s with
  | EmptyString => EmptyString
  | String c s' =>
      match rstrip_with p s' with
      | EmptyString => if p c then EmptyString else String c EmptyString
      | r => String c r
      end
  end.

Definition strip_with (p : ascii -> bool) (s : string) : string :=
  lstrip_with p (rstrip_with p s).

(** [s.strip()] *)
Definition strip (s : string) : string := strip_with isspace s.

(** [s.strip(c)] for a one-character argument. *)
Definition strip_char (c : ascii) (s : string) : string :=
  strip_with (Ascii.eqb c) s.

(** The first occurrence of [sep] cuts [s] in two. *)
Fixpoint cut (sep : ascii) (s : string) : option (string * string) :=
  match s with
  | EmptyString => None
  | String c s' =>
      if Ascii.eqb c sep then Some (EmptyString, s')
      else match cut sep s' with
           | Some (a, b) => Some (String c a, b)
           | None => None
           end
  end.

(** [s.split(sep, maxsplit)] for a one-character separator. *)
Fixpoint split_max (sep : ascii) (maxsplit : nat) (s : string) : list string :=
  match maxsplit with
  | O => [s]
  | S n =>
      match cut sep s with
      | None => [s]
      | Some (a, b) => a :: split_max sep n b
      end
  end.

(** [s.split(sep)] for a one-character separator. *)
Fixpoint split (sep : ascii) (s : string) : list string :=
  match s with
  | EmptyString => [EmptyString]
  | String c s' =>
      if Ascii.eqb c sep then EmptyString :: split sep s'
      else match split sep s' with
           | h :: t => String c h :: t
           | [] => [String c EmptyString]
           end
  end.

(** [s.replace(c, '')] for a one-character [c]. *)
Fixpoint remove_char (c : ascii) (s : string) : string :=
  match s with
  | EmptyString => EmptyString
  | String d s' =>
      if Ascii.eqb d c then remove_char c s' else String d (remove_char c s')
  end.

(** [sep.join(l)] *)
Definition join (sep : string) (l : list string) : string :=
  String.concat sep l.

(** [q in s]: [q] occurs in [s] as a contiguous substring. *)
Fixpoint contains (q s : string) : bool :=
  String.prefix q s ||
  match s with
  | EmptyString => false
  | String _ s' => contains q s'
  end.

(** [c in s] for a one-character [c]. *)
Fixpoint has_char (c : ascii) (s : string) : bool :=
  match s with
  | EmptyString => false
  | String d s' => Ascii.eqb d c || has_char c s'
  end.

(** [c.lower()] for the code points below 256: A..Z and the Latin-1
    capitals (all of 192..222 but the multiplication sign 215). *)
Definition lower_char (c : ascii) : ascii :=
  let n := N_of_ascii c in
  if (((65 <=? n) && (n <=? 90))
      || ((192 <=? n) && (n <=? 222) && negb (n =? 215)))%N
  then ascii_of_N (n + 32) else c.

(** [s.lower()] *)
Fixpoint lower (s : string) : string :=
  match s with
  | EmptyString => EmptyString
  | String c s' => String (lower_char c) (lower s')
  end.

Definition is_digit (c : ascii) : bool :=
  let n := N_of_ascii c in ((48 <=? n) && (n <=? 57))%N.

Definition digit_value (c : ascii) : Z := Z.of_N (N_of_ascii c) - 48.

(** What the scan of a decimal literal has just read. *)
Inductive scan_state := AtStart | AfterDigit | AfterUnderscore.

(** The digits of a decimal literal; a single underscore may stand between
    two digits. *)
Fixpoint scan_digits (st : scan_state) (acc : Z) (s : string) : option Z :=
  match s with
  | EmptyString =>
      match st with
      | AfterDigit => Some acc
      | _ => None
      end
  | String c s' =>
      if is_digit c then scan_digits AfterDigit (10 * acc + digit_value c) s'
      else if Ascii.eqb c "_" then
        match st with
        | AfterDigit => scan_digits AfterUnderscore acc s'
        | _ => None
        end
      else None
  end.

(** The whitespace that [int] skips around a literal: that of [isspace]
    without FS..US. *)
Definition int_space (c : ascii) : bool :=
  let n := N_of_ascii c in
  (((9 <=? n) && (n <=? 13)) || (n =? 32) || (n =? 133) || (n =? 160))%N.

(** [int(s)]: [None] stands for [ValueError]. Surrounding whitespace is
    dropped, one sign is allowed, then a decimal literal. *)
Definition to_int (s : string) : option Z :=
  match strip_with int_space s with
  | String "-" d => option_map Z.opp (scan_digits AtStart 0 d)
  | String "+" d => scan_digits AtStart 0 d
  | d => scan_digits AtStart 0 d
  end.

(** [str(n)] *)
Definition of_int (n : Z) : string := NilEmpty.string_of_int (Z.to_int n).

(** [s[-k:]] for [k <= len(s)] *)
Definition suffix (k : nat) (s : string) : string :=
  String.substring (String.length s - k) k s.

End PyStr.

(* ===================================================================== *)
(** ** Python dictionaries keyed by strings *)
(* ===================================================================== *)

Definition dict (V : Type) : Type := list (string * V).

Module Dict.
Section Ops.
Context {V : Type}.

(** [d.get(k)] *)
Fixpoint get (k : string) (d : dict V) : option V :=
  match d with
  | [] => None
  | (k', v) :: d' => if String.eqb k k' then Some v else get k d'
  end.

(** [k in d] *)
Definition mem (k : string) (d : dict V) : bool :=
  match get k d with
  | Some _ => true
  | None => false
  end.

(** [d[k] = v]: an existing key keeps its place, a new key goes last. *)
Fixpoint set (k : string) (v : V) (d : dict V) : dict V :=
  match d with
  | [] => [(k, v)]
  | (k', v') :: d' =>
      if String.eqb k k' then (k, v) :: d' else (k', v') :: set k v d'
  end.

(** [d.keys()], [d.values()], [len(d)] *)
Definition keys (d : dict V) : list string := map fst d.
Definition values (d : dict V) : list V := map snd d.
Definition len (d : dict V) : Z := Z.of_nat (List.length d).

End Ops.
End Dict.

(* ===================================================================== *)
(** ** Data model *)
(* ===================================================================== *)

(** The [birth], [death] and [marriage] dictionaries: both keys are absent
    until a [DATE] or [PLAC] line sets them. *)
Record Event := mkEvent {
  date : option string;
  place : option string
}.

Definition empty_event : Event := mkEvent None None.

(** An individual record. The keys [parents], [spouse] and [children] are
    added by [_resolve_relationships]; the query engine reads them on
    resolved models only, and before resolution the three fields are kept
    as empty lists. *)
Record Individual := mkIndividual {
  ind_id : string;
  ind_name : string;
  ind_gender : string;
  ind_birth : Event;
  ind_death : Event;
  ind_occupation : string;
  ind_notes : list string;
  ind_families_as_child : list string;
  ind_families_as_spouse : list string;
  ind_media : list string;
  ind_parents : list string;
  ind_spouse : list string;
  ind_children : list string
}.

Record Family := mkFamily {
  fam_id : string;
  fam_marriage : Event;
  fam_husband : string;
  fam_wife : string;
  fam_children : list string;
  fam_notes : list string;
  fam_divorced : bool
}.

(** [current_section] of the individual pass ([None] is Python's [None]). *)
Inductive section_name := SecBirth | SecDeath | SecMedia | SecNotes.

(** *** Field assignments *)

Definition set_date (v : string) (e : Event) : Event :=
  mkEvent (Some v) (place e).
Definition set_place (v : string) (e : Event) : Event :=
  mkEvent (date e) (Some v).

Definition set_name (v : string) (r : Individual) : Individual :=
  mkIndividual (ind_id r) v (ind_gender r) (ind_birth r) (ind_death r)
    (ind_occupation r) (ind_notes r) (ind_families_as_child r)
    (ind_families_as_spouse r) (ind_media r) (ind_parents r) (ind_spouse r)
    (ind_children r).
Definition set_gender (v : string) (r : Individual) : Individual :=
  mkIndividual (ind_id r) (ind_name r) v (ind_birth r) (ind_death r)
    (ind_occupation r) (ind_notes r) (ind_families_as_child r)
    (ind_families_as_spouse r) (ind_media r) (ind_parents r) (ind_spouse r)
    (ind_children r).
Definition set_birth (v : Event) (r : Individual) : Individual :=
  mkIndividual (ind_id r) (ind_name r) (ind_gender r) v (ind_death r)
    (ind_occupation r) (ind_notes r) (ind_families_as_child r)
    (ind_families_as_spouse r) (ind_media r) (ind_parents r) (ind_spouse r)
    (ind_children r).
Definition set_death (v : Event) (r : Individual) : Individual :=
  mkIndividual (ind_id r) (ind_name r) (ind_gender r) (ind_birth r) v
    (ind_occupation r) (ind_notes r) (ind_families_as_child r)
    (ind_families_as_spouse r) (ind_media r) (ind_parents r) (ind_spouse r)
    (ind_children r).
Definition set_occupation (v : string) (r : Individual) : Individual :=
  mkIndividual (ind_id r) (ind_name r) (ind_gender r) (ind_birth r)
    (ind_death r) v (ind_notes r) (ind_families_as_child r)
    (ind_families_as_spouse r) (ind_media r) (ind_parents r) (ind_spouse r)
    (ind_children r).
Definition set_notes (v : list string) (r : Individual) : Individual :=
  mkIndividual (ind_id r) (ind_name r) (ind_gender r) (ind_birth r)
    (ind_death r) (ind_occupation r) v (ind_families_as_child r)
    (ind_families_as_spouse r) (ind_media r) (ind_parents r) (ind_spouse r)
    (ind_children r).
Definition set_families_as_child (v : list string) (r : Individual)
  : Individual :=
  mkIndividual (ind_id r) (ind_name r) (ind_gender r) (ind_birth r)
    (ind_death r) (ind_occupation r) (ind_notes r) v
    (ind_families_as_spouse r) (ind_media r) (ind_parents r) (ind_spouse r)
    (ind_children r).
Definition set_families_as_spouse (v : list string) (r : Individual)
  : Individual :=
  mkIndividual (ind_id r) (ind_name r) (ind_gender r) (ind_birth r)
    (ind_death r) (ind_occupation r) (ind_notes r) (ind_families_as_child r)
    v (ind_media r) (ind_parents r) (ind_spouse r) (ind_children r).
Definition set_media (v : list string) (r : Individual) : Individual :=
  mkIndividual (ind_id r) (ind_name r) (ind_gender r) (ind_birth r)
    (ind_death r) (ind_occupation r) (ind_notes r) (ind_families_as_child r)
    (ind_families_as_spouse r) v (ind_parents r) (ind_spouse r)
    (ind_children r).
Definition set_parents (v : list string) (r : Individual) : Individual :=
  mkIndividual (ind_id r) (ind_name r) (ind_gender r) (ind_birth r)
    (ind_death r) (ind_occupation r) (ind_notes r) (ind_families_as_child r)
    (ind_families_as_spouse r) (ind_media r) v (ind_spouse r)
    (ind_children r).
Definition set_spouse (v : list string) (r : Individual) : Individual :=
  mkIndividual (ind_id r) (ind_name r) (ind_gender r) (ind_birth r)
    (ind_death r) (ind_occupation r) (ind_notes r) (ind_families_as_child r)
    (ind_families_as_spouse r) (ind_media r) (ind_parents r) v
    (ind_children r).
Definition set_children (v : list string) (r : Individual) : Individual :=
  mkIndividual (ind_id r) (ind_name r) (ind_gender r) (ind_birth r)
    (ind_death r) (ind_occupation r) (ind_notes r) (ind_families_as_child r)
    (ind_families_as_spouse r) (ind_media r) (ind_parents r) (ind_spouse r)
    v.

Definition set_marriage (v : Event) (f : Family) : Family :=
  mkFamily (fam_id f) v (fam_husband f) (fam_wife f) (fam_children f)
    (fam_notes f) (fam_divorced f).
Definition set_husband (v : string) (f : Family) : Family :=
  mkFamily (fam_id f) (fam_marriage f) v (fam_wife f) (fam_children f)
    (fam_notes f) (fam_divorced f).
Definition set_wife (v : string) (f : Family) : Family :=
  mkFamily (fam_id f) (fam_marriage f) (fam_husband f) v (fam_children f)
    (fam_notes f) (fam_divorced f).
Definition set_fam_children (v : list string) (f : Family) : Family :=
  mkFamily (fam_id f) (fam_marriage f) (fam_husband f) (fam_wife f) v
    (fam_notes f) (fam_divorced f).
Definition set_fam_notes (v : list string) (f : Family) : Family :=
  mkFamily (fam_id f) (fam_marriage f) (fam_husband f) (fam_wife f)
    (fam_children f) v (fam_divorced f).
Definition set_divorced (v : bool) (f : Family) : Family :=
  mkFamily (fam_id f) (fam_marriage f) (fam_husband f) (fam_wife f)
    (fam_children f) (fam_notes f) v.

(* ===================================================================== *)
(** ** Tokenizing a line *)
(* ===================================================================== *)

(** One tokenized line: the list [parts], and [level], [tag], [value]. *)
Record Token := mkToken {
  parts : list string;
  level : Z;
  tag : string;
  value : string
}.

(** The head of both extraction loops:
<<
    line = line.strip()
    if not line: continue
    parts = line.split(' ', 2)
    if len(parts) < 2: continue
    try:
        level = int(parts[0])
        tag = parts[1] if len(parts) > 1 else ""
        value = parts[2] if len(parts) > 2 else ""
    except ValueError: continue
>>
    [None] is [continue]. *)
Definition tokenize (line : string) : option Token :=
  let line := PyStr.strip line in
  if negb (PyStr.truthy line) then None
  else
    let parts := PyStr.split_max " " 2 line in
    if (List.length parts <? 2)%nat then None
    else
      match PyStr.to_int (nth 0 parts "") with
      | None => None
      | Some level =>
          Some (mkToken parts level
                  (if (1 <? List.length parts)%nat then nth 1 parts "" else "")
                  (if (2 <? List.length parts)%nat then nth 2 parts "" else ""))
      end.

(** [level == 0 and len(parts) >= 3 and parts[2] == kind] *)
Definition starts_record (kind : string) (t : Token) : bool :=
  (level t =? 0) && (3 <=? List.length (parts t))%nat
  && String.eqb (nth 2 (parts t) "") kind.

(** [tag.replace('@', '').replace(c, '').replace('@', '')] *)
Definition record_id (c : ascii) (tag : string) : string :=
  PyStr.remove_char "@" (PyStr.remove_char c (PyStr.remove_char "@" tag)).

(** [value.replace('@', '').replace(c, '') if value else ''] *)
Definition reference_id (c : ascii) (value : string) : string :=
  if PyStr.truthy value
  then PyStr.remove_char c (PyStr.remove_char "@" value)
  else "".

(** [x if x else ''] *)
Definition or_empty (x : string) : string :=
  if PyStr.truthy x then x else "".

(** The name clean-up of the [NAME] branch. *)
Definition clean_name (value : string) : string :=
  if PyStr.truthy value then
    let cleaned_name := PyStr.strip_char "/" value in
    if PyStr.has_char "/" cleaned_name then
      PyStr.join " "
        (filter PyStr.truthy (map PyStr.strip (PyStr.split "/" cleaned_name)))
    else cleaned_name
  else "".

(* ===================================================================== *)
(** ** [GEDCOMParser._extract_individuals] *)
(* ===================================================================== *)

Module ExtractIndividuals.

(** The map being filled and the local variables of the loop.
    [current_individual = None] is Python's [None]; [current_record = None]
    is the initial empty dictionary [{}]. *)
Record locals := mkLocals {
  individuals : dict Individual;
  current_individual : option string;
  current_record : option Individual;
  current_section : option section_name
}.

(** The record created at the start of an [INDI] record. *)
Definition new_record (id : string) : Individual :=
  mkIndividual id "" "" empty_event empty_event "" [] [] [] [] [] [] [].

(** [bool(current_individual)] *)
Definition is_open (st : locals) : bool :=
  match current_individual st with
  | Some i => PyStr.truthy i
  | None => false
  end.

(** [if current_individual and current_record:
       self.individuals[current_individual] = current_record] *)
Definition commit (st : locals) : dict Individual :=
  match current_individual st, current_record st with
  | Some i, Some r =>
      if PyStr.truthy i then Dict.set i r (individuals st) else individuals st
  | _, _ => individuals st
  end.

(** The level-1 dispatch on [tag]. *)
Definition level1 (t : Token) (r : Individual) (sec : option section_name)
  : Individual * option section_name :=
  if String.eqb (tag t) "NAME" then (set_name (clean_name (value t)) r, sec)
  else if String.eqb (tag t) "SEX" then (set_gender (or_empty (value t)) r, sec)
  else if String.eqb (tag t) "OCCU" then
    (set_occupation (or_empty (value t)) r, sec)
  else if String.eqb (tag t) "BIRT" then (r, Some SecBirth)
  else if String.eqb (tag t) "DEAT" then (r, Some SecDeath)
  else if String.eqb (tag t) "FAMC" then
    let fam_id := reference_id "F" (value t) in
    if PyStr.truthy fam_id
    then (set_families_as_child (ind_families_as_child r ++ [fam_id]) r, sec)
    else (r, sec)
  else if String.eqb (tag t) "FAMS" then
    let fam_id := reference_id "F" (value t) in
    if PyStr.truthy fam_id
    then (set_families_as_spouse (ind_families_as_spouse r ++ [fam_id]) r, sec)
    else (r, sec)
  else if String.eqb (tag t) "OBJE" then (r, Some SecMedia)
  else if String.eqb (tag t) "NOTE" then
    (if PyStr.truthy (value t) then set_notes (ind_notes r ++ [value t]) r
     else r,
     Some SecNotes)
  else (r, sec).

(** The level-2 dispatch on the open section and [tag]. *)
Definition level2 (t : Token) (r : Individual) (sec : section_name)
  : Individual :=
  match sec with
  | SecBirth =>
      if String.eqb (tag t) "DATE"
      then set_birth (set_date (or_empty (value t)) (ind_birth r)) r
      else if String.eqb (tag t) "PLAC"
      then set_birth (set_place (or_empty (value t)) (ind_birth r)) r
      else r
  | SecDeath =>
      if String.eqb (tag t) "DATE"
      then set_death (set_date (or_empty (value t)) (ind_death r)) r
      else if String.eqb (tag t) "PLAC"
      then set_death (set_place (or_empty (value t)) (ind_death r)) r
      else r
  | SecMedia =>
      if String.eqb (tag t) "FILE"
      then set_media (ind_media r ++ [or_empty (value t)]) r
      else r
  | SecNotes =>
      if String.eqb (tag t) "CONT" || String.eqb (tag t) "CONC" then
        if PyStr.truthy (value t) then set_notes (ind_notes r ++ [value t]) r
        else r
      else if String.eqb (tag t) "NOTE" then
        if PyStr.truthy (value t) then set_notes (ind_notes r ++ [value t]) r
        else r
      else r
  end.

(** One iteration of the loop over [self.lines]. An open record always has
    its dictionary ([step_wf] below), so the branches on
    [current_record = None] under an open record are never taken. *)
Definition step (st : locals) (line : string) : locals :=
  match tokenize line with
  | None => st
  | Some t =>
      if starts_record "INDI" t then
        let id := record_id "I" (tag t) in
        mkLocals (commit st) (Some id) (Some (new_record id)) None
      else if is_open st && (level t =? 1) then
        match current_record st with
        | Some r =>
            let (r', sec') := level1 t r (current_section st) in
            mkLocals (individuals st) (current_individual st) (Some r') sec'
        | None => st
        end
      else if is_open st && (level t =? 2) then
        match current_section st, current_record st with
        | Some sec, Some r =>
            mkLocals (individuals st) (current_individual st)
              (Some (level2 t r sec)) (current_section st)
        | _, _ => st
        end
      else st
  end.

(** The locals before the loop, over the map [inds] held by the parser. *)
Definition start (inds : dict Individual) : locals :=
  mkLocals inds None None None.

(** The loop. *)
Definition run (inds : dict Individual) (lines : list string) : locals :=
  fold_left step lines (start inds).

(** The whole method: the loop, then "save last individual". *)
Definition extract (inds : dict Individual) (lines : list string)
  : dict Individual :=
  commit (run inds lines).

End ExtractIndividuals.

(* ===================================================================== *)
(** ** [GEDCOMParser._extract_families] *)
(* ===================================================================== *)

Module ExtractFamilies.

Record locals := mkLocals {
  families : dict Family;
  current_family : option string;
  current_record : option Family
}.

Definition new_record (id : string) : Family :=
  mkFamily id empty_event "" "" [] [] false.

Definition is_open (st : locals) : bool :=
  match current_family st with
  | Some i => PyStr.truthy i
  | None => false
  end.

(** [if current_family and current_record:
       self.families[current_family] = current_record] *)
Definition commit (st : locals) : dict Family :=
  match current_family st, current_record st with
  | Some i, Some r =>
      if PyStr.truthy i then Dict.set i r (families st) else families st
  | _, _ => families st
  end.

Definition level1 (t : Token) (r : Family) : Family :=
  if String.eqb (tag t) "MARR" then r
  else if String.eqb (tag t) "DIV" then set_divorced true r
  else if String.eqb (tag t) "SEP" then set_divorced true r
  else if String.eqb (tag t) "HUSB" then
    set_husband (reference_id "I" (value t)) r
  else if String.eqb (tag t) "WIFE" then
    set_wife (reference_id "I" (value t)) r
  else if String.eqb (tag t) "CHIL" then
    let child_id := reference_id "I" (value t) in
    if PyStr.truthy child_id
    then set_fam_children (fam_children r ++ [child_id]) r
    else r
  else if String.eqb (tag t) "NOTE" then
    if PyStr.truthy (value t) then set_fam_notes (fam_notes r ++ [value t]) r
    else r
  else r.

Definition level2 (t : Token) (r : Family) : Family :=
  if String.eqb (tag t) "DATE"
  then set_marriage (set_date (or_empty (value t)) (fam_marriage r)) r
  else if String.eqb (tag t) "PLAC"
  then set_marriage (set_place (or_empty (value t)) (fam_marriage r)) r
  else r.

Definition step (st : locals) (line : string) : locals :=
  match tokenize line with
  | None => st
  | Some t =>
      if starts_record "FAM" t then
        let id := record_id "F" (tag t) in
        mkLocals (commit st) (Some id) (Some (new_record id))
      else if is_open st && (level t =? 1) then
        match current_record st with
        | Some r => mkLocals (families st) (current_family st)
                      (Some (level1 t r))
        | None => st
        end
      else if is_open st && (level t =? 2) then
        match current_record st with
        | Some r => mkLocals (families st) (current_family st)
                      (Some (level2 t r))
        | None => st
        end
      else st
  end.

Definition start (fams : dict Family) : locals := mkLocals fams None None.

Definition run (fams : dict Family) (lines : list string) : locals :=
  fold_left step lines (start fams).

Definition extract (fams : dict Family) (lines : list string) : dict Family :=
  commit (run fams lines).

End ExtractFamilies.

(* ===================================================================== *)
(** ** [GEDCOMParser._resolve_relationships] *)
(* ===================================================================== *)

Module Resolve.

(** [l.append(x)] on the [parents] and [spouse] lists. *)
Definition append_parent (x : string) (i : Individual) : Individual :=
  set_parents (ind_parents i ++ [x]) i.
Definition append_spouse (x : string) (i : Individual) : Individual :=
  set_spouse (ind_spouse i ++ [x]) i.

(** The body of [for fam_id in individual['families_as_child']]. *)
Definition parents_step (families : dict Family) (individual : Individual)
  (fam_id : string) : Individual :=
  match Dict.get fam_id families with
  | Some family =>
      let individual :=
        if PyStr.truthy (fam_husband family)
        then append_parent (fam_husband family) individual else individual in
      if PyStr.truthy (fam_wife family)
      then append_parent (fam_wife family) individual else individual
  | None => individual
  end.

(** The body of [for fam_id in individual['families_as_spouse']]. *)
Definition spouse_step (families : dict Family) (ind_id : string)
  (individual : Individual) (fam_id : string) : Individual :=
  match Dict.get fam_id families with
  | Some family =>
      let individual :=
        if String.eqb (fam_husband family) ind_id
           && PyStr.truthy (fam_wife family)
        then append_spouse (fam_wife family) individual
        else if String.eqb (fam_wife family) ind_id
                && PyStr.truthy (fam_husband family)
        then append_spouse (fam_husband family) individual
        else individual in
      set_children (ind_children individual ++ fam_children family) individual
  | None => individual
  end.

(** The body of the first loop over [self.individuals.items()]. *)
Definition link (families : dict Family) (ind_id : string)
  (individual : Individual) : Individual :=
  let individual := set_parents [] individual in
  let individual := set_spouse [] individual in
  let individual := set_children [] individual in
  let individual :=
    fold_left (parents_step families) (ind_families_as_child individual)
      individual in
  fold_left (spouse_step families ind_id) (ind_families_as_spouse individual)
    individual.

(** The body of the second loop ("clean up empty lists"). *)
Definition clean (individual : Individual) : Individual :=
  let individual :=
    set_parents (filter PyStr.truthy (ind_parents individual)) individual in
  let individual :=
    set_spouse (filter PyStr.truthy (ind_spouse individual)) individual in
  set_children (filter PyStr.truthy (ind_children individual)) individual.

(** Both loops; each updates the records of the map in place. *)
Definition resolve (individuals : dict Individual) (families : dict Family)
  : dict Individual :=
  map (fun kv => (fst kv, clean (snd kv)))
    (map (fun kv => (fst kv, link families (fst kv) (snd kv))) individuals).

End Resolve.

(* ===================================================================== *)
(** ** Methods that can raise *)
(* ===================================================================== *)

(** A raised exception of class [Exception]; [str(e)] is its message. *)
Inductive exn := Exception (message : string).

Definition str_exn (e : exn) : string :=
  match e with Exception m => m end.

(** The result of [parse]. *)
Record Summary := mkSummary {
  total_individuals : Z;
  total_families : Z;
  parsed_at : string;
  error : option string
}.

Record ParseResult := mkResult {
  individuals : dict Individual;
  families : dict Family;
  summary : Summary
}.

Module GEDCOMParser.

(** The attributes of a parser object. *)
Record t := mkParser {
  gedcom_file : string;
  individuals : dict Individual;
  families : dict Family;
  lines : list string
}.

(** [__init__] *)
Definition init (gedcom_file : string) : t := mkParser gedcom_file [] [] [].

(** A method call either returns or raises; either way it leaves the
    object in some state. *)
Inductive outcome (A : Type) :=
| Returned (a : A) (self : t)
| Raised (e : exn) (self : t).
Arguments Returned {A} a self.
Arguments Raised {A} e self.

Definition method (A : Type) : Type := t -> outcome A.

Definition ret {A} (a : A) : method A := fun self => Returned a self.

Definition bind {A B} (m : method A) (k : A -> method B) : method B :=
  fun self =>
    match m self with
    | Returned a self' => k a self'
    | Raised e self' => Raised e self'
    end.

Definition raise {A} (e : exn) : method A := fun self => Raised e self.

(** [try: m  except Exception as e: h e] *)
Definition try_except {A} (m : method A) (h : exn -> method A) : method A :=
  fun self =>
    match m self with
    | Returned a self' => Returned a self'
    | Raised e self' => h e self'
    end.

Definition get_self : method t := fun self => Returned self self.

Definition set_lines (l : list string) : method unit :=
  fun self =>
    Returned tt (mkParser (gedcom_file self) (individuals self) (families self) l).

Definition set_individuals (d : dict Individual) : method unit :=
  fun self =>
    Returned tt (mkParser (gedcom_file self) d (families self) (lines self)).

Definition set_families (d : dict Family) : method unit :=
  fun self =>
    Returned tt (mkParser (gedcom_file self) (individuals self) d (lines self)).

Declare Scope method_scope.
Delimit Scope method_scope with method.
Notation "x <- m ;; k" := (bind m (fun x => k))
  (at level 61, m at next level, right associativity) : method_scope.
Notation "m ;; k" := (bind m (fun _ => k))
  (at level 61, right associativity) : method_scope.
Local Open Scope method_scope.

(** What the parser sees of the outside: opening and reading a file
    ([f.readlines()], or the exception raised on the way) and the clock
    ([datetime.now().isoformat()]). *)
Record World := mkWorld {
  readlines : string -> exn + list string;
  now : string
}.

(** [[line.strip() for line in raw_lines if line.strip()]] *)
Definition clean_lines (raw_lines : list string) : list string :=
  map PyStr.strip
    (filter (fun line => PyStr.truthy (PyStr.strip line)) raw_lines).

(** [_read_file] *)
Definition _read_file (w : World) : method unit :=
  self <- get_self ;;
  match readlines w (gedcom_file self) with
  | inl e => raise e
  | inr raw_lines => set_lines (clean_lines raw_lines)
  end.

(** [_extract_individuals]; nothing in its [try] block raises. *)
Definition _extract_individuals : method unit :=
  self <- get_self ;;
  set_individuals (ExtractIndividuals.extract (individuals self) (lines self)).

(** [_extract_families] *)
Definition _extract_families : method unit :=
  self <- get_self ;;
  set_families (ExtractFamilies.extract (families self) (lines self)).

(** [_resolve_relationships] *)
Definition _resolve_relationships : method unit :=
  self <- get_self ;;
  set_individuals (Resolve.resolve (individuals self) (families self)).

(** The dictionary returned by the [except] branch of [parse]. *)
Definition fallback (now : string) (e : exn) : ParseResult :=
  mkResult [] [] (mkSummary 0 0 now (Some (str_exn e))).

(** The dictionary returned at the end of [parse]. *)
Definition result (now : string) (self : t) : ParseResult :=
  mkResult (individuals self) (families self)
    (mkSummary (Dict.len (individuals self)) (Dict.len (families self)) now
       None).

Section Parse.
(** The control flow of [parse] over any four stages. *)
Variable now : string.
Variables read_file extract_individuals extract_families
  resolve_relationships : method unit.

(** The statements of the outer [try] block. *)
Definition pipeline : method unit :=
  try_except read_file (fun read_error => set_lines []) ;;
  try_except extract_individuals (fun ind_error => ret tt) ;;
  extract_families ;;
  resolve_relationships.

(** The [try] statement, whose handler returns early, and the [return]
    after it. *)
Definition parse_with : method ParseResult :=
  early <-
    try_except (pipeline ;; ret None)
      (fun e => ret (Some (fallback now e))) ;;
  match early with
  | Some r => ret r
  | None => self <- get_self ;; ret (result now self)
  end.

End Parse.

(** [parse] *)
Definition parse (w : World) : method ParseResult :=
  parse_with (now w) (_read_file w) _extract_individuals _extract_families
    _resolve_relationships.

(** [GEDCOMParser(gedcom_file).parse()], for a call that returns. *)
Definition parse_file (w : World) (gedcom_file : string) : option ParseResult :=
  match parse w (init gedcom_file) with
  | Returned r _ => Some r
  | Raised _ _ => None
  end.

End GEDCOMParser.

(* ===================================================================== *)
(** ** [GenealogyQueryEngine] *)
(* ===================================================================== *)

(** A node of the dictionary tree built by [get_family_tree]. [Empty] is
    [{}]; the keys [parents] and [children] of a node are optional. *)
Inductive Tree :=
| Empty
| Node (id name : string) (birth death : Event) (generation : Z)
       (parents children : option (list Tree)).

(** [bool(tree)] *)
Definition tree_truthy (t : Tree) : bool :=
  match t with
  | Empty => false
  | Node _ _ _ _ _ _ _ => true
  end.

Module GenealogyQueryEngine.

Record t := mkEngine {
  data : ParseResult;
  individuals : dict Individual;
  families : dict Family
}.

(** [__init__] *)
Definition init (data : ParseResult) : t :=
  match data with
  | mkResult individuals families _ => mkEngine data individuals families
  end.

(** [find_person] *)
Definition find_person (self : t) (name_query : string) : list Individual :=
  let query := PyStr.lower name_query in
  fold_left
    (fun results person =>
       if PyStr.contains query (PyStr.lower (ind_name person))
       then (results ++ [person])%list else results)
    (Dict.values (individuals self)) [].

(** [d.get('place', '')] *)
Definition get_or_empty (o : option string) : string :=
  match o with
  | Some s => s
  | None => ""
  end.

(** [search_by_location] *)
Definition search_by_location (self : t) (location : string)
  : list Individual :=
  let query := PyStr.lower location in
  fold_left
    (fun results person =>
       let birth_place := PyStr.lower (get_or_empty (place (ind_birth person))) in
       let death_place := PyStr.lower (get_or_empty (place (ind_death person))) in
       if PyStr.contains query birth_place || PyStr.contains query death_place
       then (results ++ [person])%list else results)
    (Dict.values (individuals self)) [].

(** The two [for] loops of [build_tree]: the sub-trees of [ids] that are not
    [{}], in order. [None] when a recursive call has not returned. *)
Fixpoint collect (build : string -> option Tree) (ids : list string)
  : option (list Tree) :=
  match ids with
  | [] => Some []
  | i :: rest =>
      match build i with
      | None => None
      | Some sub =>
          match collect build rest with
          | None => None
          | Some subs => Some (if tree_truthy sub then sub :: subs else subs)
          end
      end
  end.

(** [build_tree]: the recursion has no measure that decreases (the
    generation goes up on parents and down on children), so the model
    counts the depth of the calls: [None] when [fuel] nested calls were not
    enough. *)
Fixpoint build_tree (self : t) (fuel : nat) (pid : string) (gen max_gen : Z)
  : option Tree :=
  match fuel with
  | O => None
  | S fuel' =>
      if (gen >=? max_gen) || negb (Dict.mem pid (individuals self))
      then Some Empty
      else
        match Dict.get pid (individuals self) with
        | None => Some Empty
        | Some person =>
            if gen <? max_gen - 1 then
              match collect (fun parent_id =>
                               build_tree self fuel' parent_id (gen + 1) max_gen)
                      (ind_parents person) with
              | None => None
              | Some parents =>
                  match collect (fun child_id =>
                                   build_tree self fuel' child_id (gen - 1)
                                     max_gen)
                          (ind_children person) with
                  | None => None
                  | Some children =>
                      Some (Node pid (ind_name person) (ind_birth person)
                              (ind_death person) gen (Some parents)
                              (Some children))
                  end
              end
            else
              Some (Node pid (ind_name person) (ind_birth person)
                      (ind_death person) gen None None)
        end
  end.

(** [get_family_tree] *)
Definition get_family_tree (self : t) (fuel : nat) (person_id : string)
  (generations : Z) : option Tree :=
  if negb (Dict.mem person_id (individuals self)) then Some Empty
  else build_tree self fuel person_id 0 generations.

Record Statistics := mkStatistics {
  total_individuals : Z;
  total_families : Z;
  gender_distribution : dict Z;
  occupation_distribution : dict Z;
  century_distribution : dict Z;
  living_people : Z
}.

(** [d[k] = d.get(k, 0) + 1] *)
Definition count_up (k : string) (d : dict Z) : dict Z :=
  Dict.set k (match Dict.get k d with Some n => n | None => 0 end + 1) d.

(** The body of the loop of [get_statistics]. *)
Definition stats_step (stats : Statistics) (person : Individual)
  : Statistics :=
  let gender := ind_gender person in
  let genders :=
    if Dict.mem gender (gender_distribution stats)
    then count_up gender (gender_distribution stats)
    else count_up "Unknown" (gender_distribution stats) in
  let occ := ind_occupation person in
  let occupations :=
    if PyStr.truthy occ then count_up occ (occupation_distribution stats)
    else occupation_distribution stats in
  let birth_date := get_or_empty (date (ind_birth person)) in
  let centuries :=
    if PyStr.truthy birth_date && (4 <=? String.length birth_date)%nat then
      match PyStr.to_int (PyStr.suffix 4 birth_date) with
      | Some year =>
          let century := year / 100 + 1 in
          count_up (PyStr.of_int century ++ "th century")
            (century_distribution stats)
      | None => century_distribution stats
      end
    else century_distribution stats in
  let living :=
    if negb (PyStr.truthy (get_or_empty (date (ind_death person))))
    then living_people stats + 1 else living_people stats in
  mkStatistics (total_individuals stats) (total_families stats) genders
    occupations centuries living.

(** [get_statistics] *)
Definition get_statistics (self : t) : Statistics :=
  fold_left stats_step (Dict.values (individuals self))
    (mkStatistics (Dict.len (individuals self)) (Dict.len (families self))
       [("M", 0); ("F", 0); ("Unknown", 0)] [] [] 0).

(** What [get_person_details] returns for a known id: a copy of the record
    with the three keys [parent_names], [spouse_names], [children_names]. *)
Record PersonDetails := mkDetails {
  person : Individual;
  parent_names : list string;
  spouse_names : list string;
  children_names : list string
}.

(** The three loops of [get_person_details]: the names of the ids that are
    keys of the map, in order. *)
Definition names_of (self : t) (ids : list string) : list string :=
  fold_left
    (fun names linked_id =>
       if Dict.mem linked_id (individuals self) then
         match Dict.get linked_id (individuals self) with
         | Some linked => (names ++ [ind_name linked])%list
         | None => names
         end
       else names)
    ids [].

(** [get_person_details]; the outer [None] is Python's [None]. *)
Definition get_person_details (self : t) (person_id : string)
  : option PersonDetails :=
  if negb (Dict.mem person_id (individuals self)) then None
  else
    match Dict.get person_id (individuals self) with
    | None => None
    | Some person =>
        Some (mkDetails person
                (names_of self (ind_parents person))
                (names_of self (ind_spouse person))
                (names_of self (ind_children person)))
    end.

End GenealogyQueryEngine.

(* ===================================================================== *)
(** ** Definitions used by the statements *)
(* ===================================================================== *)

(** The level-1 tags that open a section. *)
Definition section_tags : list string := ["BIRT"; "DEAT"; "OBJE"; "NOTE"].

(** Four lines under an open record: a birth date, then a [FAMC] line
    followed by a second [DATE] line. *)
Definition birth_then_famc : list string :=
  ["1 BIRT"; "2 DATE a"; "1 FAMC @F1@"; "2 DATE b"].

(** A horizontal tab. *)
Definition TAB : string := String (ascii_of_nat 9) EmptyString.

(** Splitting on whitespace: the longest prefix without whitespace, and
    what follows it. *)
Fixpoint take_field (s : string) : string * string :=
  match s with
  | EmptyString => (EmptyString, EmptyString)
  | String c s' =>
      if PyStr.isspace c then (EmptyString, s)
      else let (f, r) := take_field s' in (String c f, r)
  end.

(** The fields of a line as the specification words the tokenizer
    ("splits on whitespace into at most three fields"): any run of
    whitespace separates two fields, at most [maxsplit] fields are cut off
    and the rest of the line is the last field. The code's own splitting is
    [PyStr.split_max " " 2]. *)
Fixpoint whitespace_fields (maxsplit : nat) (s : string) : list string :=
  let s := PyStr.lstrip_with PyStr.isspace s in
  if PyStr.truthy s then
    match maxsplit with
    | O => [s]
    | S n => let (f, r) := take_field s in f :: whitespace_fields n r
    end
  else [].

(** A line is skipped when it has no token or a negative level. *)
Definition skipped (line : string) : Prop :=
  match tokenize line with
  | None => True
  | Some t => level t < 0
  end.

(** Every character of [s] is [a] or [b]. *)
Fixpoint only_chars (a b : ascii) (s : string) : bool :=
  match s with
  | EmptyString => true
  | String c s' => (Ascii.eqb c a || Ascii.eqb c b) && only_chars a b s'
  end.

(** The id that a line gives to the record it starts, when it is a level-0
    line whose value is [kind]; [c] is the letter removed from the tag. *)
Definition record_line_id (kind : string) (c : ascii) (line : string)
  : option string :=
  match tokenize line with
  | Some t =>
      if starts_record kind t then Some (record_id c (tag t)) else None
  | None => None
  end.

(** The stored id of every entry is its key. *)
Definition individual_ids_match (d : dict Individual) : Prop :=
  Forall (fun kv => ind_id (snd kv) = fst kv) d.
Definition family_ids_match (d : dict Family) : Prop :=
  Forall (fun kv => fam_id (snd kv) = fst kv) d.

(** The locals of a pass are well formed when a record under construction
    has its dictionary, with the current id as its [id]. *)
Definition individual_locals_wf (st : ExtractIndividuals.locals) : Prop :=
  forall i, ExtractIndividuals.current_individual st = Some i ->
            exists r, ExtractIndividuals.current_record st = Some r
                      /\ ind_id r = i.
Definition family_locals_wf (st : ExtractFamilies.locals) : Prop :=
  forall i, ExtractFamilies.current_family st = Some i ->
            exists r, ExtractFamilies.current_record st = Some r
                      /\ fam_id r = i.

(** The non-empty ids of the records started by [lines], in order. *)
Definition started_ids (kind : string) (c : ascii) (lines : list string)
  : list string :=
  flat_map
    (fun line =>
       match record_line_id kind c line with
       | Some i => if PyStr.truthy i then [i] else []
       | None => []
       end)
    lines.

(** The lines that [parse] works on: the cleaned lines of the file, or no
    line when reading it raises. *)
Definition parsed_lines (w : GEDCOMParser.World) (gedcom_file : string)
  : list string :=
  match GEDCOMParser.readlines w gedcom_file with
  | inl _ => []
  | inr raw_lines => GEDCOMParser.clean_lines raw_lines
  end.

(** [[x] if x else []] *)
Definition if_nonempty (x : string) : list string :=
  if PyStr.truthy x then [x] else [].

(** The parents named by a list of family ids: for each id that is a key
    of [families], the husband and then the wife of that family, each when
    it is not empty; nothing for an id that is not a key. *)
Definition expected_parents (families : dict Family) (fam_ids : list string)
  : list string :=
  flat_map
    (fun fam_id =>
       match Dict.get fam_id families with
       | Some family =>
           (if_nonempty (fam_husband family)
            ++ if_nonempty (fam_wife family))%list
       | None => []
       end)
    fam_ids.

(** [j] has the [id] and the family references of [i]: the fields that
    the relationship pass leaves alone. *)
Definition same_raw_fields (i j : Individual) : Prop :=
  ind_id j = ind_id i
  /\ ind_families_as_child j = ind_families_as_child i
  /\ ind_families_as_spouse j = ind_families_as_spouse i.

(** An individual with no recorded death date: the [death] dictionary has
    no [date] key, or its [date] is the empty string. *)
Definition no_death_date (person : Individual) : bool :=
  match date (ind_death person) with
  | None => true
  | Some d => String.eqb d ""
  end.

(** The tests of [find_person] and [search_by_location] on one record. *)
Definition name_matches (query : string) (person : Individual) : bool :=
  PyStr.contains query (PyStr.lower (ind_name person)).
Definition place_matches (query : string) (person : Individual) : bool :=
  PyStr.contains query
    (PyStr.lower (GenealogyQueryEngine.get_or_empty (place (ind_birth person))))
  || PyStr.contains query
       (PyStr.lower
          (GenealogyQueryEngine.get_or_empty (place (ind_death person)))).

(** The generations of all the nodes of a tree. *)
Fixpoint generations_of (t : Tree) : list Z :=
  match t with
  | Empty => []
  | Node _ _ _ _ generation parents children =>
      generation
      :: (match parents with
          | Some l => flat_map generations_of l
          | None => []
          end
          ++ match children with
             | Some l => flat_map generations_of l
             | None => []
             end)%list
  end.

(** The query engine over what [parse] returns for a file with the given
    lines. *)
Definition engine_for (lines : list string) : option GenealogyQueryEngine.t :=
  option_map GenealogyQueryEngine.init
    (GEDCOMParser.parse_file
       (GEDCOMParser.mkWorld (fun _ => inr lines) "now") "tree.ged").

(** Three generations linked downwards only: each family names its child,
    no individual names the family it is a child of. *)
Definition descendants_only : list string :=
  ["0 @I1@ INDI"; "1 NAME Grandparent"; "1 FAMS @F1@";
   "0 @I2@ INDI"; "1 NAME Parent"; "1 FAMS @F2@";
   "0 @I3@ INDI"; "1 NAME Child";
   "0 @F1@ FAM"; "1 HUSB @I1@"; "1 CHIL @I2@";
   "0 @F2@ FAM"; "1 HUSB @I2@"; "1 CHIL @I3@"].

(** A parent and a child linked both ways, as in an ordinary file. *)
Definition parent_and_child : list string :=
  ["0 @I1@ INDI"; "1 NAME Parent"; "1 FAMS @F1@";
   "0 @I2@ INDI"; "1 NAME Child"; "1 FAMC @F1@";
   "0 @F1@ FAM"; "1 HUSB @I1@"; "1 CHIL @I2@"].

(** The numbering of a tree built for generation [gen] under the bound
    [max_gen]: the node has generation [gen], below [max_gen]; when
    [gen < max_gen - 1] it has both keys, its [parents] numbered from
    [gen + 1] and its [children] from [gen - 1]; otherwise it has neither
    key. *)
Fixpoint numbered_from (max_gen gen : Z) (t : Tree) : bool :=
  match t with
  | Empty => false
  | Node _ _ _ _ generation parents children =>
      (generation =? gen) && (generation <? max_gen)
      && (if generation <? max_gen - 1 then
            match parents, children with
            | Some ps, Some cs =>
                forallb (numbered_from max_gen (generation + 1)) ps
                && forallb (numbered_from max_gen (generation - 1)) cs
            | _, _ => false
            end
          else
            match parents, children with
            | None, None => true
            | _, _ => false
            end)
  end.

(** A line that a pass passes over: it has no token, or its token neither
    starts a record of the pass ([kind] is [INDI] or [FAM]) nor has level 1
    or 2. *)
Definition passed_over (kind : string) (line : string) : bool :=
  match tokenize line with
  | None => true
  | Some t =>
      negb (starts_record kind t) && negb (level t =? 1)
      && negb (level t =? 2)
  end.

(** [keys] with [k] added at the end unless it is there already. *)
Definition add_key (keys : list string) (k : string) : list string :=
  if existsb (String.eqb k) keys then keys else (keys ++ [k])%list.

(** The distinct elements of [ids], in the order of their first
    occurrence. *)
Definition first_occurrences (ids : list string) : list string :=
  fold_left add_key ids [].

(** Two states of the individual loop that differ at most in the map, and
    whose maps agree on [k] unless the record under construction is that
    of [k] (which will overwrite the entry). *)
Definition agree_on (k : string) (s1 s2 : ExtractIndividuals.locals) : Prop :=
  ExtractIndividuals.current_individual s1
  = ExtractIndividuals.current_individual s2
  /\ ExtractIndividuals.current_record s1
     = ExtractIndividuals.current_record s2
  /\ ExtractIndividuals.current_section s1
     = ExtractIndividuals.current_section s2
  /\ (ExtractIndividuals.current_individual s1 = Some k
      \/ Dict.get k (ExtractIndividuals.individuals s1)
         = Dict.get k (ExtractIndividuals.individuals s2)).

(** The spouses named by a list of family ids for the individual of key
    [k]: for each id that is a key of [families], the wife when [k] is the
    husband, else the husband when [k] is the wife, when that other id is
    not empty. *)
Definition expected_spouse (families : dict Family) (k : string)
  (fam_ids : list string) : list string :=
  flat_map
    (fun fam_id =>
       match Dict.get fam_id families with
       | Some family =>
           if String.eqb (fam_husband family) k
              && PyStr.truthy (fam_wife family)
           then [fam_wife family]
           else if String.eqb (fam_wife family) k
                   && PyStr.truthy (fam_husband family)
           then [fam_husband family]
           else []
       | None => []
       end)
    fam_ids.

(** All the children of the families of a list of family ids that are keys
    of [families], in order. *)
Definition listed_children (families : dict Family) (fam_ids : list string)
  : list string :=
  flat_map
    (fun fam_id =>
       match Dict.get fam_id families with
       | Some family => fam_children family
       | None => []
       end)
    fam_ids.

(** The record that the relationship pass leaves under the key [k]. *)
Definition resolved (families : dict Family) (k : string) (i : Individual)
  : Individual :=
  set_children
    (filter PyStr.truthy
       (listed_children families (ind_families_as_spouse i)))
    (set_spouse (expected_spouse families k (ind_families_as_spouse i))
       (set_parents (expected_parents families (ind_families_as_child i)) i)).

(** The number of elements of [l] that pass the test [f]. *)
Definition count_of {A : Type} (f : A -> bool) (l : list A) : Z :=
  Z.of_nat (List.length (filter f l)).

(** The gender tests behind the three buckets of [gender_distribution]. *)
Definition is_male (person : Individual) : bool :=
  String.eqb (ind_gender person) "M".
Definition is_female (person : Individual) : bool :=
  String.eqb (ind_gender person) "F".
Definition is_other (person : Individual) : bool :=
  negb (is_male person) && negb (is_female person).

(** The key under which [get_statistics] counts the occupation of a
    person: the occupation, when it is not empty. *)
Definition occupation_key (person : Individual) : option string :=
  if PyStr.truthy (ind_occupation person) then Some (ind_occupation person)
  else None.

(** The key under which [get_statistics] counts the birth of a person:
    when the birth date has at least four characters and [int] accepts the
    last four as [year], the text of [year // 100 + 1] followed by
    [th century]. *)
Definition century_key (person : Individual) : option string :=
  let birth_date :=
    GenealogyQueryEngine.get_or_empty (date (ind_birth person)) in
  if PyStr.truthy birth_date && (4 <=? String.length birth_date)%nat then
    match PyStr.to_int (PyStr.suffix 4 birth_date) with
    | Some year => Some (PyStr.of_int (year / 100 + 1) ++ "th century")
    | None => None
    end
  else None.

(** Whether [key] gives [k] for a person. *)
Definition has_key (key : Individual -> option string) (k : string)
  (person : Individual) : bool :=
  match key person with
  | Some k' => String.eqb k' k
  | None => false
  end.

(** The entry of a frequency dictionary for a key counted [n] times: no
    entry for a key never counted. *)
Definition frequency (n : Z) : option Z := if n =? 0 then None else Some n.

(** A loop that counts the key of each person, as [get_statistics] does
    for occupations and centuries. *)
Definition tally (key : Individual -> option string) (d : dict Z)
  (person : Individual) : dict Z :=
  match key person with
  | Some k => GenealogyQueryEngine.count_up k d
  | None => d
  end.

(** The names of the ids of a list that are keys of the map, in order;
    an id that is not a key gives no name. *)
Definition known_names (inds : dict Individual) (ids : list string)
  : list string :=
  flat_map
    (fun i =>
       match Dict.get i inds with
       | Some linked => [ind_name linked]
       | None => []
       end)
    ids.

(** A model without children links: a child that names its family, the
    father of that family, and nobody who names a family as a spouse. *)
Definition ancestors_only_engine : GenealogyQueryEngine.t :=
  GenealogyQueryEngine.init
    (mkResult
       [("1", set_parents ["2"]
                (set_families_as_child ["1"]
                   (ExtractIndividuals.new_record "1")));
        ("2", ExtractIndividuals.new_record "2")]
       [("1", mkFamily "1" empty_event "2" "" ["1"] [] false)]
       (mkSummary 2 1 "now" None)).

(** The value of a line that tokenizes to the level [lvl] and the tag
    [tg]. *)
Definition line_value (lvl : Z) (tg : string) (line : string)
  : option string :=
  match tokenize line with
  | Some t =>
      if (level t =? lvl) && String.eqb (tag t) tg then Some (value t)
      else None
  | None => None
  end.

(** The value of the last line of level [lvl] and tag [tg], after
    [earlier]. *)
Definition last_value (lvl : Z) (tg : string) (lines : list string)
  (earlier : option string) : option string :=
  fold_left
    (fun found line =>
       match line_value lvl tg line with
       | Some v => Some v
       | None => found
       end)
    lines earlier.

(** A level-1 [DIV] or [SEP] line. *)
Definition is_divorce_line (line : string) : bool :=
  match line_value 1 "DIV" line, line_value 1 "SEP" line with
  | None, None => false
  | _, _ => true
  end.

(** The non-empty ids of the level-1 [CHIL] lines, in order. *)
Definition child_ids (lines : list string) : list string :=
  flat_map
    (fun line =>
       match line_value 1 "CHIL" line with
       | Some v => if_nonempty (reference_id "I" v)
       | None => []
       end)
    lines.

(** What one line inside a family record does to the record under
    construction. *)
Definition family_line (r : Family) (line : string) : Family :=
  match tokenize line with
  | Some t =>
      if level t =? 1 then ExtractFamilies.level1 t r
      else if level t =? 2 then ExtractFamilies.level2 t r
      else r
  | None => r
  end.

(** The non-empty ids of the level-1 lines of tag [tg], in order; [c] is
    the letter removed from the value. *)
Definition reference_ids (tg : string) (c : ascii) (lines : list string)
  : list string :=
  flat_map
    (fun line =>
       match line_value 1 tg line with
       | Some v => if_nonempty (reference_id c v)
       | None => []
       end)
    lines.

(** What one line inside an individual record does to the record under
    construction and to the current section. *)
Definition individual_line (rs : Individual * option section_name)
  (line : string) : Individual * option section_name :=
  match tokenize line with
  | Some t =>
      if level t =? 1 then ExtractIndividuals.level1 t (fst rs) (snd rs)
      else if level t =? 2 then
        match snd rs with
        | Some sec => (ExtractIndividuals.level2 t (fst rs) sec, snd rs)
        | None => rs
        end
      else rs
  | None => rs
  end.

(** The query engine over what [parse] returns for [descendants_only]. *)
Definition descendants_only_engine : GenealogyQueryEngine.t :=
  Eval vm_compute in
    match engine_for descendants_only with
    | Some self => self
    | None =>
        GenealogyQueryEngine.init (mkResult [] [] (mkSummary 0 0 "" None))
    end.

(** Closes a goal that holds in every branch of its conditionals. *)
Ltac by_cases_on_ifs :=
  repeat match goal with
         | |- context [if ?b then _ else _] => destruct b
         end;
  reflexivity.

(* ===================================================================== *)
(** ** The section state of the individual pass *)
(* ===================================================================== *)

Section SectionState.
Import ExtractIndividuals.

Lemma eqb_false_of_neq (a b : string) : a <> b -> String.eqb a b = false.
Proof. intro H. apply String.eqb_neq. exact H. Qed.

(** A level-1 tag outside [section_tags] leaves [current_section] as it is,
    whatever it does to the record. *)
Lemma level1_keeps_section (t : Token) (r : Individual)
  (sec : option section_name) :
  ~ In (tag t) section_tags -> snd (level1 t r sec) = sec.
Proof.
  intro Hout. unfold level1.
  assert (Hb : String.eqb (tag t) "BIRT" = false)
    by (apply eqb_false_of_neq; intro E; apply Hout; simpl; auto).
  assert (Hd : String.eqb (tag t) "DEAT" = false)
    by (apply eqb_false_of_neq; intro E; apply Hout; simpl; auto).
  assert (Ho : String.eqb (tag t) "OBJE" = false)
    by (apply eqb_false_of_neq; intro E; apply Hout; simpl; auto).
  assert (Hn : String.eqb (tag t) "NOTE" = false)
    by (apply eqb_false_of_neq; intro E; apply Hout; simpl; auto).
  rewrite Hb, Hd, Ho, Hn.
  by_cases_on_ifs.
Qed.

(** A level-1 token never starts a record. *)
Lemma level1_not_start (kind : string) (t : Token) :
  level t = 1 -> starts_record kind t = false.
Proof. intro H. unfold starts_record. rewrite H. reflexivity. Qed.

(** When [level1] changes the section, the tag is one of [section_tags]. *)
Lemma level1_changes_section (t : Token) (r : Individual)
  (sec : option section_name) :
  snd (level1 t r sec) <> sec -> In (tag t) section_tags.
Proof.
  unfold level1, section_tags. intro H.
  destruct (String.eqb_spec (tag t) "BIRT") as [E|_]; [simpl; auto|].
  destruct (String.eqb_spec (tag t) "DEAT") as [E|_]; [simpl; auto|].
  destruct (String.eqb_spec (tag t) "OBJE") as [E|_]; [simpl; auto|].
  destruct (String.eqb_spec (tag t) "NOTE") as [E|_]; [simpl; auto|].
  exfalso. apply H.
  by_cases_on_ifs.
Qed.

(** C5. A level-1 line whose tag is none of BIRT, DEAT, OBJE, NOTE leaves
    [current_section] unchanged; a line that changes [current_section]
    either starts an INDI record or is a level-1 line, under an open
    record, with one of those four tags; and after the lines
    [1 BIRT], [2 DATE a], [1 FAMC @F1@], [2 DATE b] under an open record the
    section is still the birth section and the birth date of the record is
    [b]. *)
Theorem section_changes_only_on_section_tags :
  (forall st line t,
      tokenize line = Some t -> level t = 1 -> ~ In (tag t) section_tags ->
      current_section (step st line) = current_section st)
  /\ (forall st line,
        current_section (step st line) <> current_section st ->
        exists t, tokenize line = Some t
                  /\ (starts_record "INDI" t = true
                      \/ (is_open st = true /\ level t = 1
                          /\ In (tag t) section_tags)))
  /\ (forall st r,
        is_open st = true -> current_record st = Some r ->
        let st' := fold_left step birth_then_famc st in
        current_section st' = Some SecBirth
        /\ option_map (fun r' => date (ind_birth r')) (current_record st')
           = Some (Some "b")
        /\ current_individual st' = current_individual st
        /\ individuals st' = individuals st).
Proof.
  split; [|split].
  - intros st line t Htok Hlev Hout. unfold step. rewrite Htok.
    rewrite (level1_not_start "INDI" t Hlev). rewrite Hlev. simpl.
    destruct (is_open st); simpl; [|reflexivity].
    destruct (current_record st) as [r|]; [|reflexivity].
    pose proof (level1_keeps_section t r (current_section st) Hout) as Hk.
    destruct (level1 t r (current_section st)) as [r' sec']. simpl in *.
    exact Hk.
  - intros st line Hch. unfold step in Hch.
    destruct (tokenize line) as [t|] eqn:Htok; [|congruence].
    exists t. split; [reflexivity|].
    destruct (starts_record "INDI" t) eqn:Hs; [left; reflexivity|right].
    destruct (is_open st) eqn:Ho; simpl in Hch; [|congruence].
    destruct (Z.eqb_spec (level t) 1) as [Hl|Hl].
    + destruct (current_record st) as [r|]; [|congruence].
      pose proof (level1_changes_section t r (current_section st)) as Hk.
      destruct (level1 t r (current_section st)) as [r' sec']. simpl in *.
      auto.
    + destruct (level t =? 2); [|congruence].
      destruct (current_section st) eqn:E1, (current_record st) eqn:E2;
        simpl in Hch; congruence.
  - intros st r Ho Hr. unfold birth_then_famc. simpl fold_left.
    destruct st as [inds ci cr cs]. simpl in Ho, Hr. subst cr.
    unfold is_open in Ho. simpl in Ho.
    destruct ci as [[|c i]|]; try discriminate Ho.
    cbn. auto.
Qed.

(** The example of C5 on a whole record. *)
Example birth_then_famc_run :
  extract [] ("0 @I1@ INDI" :: birth_then_famc)
  = [("1", set_families_as_child ["1"]
             (set_birth (mkEvent (Some "b") None) (new_record "1")))].
Proof. reflexivity. Qed.

Lemma section_changes_only_on_section_tags_witness :
  current_section
    (step (run [] ["0 @I1@ INDI"; "1 BIRT"]) "1 FAMC @F1@")
  = Some SecBirth
  /\ current_section
       (fold_left step birth_then_famc (run [] ["0 @I1@ INDI"]))
     = Some SecBirth
  /\ exists t, tokenize "1 DEAT" = Some t
               /\ (starts_record "INDI" t = true
                   \/ (is_open (run [] ["0 @I1@ INDI"]) = true
                       /\ level t = 1 /\ In (tag t) section_tags)).
Proof.
  split; [|split].
  - rewrite (proj1 section_changes_only_on_section_tags
               (run [] ["0 @I1@ INDI"; "1 BIRT"]) "1 FAMC @F1@"
               (mkToken ["1"; "FAMC"; "@F1@"] 1 "FAMC" "@F1@")).
    + reflexivity.
    + reflexivity.
    + reflexivity.
    + simpl. intros [H|[H|[H|[H|H]]]]; try discriminate H; exact H.
  - apply (proj2 (proj2 section_changes_only_on_section_tags)
             (run [] ["0 @I1@ INDI"]) (new_record "1")); reflexivity.
  - apply (proj1 (proj2 section_changes_only_on_section_tags)
             (run [] ["0 @I1@ INDI"]) "1 DEAT").
    discriminate.
Defined.

End SectionState.

(* ===================================================================== *)
(** ** The tokenizer *)
(* ===================================================================== *)

Section Tokenizer.

Lemma cut_none (sep : ascii) (s : string) :
  PyStr.has_char sep s = false -> PyStr.cut sep s = None.
Proof.
  induction s as [|c s IH]; simpl; intro H; [reflexivity|].
  apply orb_false_iff in H. destruct H as [Hc Hs].
  rewrite Hc, (IH Hs). reflexivity.
Qed.

Lemma cut_some (sep : ascii) (a b : string) :
  PyStr.has_char sep a = false ->
  PyStr.cut sep (a ++ String sep b) = Some (a, b).
Proof.
  induction a as [|c a IH]; simpl; intro H.
  - rewrite Ascii.eqb_refl. reflexivity.
  - apply orb_false_iff in H. destruct H as [Hc Hs].
    rewrite Hc, (IH Hs). reflexivity.
Qed.

Lemma cut_has_char (sep : ascii) (s : string) :
  PyStr.cut sep s = None -> PyStr.has_char sep s = false.
Proof.
  induction s as [|c s IH]; simpl; intro H; [reflexivity|].
  destruct (Ascii.eqb c sep); [discriminate H|].
  destruct (PyStr.cut sep s) as [[a b]|]; [discriminate H|].
  simpl. apply IH. reflexivity.
Qed.

(** Three fields separated by single spaces: the third is the rest of the
    line, with its own spaces. *)
Lemma split_three (l g v : string) :
  PyStr.has_char " " l = false -> PyStr.has_char " " g = false ->
  PyStr.split_max " " 2 (l ++ " " ++ g ++ " " ++ v) = [l; g; v].
Proof.
  intros Hl Hg. simpl PyStr.split_max.
  change (l ++ " " ++ g ++ " " ++ v)
    with (l ++ String " " (g ++ String " " v)).
  rewrite (cut_some " " l _ Hl), (cut_some " " g _ Hg). reflexivity.
Qed.

Lemma split_two (l g : string) :
  PyStr.has_char " " l = false -> PyStr.has_char " " g = false ->
  PyStr.split_max " " 2 (l ++ " " ++ g) = [l; g].
Proof.
  intros Hl Hg. simpl PyStr.split_max.
  change (l ++ " " ++ g) with (l ++ String " " g).
  rewrite (cut_some " " l _ Hl), (cut_none " " g Hg). reflexivity.
Qed.

(** A line without a space has one field. *)
Lemma split_one (s : string) :
  PyStr.has_char " " s = false -> PyStr.split_max " " 2 s = [s].
Proof. intro H. simpl. rewrite (cut_none " " s H). reflexivity. Qed.

Lemma tokenize_three (l g v : string) (n : Z) :
  let line := l ++ " " ++ g ++ " " ++ v in
  PyStr.strip line = line ->
  PyStr.has_char " " l = false -> PyStr.has_char " " g = false ->
  PyStr.to_int l = Some n ->
  tokenize line = Some (mkToken [l; g; v] n g v).
Proof.
  intros line Hs Hl Hg Hn. unfold tokenize. rewrite Hs.
  assert (Ht : PyStr.truthy line = true) by (destruct l; reflexivity).
  rewrite Ht. unfold line. rewrite (split_three l g v Hl Hg).
  cbn [negb List.length Nat.ltb Nat.leb nth]. rewrite Hn. reflexivity.
Qed.

Lemma tokenize_two (l g : string) (n : Z) :
  let line := l ++ " " ++ g in
  PyStr.strip line = line ->
  PyStr.has_char " " l = false -> PyStr.has_char " " g = false ->
  PyStr.to_int l = Some n ->
  tokenize line = Some (mkToken [l; g] n g "").
Proof.
  intros line Hs Hl Hg Hn. unfold tokenize. rewrite Hs.
  assert (Ht : PyStr.truthy line = true) by (destruct l; reflexivity).
  rewrite Ht. unfold line. rewrite (split_two l g Hl Hg).
  cbn [negb List.length Nat.ltb Nat.leb nth]. rewrite Hn. reflexivity.
Qed.

(** A token with a negative level matches no branch of either loop. *)
Lemma negative_level_no_branch (kind : string) (t : Token) :
  level t < 0 ->
  starts_record kind t = false /\ (level t =? 1) = false
  /\ (level t =? 2) = false.
Proof.
  intro H. unfold starts_record.
  destruct (Z.eqb_spec (level t) 0); [lia|].
  destruct (Z.eqb_spec (level t) 1); [lia|].
  destruct (Z.eqb_spec (level t) 2); [lia|]. auto.
Qed.

Lemma skipped_individuals (st : ExtractIndividuals.locals) (line : string) :
  skipped line -> ExtractIndividuals.step st line = st.
Proof.
  unfold skipped, ExtractIndividuals.step.
  destruct (tokenize line) as [t|]; [|reflexivity].
  intro H. destruct (negative_level_no_branch "INDI" t H) as [H0 [H1 H2]].
  rewrite H0, H1, H2, !andb_false_r. reflexivity.
Qed.

Lemma skipped_families (st : ExtractFamilies.locals) (line : string) :
  skipped line -> ExtractFamilies.step st line = st.
Proof.
  unfold skipped, ExtractFamilies.step.
  destruct (tokenize line) as [t|]; [|reflexivity].
  intro H. destruct (negative_level_no_branch "FAM" t H) as [H0 [H1 H2]].
  rewrite H0, H1, H2, !andb_false_r. reflexivity.
Qed.

End Tokenizer.

(** C3, as stated, fails: a line whose three fields are separated by tabs
    has the three fields [0], [@I1@], [INDI] when split on whitespace, but
    the tokenizer finds no space in it and skips it, so no record is
    started; and with two spaces between the fields the tag is empty and
    the value keeps the second field. *)
Lemma tab_separated_fields_not_tokenized :
  let tabs := "0" ++ TAB ++ "@I1@" ++ TAB ++ "INDI" in
  let spaces := "0  @I1@  INDI" in
  PyStr.strip tabs = tabs
  /\ whitespace_fields 2 tabs = ["0"; "@I1@"; "INDI"]
  /\ tokenize tabs = None
  /\ ExtractIndividuals.extract [] [tabs] = []
  /\ ExtractIndividuals.extract [] ["0 @I1@ INDI"]
     = [("1", ExtractIndividuals.new_record "1")]
  /\ whitespace_fields 2 spaces = ["0"; "@I1@"; "INDI"]
  /\ tokenize spaces
     = Some (mkToken ["0"; ""; "@I1@  INDI"] 0 "" "@I1@  INDI")
  /\ ExtractIndividuals.extract [] [spaces] = [].
Proof. repeat split. Qed.

(** C3, amended. The tokenizer cuts the trimmed line at its first two
    single space characters: for fields [l] and [g] without a space, the
    line [l g v] has the parts [l], [g], [v] ([v] is the untouched rest of
    the line), the line [l g] has the parts [l], [g] and an empty value; the
    level is [int(l)]. A line with fewer than two such fields (in
    particular any line without a space character, such as a line whose
    fields are separated by tabs), a line whose first field [int] rejects,
    and a line whose level is negative leave the state of both passes
    unchanged. *)
Theorem tokenizer_splits_at_single_spaces :
  (forall l g v n,
      PyStr.strip (l ++ " " ++ g ++ " " ++ v) = l ++ " " ++ g ++ " " ++ v ->
      PyStr.has_char " " l = false -> PyStr.has_char " " g = false ->
      PyStr.to_int l = Some n ->
      tokenize (l ++ " " ++ g ++ " " ++ v) = Some (mkToken [l; g; v] n g v))
  /\ (forall l g n,
        PyStr.strip (l ++ " " ++ g) = l ++ " " ++ g ->
        PyStr.has_char " " l = false -> PyStr.has_char " " g = false ->
        PyStr.to_int l = Some n ->
        tokenize (l ++ " " ++ g) = Some (mkToken [l; g] n g ""))
  /\ (forall line,
        let fields := PyStr.split_max " " 2 (PyStr.strip line) in
        (List.length fields < 2)%nat
        \/ PyStr.has_char " " (PyStr.strip line) = false
        \/ PyStr.to_int (nth 0 fields "") = None
        \/ (exists t, tokenize line = Some t /\ level t < 0) ->
        (forall st, ExtractIndividuals.step st line = st)
        /\ (forall st, ExtractFamilies.step st line = st)).
Proof.
  split; [|split].
  - intros l g v n. apply tokenize_three.
  - intros l g n. apply tokenize_two.
  - intros line fields H.
    assert (Hs : skipped line).
    { unfold skipped. destruct H as [H|[H|[H|[t [Ht Hl]]]]].
      - unfold tokenize. fold fields.
        destruct (negb (PyStr.truthy (PyStr.strip line))); [exact I|].
        apply Nat.ltb_lt in H. rewrite H. exact I.
      - unfold tokenize. rewrite (split_one _ H).
        destruct (negb (PyStr.truthy (PyStr.strip line))); exact I.
      - unfold tokenize. fold fields. rewrite H.
        destruct (negb (PyStr.truthy (PyStr.strip line))); [exact I|].
        destruct (List.length fields <? 2)%nat; exact I.
      - rewrite Ht. exact Hl. }
    split; intro st.
    + apply skipped_individuals, Hs.
    + apply skipped_families, Hs.
Qed.

Lemma tokenizer_splits_at_single_spaces_witness :
  tokenize "0 @I1@ INDI" = Some (mkToken ["0"; "@I1@"; "INDI"] 0 "@I1@" "INDI")
  /\ tokenize "1 BIRT" = Some (mkToken ["1"; "BIRT"] 1 "BIRT" "")
  /\ ExtractIndividuals.step (ExtractIndividuals.start []) "HEAD"
     = ExtractIndividuals.start []
  /\ ExtractFamilies.step (ExtractFamilies.start []) "x @F1@ FAM"
     = ExtractFamilies.start []
  /\ ExtractIndividuals.step (ExtractIndividuals.start []) "-1 @I1@ INDI"
     = ExtractIndividuals.start [].
Proof.
  split; [|split; [|split; [|split]]].
  - apply (proj1 tokenizer_splits_at_single_spaces "0" "@I1@" "INDI" 0);
      reflexivity.
  - apply (proj1 (proj2 tokenizer_splits_at_single_spaces) "1" "BIRT" 1);
      reflexivity.
  - apply (proj2 (proj2 tokenizer_splits_at_single_spaces) "HEAD").
    left. vm_compute. lia.
  - apply (proj2 (proj2 tokenizer_splits_at_single_spaces) "x @F1@ FAM").
    right. right. left. reflexivity.
  - apply (proj2 (proj2 tokenizer_splits_at_single_spaces) "-1 @I1@ INDI").
    right. right. right.
    exists (mkToken ["-1"; "@I1@"; "INDI"] (-1) "@I1@" "INDI").
    split; reflexivity.
Defined.

(* ===================================================================== *)
(** ** Facts about dictionaries *)
(* ===================================================================== *)

Section DictFacts.
Context {V : Type}.
Implicit Types (d : dict V) (k : string) (v : V).

Lemma keys_set_in k v d k' :
  In k' (Dict.keys (Dict.set k v d)) <-> k' = k \/ In k' (Dict.keys d).
Proof.
  induction d as [|[k0 v0] d IH]; simpl.
  - intuition.
  - destruct (String.eqb_spec k k0) as [->|Hne]; simpl.
    + intuition.
    + rewrite IH. intuition.
Qed.

Lemma keys_set_nodup k v d :
  NoDup (Dict.keys d) -> NoDup (Dict.keys (Dict.set k v d)).
Proof.
  induction d as [|[k0 v0] d IH]; simpl; intro H.
  - constructor; [intros []|constructor].
  - inversion H as [|? ? Hnotin Hnd]; subst.
    destruct (String.eqb_spec k k0) as [->|Hne]; simpl.
    + constructor; assumption.
    + constructor; [|apply IH; assumption].
      intro Hin. apply keys_set_in in Hin. destruct Hin as [E|Hin].
      * apply Hne. symmetry. exact E.
      * apply Hnotin. exact Hin.
Qed.

Lemma set_forall (P : string * V -> Prop) k v d :
  P (k, v) -> Forall P d -> Forall P (Dict.set k v d).
Proof.
  intros Hkv. induction d as [|[k0 v0] d IH]; simpl; intro H.
  - constructor; [exact Hkv|constructor].
  - inversion H; subst.
    destruct (String.eqb k k0); constructor; auto.
Qed.

Lemma get_set_same k v d : Dict.get k (Dict.set k v d) = Some v.
Proof.
  induction d as [|[k0 v0] d IH]; simpl.
  - rewrite String.eqb_refl. reflexivity.
  - destruct (String.eqb k k0) eqn:E; simpl.
    + rewrite String.eqb_refl. reflexivity.
    + rewrite E. exact IH.
Qed.

Lemma get_in_keys k d : Dict.get k d <> None <-> In k (Dict.keys d).
Proof.
  induction d as [|[k0 v0] d IH]; simpl.
  - intuition.
  - destruct (String.eqb_spec k k0) as [->|Hne].
    + split; [auto|discriminate].
    + rewrite IH. split; [auto|]. intros [E|H]; [|exact H].
      exfalso. apply Hne. symmetry. exact E.
Qed.

End DictFacts.

(* ===================================================================== *)
(** ** Invariants of the individual pass *)
(* ===================================================================== *)

Section IndividualPass.
Import ExtractIndividuals.

Lemma remove_char_only (a b : ascii) (s : string) :
  only_chars a b s = true ->
  PyStr.remove_char a (PyStr.remove_char b (PyStr.remove_char a s)) = "".
Proof.
  induction s as [|c s IH]; simpl; intro H; [reflexivity|].
  apply andb_true_iff in H. destruct H as [Hc Hs].
  destruct (Ascii.eqb c a) eqn:Ea; [exact (IH Hs)|].
  simpl in Hc. simpl. rewrite Hc. exact (IH Hs).
Qed.

Lemma record_id_only (c : ascii) (tag : string) :
  only_chars "@" c tag = true -> record_id c tag = "".
Proof. apply remove_char_only. Qed.

Lemma level1_id (t : Token) (r : Individual) (sec : option section_name) :
  ind_id (fst (level1 t r sec)) = ind_id r.
Proof.
  unfold level1.
  by_cases_on_ifs.
Qed.

Lemma level2_id (t : Token) (r : Individual) (sec : section_name) :
  ind_id (level2 t r sec) = ind_id r.
Proof.
  unfold level2. destruct sec; by_cases_on_ifs.
Qed.

Lemma start_wf (inds : dict Individual) : individual_locals_wf (start inds).
Proof. intros i H. discriminate H. Qed.

(** Apart from the start of a record, a step keeps the map and the current
    id, and keeps the [id] of the record under construction. *)
Lemma step_inside (st : locals) (line : string) :
  record_line_id "INDI" "I" line = None ->
  individuals (step st line) = individuals st
  /\ current_individual (step st line) = current_individual st
  /\ (forall r, current_record st = Some r ->
        exists r', current_record (step st line) = Some r'
                   /\ ind_id r' = ind_id r)
  /\ (is_open st = false -> step st line = st).
Proof.
  unfold record_line_id, step. intro Hn.
  destruct (tokenize line) as [t|]; [|repeat split; eauto].
  destruct (starts_record "INDI" t); [discriminate Hn|].
  destruct (is_open st); simpl; [|repeat split; eauto].
  destruct (level t =? 1).
  - destruct (current_record st) as [r|] eqn:Hr; [|repeat split; eauto; discriminate].
    pose proof (level1_id t r (current_section st)) as Hid.
    destruct (level1 t r (current_section st)) as [r' sec']. simpl in *.
    repeat split; try discriminate.
    intros r0 E. injection E as <-. eauto.
  - destruct (level t =? 2); [|repeat split; eauto; discriminate].
    destruct (current_section st) as [sec|];
      [|repeat split; eauto; discriminate].
    destruct (current_record st) as [r|] eqn:Hr;
      [|repeat split; eauto; discriminate].
    simpl. repeat split; try discriminate.
    intros r0 E. injection E as <-. exists (level2 t r sec).
    split; [reflexivity|apply level2_id].
Qed.

(** The start of a record commits the record before it and opens a fresh
    one. *)
Lemma step_start (st : locals) (line : string) (i : string) :
  record_line_id "INDI" "I" line = Some i ->
  step st line = mkLocals (commit st) (Some i) (Some (new_record i)) None.
Proof.
  unfold record_line_id, step.
  destruct (tokenize line) as [t|]; [|discriminate].
  destruct (starts_record "INDI" t); [|discriminate].
  intro E. injection E as <-. reflexivity.
Qed.

Lemma step_wf (st : locals) (line : string) :
  individual_locals_wf st -> individual_locals_wf (step st line).
Proof.
  intro Hwf. destruct (record_line_id "INDI" "I" line) as [i|] eqn:Hl.
  - rewrite (step_start st line i Hl). intros j Hj. simpl in *.
    injection Hj as <-. eauto.
  - destruct (step_inside st line Hl) as [_ [Hc [Hr _]]].
    intros j Hj. rewrite Hc in Hj.
    destruct (Hwf j Hj) as [r [Er Eid]].
    destruct (Hr r Er) as [r' [Er' Eid']]. exists r'. split; congruence.
Qed.

Lemma run_from_wf (lines : list string) (st : locals) :
  individual_locals_wf st -> individual_locals_wf (fold_left step lines st).
Proof.
  revert st. induction lines as [|l ls IH]; simpl; intros st H; [exact H|].
  apply IH, step_wf, H.
Qed.

Lemma commit_ids_match (st : locals) :
  individual_locals_wf st -> individual_ids_match (individuals st) ->
  individual_ids_match (commit st).
Proof.
  intros Hwf Hm. unfold commit.
  destruct (current_individual st) as [i|] eqn:Hi; [|exact Hm].
  destruct (Hwf i Hi) as [r [Hr Hid]]. rewrite Hr.
  destruct (PyStr.truthy i); [|exact Hm].
  apply set_forall; [exact Hid|exact Hm].
Qed.

Lemma step_ids_match (st : locals) (line : string) :
  individual_locals_wf st -> individual_ids_match (individuals st) ->
  individual_ids_match (individuals (step st line)).
Proof.
  intros Hwf Hm. destruct (record_line_id "INDI" "I" line) as [i|] eqn:Hl.
  - rewrite (step_start st line i Hl). simpl. apply commit_ids_match; auto.
  - destruct (step_inside st line Hl) as [-> _]. exact Hm.
Qed.

Lemma run_from_ids_match (lines : list string) (st : locals) :
  individual_locals_wf st -> individual_ids_match (individuals st) ->
  individual_ids_match (individuals (fold_left step lines st)).
Proof.
  revert st. induction lines as [|l ls IH]; simpl; intros st Hwf Hm;
    [exact Hm|].
  apply IH; [apply step_wf, Hwf|apply step_ids_match; assumption].
Qed.

Lemma extract_ids_match (inds : dict Individual) (lines : list string) :
  individual_ids_match inds -> individual_ids_match (extract inds lines).
Proof.
  intro H. unfold extract, run. apply commit_ids_match.
  - apply run_from_wf, start_wf.
  - apply run_from_ids_match; [apply start_wf|exact H].
Qed.

End IndividualPass.

(* ===================================================================== *)
(** ** The keys of the extracted maps *)
(* ===================================================================== *)

Section StartedIds.

Lemma truthy_nonempty (s : string) : PyStr.truthy s = true <-> s <> "".
Proof. destruct s; simpl; split; congruence. Qed.

Lemma in_started_ids (kind : string) (c : ascii) (lines : list string)
  (k : string) :
  In k (started_ids kind c lines)
  <-> k <> "" /\ exists line, In line lines
                              /\ record_line_id kind c line = Some k.
Proof.
  unfold started_ids. rewrite in_flat_map. split.
  - intros [line [Hin Hk]].
    destruct (record_line_id kind c line) as [i|] eqn:E; [|destruct Hk].
    destruct (PyStr.truthy i) eqn:Ht; [|destruct Hk].
    destruct Hk as [->|[]]. split; [apply truthy_nonempty, Ht|eauto].
  - intros [Hne [line [Hin E]]]. exists line. split; [exact Hin|].
    rewrite E. apply truthy_nonempty in Hne. rewrite Hne. left. reflexivity.
Qed.

Lemma started_ids_cons (kind : string) (c : ascii) (l : string)
  (ls : list string) (k : string) :
  In k (started_ids kind c (l :: ls))
  <-> In k (started_ids kind c [l]) \/ In k (started_ids kind c ls).
Proof.
  unfold started_ids. simpl. rewrite app_nil_r, in_app_iff. reflexivity.
Qed.

End StartedIds.

Section IndividualKeys.
Import ExtractIndividuals.

Lemma commit_step_keys (st : locals) (line : string) (k : string) :
  individual_locals_wf st ->
  In k (Dict.keys (commit (step st line)))
  <-> In k (Dict.keys (commit st)) \/ In k (started_ids "INDI" "I" [line]).
Proof.
  intro Hwf. unfold started_ids. simpl. rewrite app_nil_r.
  destruct (record_line_id "INDI" "I" line) as [i|] eqn:Hl.
  - rewrite (step_start st line i Hl). unfold commit at 1. simpl.
    destruct (PyStr.truthy i); simpl.
    + rewrite keys_set_in. intuition.
    + intuition.
  - destruct (step_inside st line Hl) as [Hi [Hc [Hr _]]].
    unfold commit. rewrite Hi, Hc.
    destruct (current_individual st) as [i|] eqn:Ei; [|simpl; intuition].
    destruct (Hwf i Ei) as [r [Er _]].
    destruct (Hr r Er) as [r' [Er' _]]. rewrite Er, Er'.
    destruct (PyStr.truthy i); [|simpl; intuition].
    rewrite !keys_set_in. simpl. intuition.
Qed.

Lemma run_from_keys (lines : list string) (st : locals) (k : string) :
  individual_locals_wf st ->
  In k (Dict.keys (commit (fold_left step lines st)))
  <-> In k (Dict.keys (commit st)) \/ In k (started_ids "INDI" "I" lines).
Proof.
  revert st. induction lines as [|l ls IH]; intros st Hwf.
  - simpl. intuition.
  - simpl fold_left. rewrite (IH (step st l) (step_wf st l Hwf)).
    rewrite (commit_step_keys st l k Hwf).
    rewrite (started_ids_cons "INDI" "I" l ls k). intuition.
Qed.

Lemma commit_nodup (st : locals) :
  NoDup (Dict.keys (individuals st)) -> NoDup (Dict.keys (commit st)).
Proof.
  intro H. unfold commit.
  destruct (current_individual st) as [i|]; [|exact H].
  destruct (current_record st) as [r|]; [|exact H].
  destruct (PyStr.truthy i); [|exact H].
  apply keys_set_nodup, H.
Qed.

Lemma step_nodup (st : locals) (line : string) :
  NoDup (Dict.keys (individuals st)) ->
  NoDup (Dict.keys (individuals (step st line))).
Proof.
  intro H. destruct (record_line_id "INDI" "I" line) as [i|] eqn:Hl.
  - rewrite (step_start st line i Hl). simpl. apply commit_nodup, H.
  - destruct (step_inside st line Hl) as [-> _]. exact H.
Qed.

Lemma run_from_nodup (lines : list string) (st : locals) :
  NoDup (Dict.keys (individuals st)) ->
  NoDup (Dict.keys (individuals (fold_left step lines st))).
Proof.
  revert st. induction lines as [|l ls IH]; simpl; intros st H; [exact H|].
  apply IH, step_nodup, H.
Qed.

(** The keys of the extracted map, over an empty map: the non-empty ids
    of the records started by the lines, each once. *)
Lemma extract_keys (lines : list string) :
  NoDup (Dict.keys (extract [] lines))
  /\ forall k, In k (Dict.keys (extract [] lines))
               <-> In k (started_ids "INDI" "I" lines).
Proof.
  split.
  - apply commit_nodup, run_from_nodup. constructor.
  - intro k. unfold extract, run.
    rewrite (run_from_keys lines (start []) k (start_wf [])).
    simpl. intuition.
Qed.

End IndividualKeys.

(* ===================================================================== *)
(** ** Invariants of the family pass *)
(* ===================================================================== *)

Section FamilyPass.
Import ExtractFamilies.

Lemma family_level1_id (t : Token) (r : Family) :
  fam_id (level1 t r) = fam_id r.
Proof.
  unfold level1.
  by_cases_on_ifs.
Qed.

Lemma family_level2_id (t : Token) (r : Family) :
  fam_id (level2 t r) = fam_id r.
Proof.
  unfold level2.
  by_cases_on_ifs.
Qed.

Lemma family_start_wf (fams : dict Family) : family_locals_wf (start fams).
Proof. intros i H. discriminate H. Qed.

Lemma family_step_inside (st : locals) (line : string) :
  record_line_id "FAM" "F" line = None ->
  families (step st line) = families st
  /\ current_family (step st line) = current_family st
  /\ (forall r, current_record st = Some r ->
        exists r', current_record (step st line) = Some r'
                   /\ fam_id r' = fam_id r)
  /\ (is_open st = false -> step st line = st).
Proof.
  unfold record_line_id, step. intro Hn.
  destruct (tokenize line) as [t|]; [|repeat split; eauto].
  destruct (starts_record "FAM" t); [discriminate Hn|].
  destruct (is_open st); simpl; [|repeat split; eauto].
  destruct (level t =? 1).
  - destruct (current_record st) as [r|] eqn:Hr;
      [|repeat split; eauto; discriminate].
    simpl. repeat split; try discriminate.
    intros r0 E. injection E as <-. exists (level1 t r).
    split; [reflexivity|apply family_level1_id].
  - destruct (level t =? 2); [|repeat split; eauto; discriminate].
    destruct (current_record st) as [r|] eqn:Hr;
      [|repeat split; eauto; discriminate].
    simpl. repeat split; try discriminate.
    intros r0 E. injection E as <-. exists (level2 t r).
    split; [reflexivity|apply family_level2_id].
Qed.

Lemma family_step_start (st : locals) (line : string) (i : string) :
  record_line_id "FAM" "F" line = Some i ->
  step st line = mkLocals (commit st) (Some i) (Some (new_record i)).
Proof.
  unfold record_line_id, step.
  destruct (tokenize line) as [t|]; [|discriminate].
  destruct (starts_record "FAM" t); [|discriminate].
  intro E. injection E as <-. reflexivity.
Qed.

Lemma family_step_wf (st : locals) (line : string) :
  family_locals_wf st -> family_locals_wf (step st line).
Proof.
  intro Hwf. destruct (record_line_id "FAM" "F" line) as [i|] eqn:Hl.
  - rewrite (family_step_start st line i Hl). intros j Hj. simpl in *.
    injection Hj as <-. eauto.
  - destruct (family_step_inside st line Hl) as [_ [Hc [Hr _]]].
    intros j Hj. rewrite Hc in Hj.
    destruct (Hwf j Hj) as [r [Er Eid]].
    destruct (Hr r Er) as [r' [Er' Eid']]. exists r'. split; congruence.
Qed.

Lemma family_run_from_wf (lines : list string) (st : locals) :
  family_locals_wf st -> family_locals_wf (fold_left step lines st).
Proof.
  revert st. induction lines as [|l ls IH]; simpl; intros st H; [exact H|].
  apply IH, family_step_wf, H.
Qed.

Lemma family_commit_ids_match (st : locals) :
  family_locals_wf st -> family_ids_match (families st) ->
  family_ids_match (commit st).
Proof.
  intros Hwf Hm. unfold commit.
  destruct (current_family st) as [i|] eqn:Hi; [|exact Hm].
  destruct (Hwf i Hi) as [r [Hr Hid]]. rewrite Hr.
  destruct (PyStr.truthy i); [|exact Hm].
  apply set_forall; [exact Hid|exact Hm].
Qed.

Lemma family_step_ids_match (st : locals) (line : string) :
  family_locals_wf st -> family_ids_match (families st) ->
  family_ids_match (families (step st line)).
Proof.
  intros Hwf Hm. destruct (record_line_id "FAM" "F" line) as [i|] eqn:Hl.
  - rewrite (family_step_start st line i Hl). simpl.
    apply family_commit_ids_match; auto.
  - destruct (family_step_inside st line Hl) as [-> _]. exact Hm.
Qed.

Lemma family_run_from_ids_match (lines : list string) (st : locals) :
  family_locals_wf st -> family_ids_match (families st) ->
  family_ids_match (families (fold_left step lines st)).
Proof.
  revert st. induction lines as [|l ls IH]; simpl; intros st Hwf Hm;
    [exact Hm|].
  apply IH; [apply family_step_wf, Hwf|apply family_step_ids_match; assumption].
Qed.

Lemma family_extract_ids_match (fams : dict Family) (lines : list string) :
  family_ids_match fams -> family_ids_match (extract fams lines).
Proof.
  intro H. unfold extract, run. apply family_commit_ids_match.
  - apply family_run_from_wf, family_start_wf.
  - apply family_run_from_ids_match; [apply family_start_wf|exact H].
Qed.

Lemma family_commit_step_keys (st : locals) (line : string) (k : string) :
  family_locals_wf st ->
  In k (Dict.keys (commit (step st line)))
  <-> In k (Dict.keys (commit st)) \/ In k (started_ids "FAM" "F" [line]).
Proof.
  intro Hwf. unfold started_ids. simpl. rewrite app_nil_r.
  destruct (record_line_id "FAM" "F" line) as [i|] eqn:Hl.
  - rewrite (family_step_start st line i Hl). unfold commit at 1. simpl.
    destruct (PyStr.truthy i); simpl.
    + rewrite keys_set_in. intuition.
    + intuition.
  - destruct (family_step_inside st line Hl) as [Hi [Hc [Hr _]]].
    unfold commit. rewrite Hi, Hc.
    destruct (current_family st) as [i|] eqn:Ei; [|simpl; intuition].
    destruct (Hwf i Ei) as [r [Er _]].
    destruct (Hr r Er) as [r' [Er' _]]. rewrite Er, Er'.
    destruct (PyStr.truthy i); [|simpl; intuition].
    rewrite !keys_set_in. simpl. intuition.
Qed.

Lemma family_run_from_keys (lines : list string) (st : locals) (k : string) :
  family_locals_wf st ->
  In k (Dict.keys (commit (fold_left step lines st)))
  <-> In k (Dict.keys (commit st)) \/ In k (started_ids "FAM" "F" lines).
Proof.
  revert st. induction lines as [|l ls IH]; intros st Hwf.
  - simpl. intuition.
  - simpl fold_left. rewrite (IH (step st l) (family_step_wf st l Hwf)).
    rewrite (family_commit_step_keys st l k Hwf).
    rewrite (started_ids_cons "FAM" "F" l ls k). intuition.
Qed.

Lemma family_extract_keys (lines : list string) (k : string) :
  In k (Dict.keys (extract [] lines)) <-> In k (started_ids "FAM" "F" lines).
Proof.
  unfold extract, run.
  rewrite (family_run_from_keys lines (start []) k (family_start_wf [])).
  simpl. intuition.
Qed.

End FamilyPass.

(* ===================================================================== *)
(** ** The relationship pass *)
(* ===================================================================== *)

Section ResolveFacts.
Import Resolve.

Lemma fold_left_invariant {A B : Type} (P : A -> Prop) (f : A -> B -> A)
  (l : list B) (a : A) :
  (forall x b, P x -> P (f x b)) -> P a -> P (fold_left f l a).
Proof.
  intro Hf. revert a. induction l as [|b l IH]; simpl; intros a Ha;
    [exact Ha|].
  apply IH, Hf, Ha.
Qed.

Lemma parents_step_raw (families : dict Family) (i : Individual) (f : string) :
  same_raw_fields i (parents_step families i f).
Proof.
  unfold parents_step, same_raw_fields.
  destruct (Dict.get f families) as [fam|]; [|auto].
  destruct (PyStr.truthy (fam_husband fam)), (PyStr.truthy (fam_wife fam));
    simpl; auto.
Qed.

Lemma spouse_step_raw (families : dict Family) (k : string) (i : Individual)
  (f : string) :
  same_raw_fields i (spouse_step families k i f)
  /\ ind_parents (spouse_step families k i f) = ind_parents i.
Proof.
  unfold spouse_step, same_raw_fields.
  destruct (Dict.get f families) as [fam|]; [|auto].
  destruct (String.eqb (fam_husband fam) k && PyStr.truthy (fam_wife fam));
    [simpl; auto|].
  destruct (String.eqb (fam_wife fam) k && PyStr.truthy (fam_husband fam));
    simpl; auto.
Qed.

Lemma parents_loop (families : dict Family) (l : list string) (i : Individual) :
  same_raw_fields i (fold_left (parents_step families) l i)
  /\ ind_parents (fold_left (parents_step families) l i)
     = (ind_parents i ++ expected_parents families l)%list.
Proof.
  revert i. induction l as [|f l IH]; intro i; simpl.
  - unfold same_raw_fields. rewrite app_nil_r. auto.
  - destruct (IH (parents_step families i f)) as [[H1 [H2 H3]] H4].
    destruct (parents_step_raw families i f) as [G1 [G2 G3]].
    split; [unfold same_raw_fields; repeat split; congruence|].
    rewrite H4. unfold parents_step, if_nonempty.
    destruct (Dict.get f families) as [fam|]; [|reflexivity].
    destruct (PyStr.truthy (fam_husband fam)), (PyStr.truthy (fam_wife fam));
      simpl; rewrite <- ?app_assoc; reflexivity.
Qed.

Lemma spouse_loop (families : dict Family) (k : string) (l : list string)
  (i : Individual) :
  same_raw_fields i (fold_left (spouse_step families k) l i)
  /\ ind_parents (fold_left (spouse_step families k) l i) = ind_parents i.
Proof.
  apply (fold_left_invariant
           (fun x => same_raw_fields i x /\ ind_parents x = ind_parents i)).
  - intros x f [[H1 [H2 H3]] H4].
    destruct (spouse_step_raw families k x f) as [[G1 [G2 G3]] G4].
    unfold same_raw_fields. repeat split; congruence.
  - unfold same_raw_fields. auto.
Qed.

Lemma expected_parents_nonempty (families : dict Family) (l : list string) :
  filter PyStr.truthy (expected_parents families l)
  = expected_parents families l.
Proof.
  apply forallb_filter_id. apply forallb_forall. intros x Hx.
  unfold expected_parents in Hx. apply in_flat_map in Hx.
  destruct Hx as [f [_ Hx]].
  destruct (Dict.get f families) as [fam|]; [|destruct Hx].
  unfold if_nonempty in Hx. apply in_app_iff in Hx.
  destruct Hx as [Hx|Hx];
    [destruct (PyStr.truthy (fam_husband fam)) eqn:E
    |destruct (PyStr.truthy (fam_wife fam)) eqn:E];
    simpl in Hx; try tauto; destruct Hx as [<-|[]]; exact E.
Qed.

(** What the two loops make of one record. *)
Lemma link_clean (families : dict Family) (k : string) (i : Individual) :
  let j := clean (link families k i) in
  same_raw_fields i j
  /\ ind_parents j = expected_parents families (ind_families_as_child i).
Proof.
  unfold link. cbv zeta.
  set (i0 := set_children [] (set_spouse [] (set_parents [] i))).
  change (ind_families_as_child i) with (ind_families_as_child i0).
  set (i1 := fold_left (parents_step families) (ind_families_as_child i0) i0).
  destruct (parents_loop families (ind_families_as_child i0) i0)
    as [[P1 [P2 P3]] P4]. fold i1 in P1, P2, P3, P4.
  destruct (spouse_loop families k (ind_families_as_spouse i1) i1)
    as [[S1 [S2 S3]] S4].
  set (i2 := fold_left (spouse_step families k) (ind_families_as_spouse i1) i1)
    in *.
  unfold same_raw_fields, clean. simpl.
  change (ind_id i) with (ind_id i0).
  change (ind_families_as_spouse i) with (ind_families_as_spouse i0).
  change (ind_families_as_child i) with (ind_families_as_child i0).
  repeat split; try congruence.
  rewrite S4, P4. simpl. apply expected_parents_nonempty.
Qed.

Lemma resolve_entries (individuals : dict Individual) (families : dict Family) :
  resolve individuals families
  = map (fun kv => (fst kv, clean (link families (fst kv) (snd kv))))
      individuals.
Proof. unfold resolve. rewrite map_map. reflexivity. Qed.

Lemma resolve_keys (individuals : dict Individual) (families : dict Family) :
  Dict.keys (resolve individuals families) = Dict.keys individuals.
Proof.
  rewrite resolve_entries. unfold Dict.keys. rewrite map_map.
  reflexivity.
Qed.

Lemma resolve_ids (individuals : dict Individual) (families : dict Family) :
  map ind_id (Dict.values (resolve individuals families))
  = map ind_id (Dict.values individuals).
Proof.
  rewrite resolve_entries. unfold Dict.values. rewrite !map_map.
  apply map_ext. intros [k i]. cbn [fst snd].
  apply (link_clean families k i).
Qed.

Lemma resolve_ids_match (individuals : dict Individual)
  (families : dict Family) :
  individual_ids_match individuals ->
  individual_ids_match (resolve individuals families).
Proof.
  unfold individual_ids_match. rewrite resolve_entries.
  induction 1 as [|[k i] d Hk Hd IH]; cbn [map]; constructor; [|exact IH].
  cbn [fst snd] in *. destruct (link_clean families k i) as [[H _] _].
  congruence.
Qed.

End ResolveFacts.

(* ===================================================================== *)
(** ** [parse] *)
(* ===================================================================== *)

Section ParseFacts.
Import GEDCOMParser.

Lemma parse_with_returned (now : string)
  (read_file extract_individuals extract_families resolve_relationships
     : method unit) (self self' : t) :
  pipeline read_file extract_individuals extract_families
    resolve_relationships self = Returned tt self' ->
  parse_with now read_file extract_individuals extract_families
    resolve_relationships self
  = Returned (result now self') self'.
Proof.
  intro H. unfold parse_with, bind, try_except, ret, get_self.
  rewrite H. reflexivity.
Qed.

Lemma parse_with_raised (now : string)
  (read_file extract_individuals extract_families resolve_relationships
     : method unit) (self self' : t) (e : exn) :
  pipeline read_file extract_individuals extract_families
    resolve_relationships self = Raised e self' ->
  parse_with now read_file extract_individuals extract_families
    resolve_relationships self
  = Returned (fallback now e) self'.
Proof.
  intro H. unfold parse_with, bind, try_except, ret, get_self.
  rewrite H. reflexivity.
Qed.

(** The value of [parse] on a new parser object. *)
Lemma parse_file_value (w : World) (gedcom_file : string) :
  let lines := parsed_lines w gedcom_file in
  let families := ExtractFamilies.extract [] lines in
  let individuals :=
    Resolve.resolve (ExtractIndividuals.extract [] lines) families in
  parse_file w gedcom_file
  = Some (mkResult individuals families
            (mkSummary (Dict.len individuals) (Dict.len families) (now w)
               None)).
Proof.
  unfold parse_file, parse, parse_with, pipeline, _read_file,
    _extract_individuals, _extract_families, _resolve_relationships,
    parsed_lines, init, bind, try_except, ret, raise, get_self, set_lines,
    set_individuals, set_families, result.
  cbn [GEDCOMParser.gedcom_file GEDCOMParser.individuals
         GEDCOMParser.families GEDCOMParser.lines].
  destruct (readlines w gedcom_file) as [e|raw]; reflexivity.
Qed.

End ParseFacts.

(** C6. [parse] always returns: whatever the four stages do, the control
    flow of [parse] ends in a returned dictionary. When reading the file
    raises, [parse] on a new parser object returns empty maps, totals of
    zero and no [error] key. When the statements of the [try] block raise
    an exception [e] that none of the inner handlers catches, [parse]
    returns empty maps and a summary whose [error] is [str(e)]. *)
Theorem parse_never_raises :
  (forall now read_file extract_individuals extract_families
          resolve_relationships self,
      exists r self',
        GEDCOMParser.parse_with now read_file extract_individuals
          extract_families resolve_relationships self
        = GEDCOMParser.Returned r self')
  /\ (forall w gedcom_file e,
        GEDCOMParser.readlines w gedcom_file = inl e ->
        parsed_lines w gedcom_file = []
        /\ GEDCOMParser.parse_file w gedcom_file
           = Some (mkResult [] []
                     (mkSummary 0 0 (GEDCOMParser.now w) None)))
  /\ (forall now read_file extract_individuals extract_families
             resolve_relationships self e self',
        GEDCOMParser.pipeline read_file extract_individuals extract_families
          resolve_relationships self = GEDCOMParser.Raised e self' ->
        exists r,
          GEDCOMParser.parse_with now read_file extract_individuals
            extract_families resolve_relationships self
          = GEDCOMParser.Returned r self'
          /\ individuals r = [] /\ families r = []
          /\ total_individuals (summary r) = 0
          /\ total_families (summary r) = 0
          /\ error (summary r) = Some (str_exn e)).
Proof.
  split; [|split].
  - intros now rf ei ef rr self.
    destruct (GEDCOMParser.pipeline rf ei ef rr self) as [[] self'|e self']
      eqn:H.
    + eexists. eexists. apply parse_with_returned, H.
    + eexists. eexists. apply parse_with_raised, H.
  - intros w file e H. split.
    + unfold parsed_lines. rewrite H. reflexivity.
    + rewrite parse_file_value. unfold parsed_lines. rewrite H. reflexivity.
  - intros now rf ei ef rr self e self' H.
    exists (GEDCOMParser.fallback now e).
    split; [apply parse_with_raised, H|]. repeat split.
Qed.

Lemma parse_never_raises_witness :
  GEDCOMParser.parse_file
    (GEDCOMParser.mkWorld (fun _ => inl (Exception "No such file")) "now")
    "missing.ged"
  = Some (mkResult [] [] (mkSummary 0 0 "now" None))
  /\ exists r,
       GEDCOMParser.parse_with "now" (GEDCOMParser.ret tt)
         (GEDCOMParser.ret tt) (GEDCOMParser.raise (Exception "boom"))
         (GEDCOMParser.ret tt) (GEDCOMParser.init "f.ged")
       = GEDCOMParser.Returned r (GEDCOMParser.init "f.ged")
       /\ individuals r = [] /\ families r = []
       /\ total_individuals (summary r) = 0
       /\ total_families (summary r) = 0
       /\ error (summary r) = Some "boom".
Proof.
  split.
  - apply (proj1 (proj2 parse_never_raises)
             (GEDCOMParser.mkWorld (fun _ => inl (Exception "No such file"))
                "now")
             "missing.ged" (Exception "No such file")).
    reflexivity.
  - apply (proj2 (proj2 parse_never_raises) "now" (GEDCOMParser.ret tt)
             (GEDCOMParser.ret tt) (GEDCOMParser.raise (Exception "boom"))
             (GEDCOMParser.ret tt) (GEDCOMParser.init "f.ged")
             (Exception "boom") (GEDCOMParser.init "f.ged")).
    reflexivity.
Defined.

(* ===================================================================== *)
(** ** The entries of the individuals map *)
(* ===================================================================== *)

Section DictLookup.
Context {V : Type}.

Lemma get_some_in (k : string) (v : V) (d : dict V) :
  Dict.get k d = Some v -> In (k, v) d.
Proof.
  induction d as [|[k0 v0] d IH]; simpl; [discriminate|].
  destruct (String.eqb_spec k k0) as [->|_].
  - intro E. injection E as ->. left. reflexivity.
  - intro E. right. apply IH, E.
Qed.

Lemma in_keys_get (k : string) (d : dict V) :
  In k (Dict.keys d) -> exists v, Dict.get k d = Some v.
Proof.
  intro H. apply get_in_keys in H.
  destruct (Dict.get k d) as [v|]; [eauto|congruence].
Qed.

End DictLookup.

(** C2, as stated, fails. The line [0 @I@ INDI] has the three fields [0],
    [@I@], [INDI], and [parse] returns no individual for it: the id left
    after removing [@] and [I] is empty. Two lines [0 @I1@ INDI] give one
    entry, that of the second line, not one entry each. *)
Lemma indi_line_without_entry_of_its_own :
  let w1 := GEDCOMParser.mkWorld
              (fun _ => inr ["0 @I@ INDI"; "1 NAME Nobody"]) "now" in
  let w2 := GEDCOMParser.mkWorld
              (fun _ => inr ["0 @I1@ INDI"; "1 NAME A";
                             "0 @I1@ INDI"; "1 NAME B"]) "now" in
  whitespace_fields 2 "0 @I@ INDI" = ["0"; "@I@"; "INDI"]
  /\ record_line_id "INDI" "I" "0 @I@ INDI" = Some ""
  /\ option_map individuals (GEDCOMParser.parse_file w1 "f.ged") = Some []
  /\ option_map individuals (GEDCOMParser.parse_file w2 "f.ged")
     = Some [("1", set_name "B" (ExtractIndividuals.new_record "1"))].
Proof. repeat split. Qed.

(** C2, amended. For the lines that [parse] works on: every line that
    tokenizes to level 0 with the value [INDI] (the rest of the line after
    its first two space-separated fields), and whose second field is not
    empty once [@] and [I] are removed, has an entry in the individuals map
    under that id, with that id stored in it; the map has one entry per
    key (lines with the same id share it) and no entry that does not come
    from such a line. *)
Theorem individuals_keyed_by_stripped_ids :
  forall w gedcom_file,
  exists r,
    GEDCOMParser.parse_file w gedcom_file = Some r
    /\ NoDup (Dict.keys (individuals r))
    /\ (forall line k,
          In line (parsed_lines w gedcom_file) ->
          record_line_id "INDI" "I" line = Some k -> k <> "" ->
          exists person,
            Dict.get k (individuals r) = Some person /\ ind_id person = k)
    /\ (forall k,
          In k (Dict.keys (individuals r)) ->
          k <> ""
          /\ exists line, In line (parsed_lines w gedcom_file)
                          /\ record_line_id "INDI" "I" line = Some k).
Proof.
  intros w file. eexists. split; [apply parse_file_value|].
  cbn [individuals].
  set (lines := parsed_lines w file).
  set (fams := ExtractFamilies.extract [] lines).
  destruct (extract_keys lines) as [Hnd Hkeys].
  split; [|split].
  - rewrite resolve_keys. exact Hnd.
  - intros line k Hin Hl Hne.
    assert (Hk : In k (Dict.keys (Resolve.resolve
                                    (ExtractIndividuals.extract [] lines) fams))).
    { rewrite resolve_keys. apply Hkeys. apply in_started_ids. eauto. }
    destruct (in_keys_get k _ Hk) as [person Hp]. exists person.
    split; [exact Hp|].
    pose proof (resolve_ids_match _ fams
                  (extract_ids_match [] lines (Forall_nil _))) as Hm.
    unfold individual_ids_match in Hm. rewrite Forall_forall in Hm.
    apply (Hm (k, person)), get_some_in, Hp.
  - intros k Hk. rewrite resolve_keys in Hk. apply Hkeys in Hk.
    apply in_started_ids in Hk. exact Hk.
Qed.

Lemma individuals_keyed_by_stripped_ids_witness :
  exists r,
    GEDCOMParser.parse_file
      (GEDCOMParser.mkWorld (fun _ => inr ["0 @I12@ INDI"; "1 SEX F"]) "now")
      "f.ged" = Some r
    /\ (exists person,
          Dict.get "12" (individuals r) = Some person /\ ind_id person = "12")
    /\ (In "12" (Dict.keys (individuals r)) -> "12" <> "").
Proof.
  destruct (individuals_keyed_by_stripped_ids
              (GEDCOMParser.mkWorld (fun _ => inr ["0 @I12@ INDI"; "1 SEX F"])
                 "now") "f.ged") as [r [Hr [_ [H G]]]].
  exists r. split; [exact Hr|]. split.
  - apply (H "0 @I12@ INDI" "12").
    + left. reflexivity.
    + reflexivity.
    + discriminate.
  - intro Hin. apply (G "12" Hin).
Defined.

(* ===================================================================== *)
(** ** Records with an empty id *)
(* ===================================================================== *)

Section EmptyId.

Lemma record_line_id_start (kind : string) (c : ascii) (line : string)
  (t : Token) :
  tokenize line = Some t -> starts_record kind t = true ->
  record_line_id kind c line = Some (record_id c (tag t)).
Proof. intros Ht Hs. unfold record_line_id. rewrite Ht, Hs. reflexivity. Qed.

(** The individual pass after the start of a record with an empty id. *)
Lemma individual_closed (inds : dict Individual) (r : Individual)
  (sec : option section_name) :
  let st1 := ExtractIndividuals.mkLocals inds (Some "") (Some r) sec in
  ExtractIndividuals.commit st1 = inds
  /\ (forall ls,
        Forall (fun l => record_line_id "INDI" "I" l = None) ls ->
        fold_left ExtractIndividuals.step ls st1 = st1)
  /\ (forall l, ExtractIndividuals.individuals (ExtractIndividuals.step st1 l)
                = inds).
Proof.
  intro st1. split; [reflexivity|split].
  - induction 1 as [|l ls Hl _ IH]; simpl; [reflexivity|].
    destruct (step_inside st1 l Hl) as [_ [_ [_ Hskip]]].
    rewrite (Hskip eq_refl). exact IH.
  - intro l. destruct (record_line_id "INDI" "I" l) as [i|] eqn:Hl.
    + rewrite (step_start st1 l i Hl). reflexivity.
    + destruct (step_inside st1 l Hl) as [-> _]. reflexivity.
Qed.

(** The family pass after the start of a record with an empty id. *)
Lemma family_closed (fams : dict Family) (r : Family) :
  let st1 := ExtractFamilies.mkLocals fams (Some "") (Some r) in
  ExtractFamilies.commit st1 = fams
  /\ (forall ls,
        Forall (fun l => record_line_id "FAM" "F" l = None) ls ->
        fold_left ExtractFamilies.step ls st1 = st1)
  /\ (forall l, ExtractFamilies.families (ExtractFamilies.step st1 l) = fams).
Proof.
  intro st1. split; [reflexivity|split].
  - induction 1 as [|l ls Hl _ IH]; simpl; [reflexivity|].
    destruct (family_step_inside st1 l Hl) as [_ [_ [_ Hskip]]].
    rewrite (Hskip eq_refl). exact IH.
  - intro l. destruct (record_line_id "FAM" "F" l) as [i|] eqn:Hl.
    + rewrite (family_step_start st1 l i Hl). reflexivity.
    + destruct (family_step_inside st1 l Hl) as [-> _]. reflexivity.
Qed.

Lemma started_ids_nonempty (kind : string) (c : ascii) (lines : list string) :
  ~ In "" (started_ids kind c lines).
Proof. intro H. apply in_started_ids in H. destruct H as [H _]. auto. Qed.

End EmptyId.

(** C8. A level-0 INDI line whose tag is made of [@] and [I] only starts a
    record with the empty id: the step commits the record before it and
    nothing else; from then on the lines that do not start an INDI record
    leave the locals unchanged, the next record start does not add the
    record to the map, and neither does the end of the lines. The same
    holds for a level-0 FAM line whose tag is made of [@] and [F] only.
    The maps extracted from any lines have no entry under the empty id. *)
Theorem empty_id_record_never_committed :
  (forall st line t,
      tokenize line = Some t -> starts_record "INDI" t = true ->
      only_chars "@" "I" (tag t) = true ->
      let st1 := ExtractIndividuals.step st line in
      ExtractIndividuals.current_individual st1 = Some ""
      /\ ExtractIndividuals.individuals st1 = ExtractIndividuals.commit st
      /\ ExtractIndividuals.commit st1 = ExtractIndividuals.individuals st1
      /\ (forall ls,
            Forall (fun l => record_line_id "INDI" "I" l = None) ls ->
            fold_left ExtractIndividuals.step ls st1 = st1)
      /\ (forall l,
            ExtractIndividuals.individuals (ExtractIndividuals.step st1 l)
            = ExtractIndividuals.individuals st1))
  /\ (forall st line t,
        tokenize line = Some t -> starts_record "FAM" t = true ->
        only_chars "@" "F" (tag t) = true ->
        let st1 := ExtractFamilies.step st line in
        ExtractFamilies.current_family st1 = Some ""
        /\ ExtractFamilies.families st1 = ExtractFamilies.commit st
        /\ ExtractFamilies.commit st1 = ExtractFamilies.families st1
        /\ (forall ls,
              Forall (fun l => record_line_id "FAM" "F" l = None) ls ->
              fold_left ExtractFamilies.step ls st1 = st1)
        /\ (forall l,
              ExtractFamilies.families (ExtractFamilies.step st1 l)
              = ExtractFamilies.families st1))
  /\ (forall lines,
        ~ In "" (Dict.keys (ExtractIndividuals.extract [] lines))
        /\ ~ In "" (Dict.keys (ExtractFamilies.extract [] lines))).
Proof.
  split; [|split].
  - intros st line t Ht Hs Ho st1.
    pose proof (record_line_id_start "INDI" "I" line t Ht Hs) as Hl.
    rewrite (record_id_only "I" (tag t) Ho) in Hl.
    unfold st1. rewrite (step_start st line "" Hl).
    destruct (individual_closed (ExtractIndividuals.commit st)
                (ExtractIndividuals.new_record "") None) as [H1 [H2 H3]].
    repeat split; assumption.
  - intros st line t Ht Hs Ho st1.
    pose proof (record_line_id_start "FAM" "F" line t Ht Hs) as Hl.
    rewrite (record_id_only "F" (tag t) Ho) in Hl.
    unfold st1. rewrite (family_step_start st line "" Hl).
    destruct (family_closed (ExtractFamilies.commit st)
                (ExtractFamilies.new_record "")) as [H1 [H2 H3]].
    repeat split; assumption.
  - intro lines. split; intro H.
    + apply (proj2 (extract_keys lines)) in H.
      exact (started_ids_nonempty _ _ _ H).
    + apply family_extract_keys in H.
      exact (started_ids_nonempty _ _ _ H).
Qed.

Lemma empty_id_record_never_committed_witness :
  fold_left ExtractIndividuals.step ["1 NAME Nobody"; "1 BIRT"; "2 DATE x"]
    (ExtractIndividuals.step (ExtractIndividuals.start []) "0 @I@ INDI")
  = ExtractIndividuals.step (ExtractIndividuals.start []) "0 @I@ INDI"
  /\ ExtractFamilies.commit
       (ExtractFamilies.step (ExtractFamilies.start []) "0 @F@ FAM")
     = ExtractFamilies.families
         (ExtractFamilies.step (ExtractFamilies.start []) "0 @F@ FAM").
Proof.
  split.
  - apply (proj1 empty_id_record_never_committed
             (ExtractIndividuals.start []) "0 @I@ INDI"
             (mkToken ["0"; "@I@"; "INDI"] 0 "@I@" "INDI")
             eq_refl eq_refl eq_refl).
    repeat constructor.
  - apply (proj1 (proj2 empty_id_record_never_committed)
             (ExtractFamilies.start []) "0 @F@ FAM"
             (mkToken ["0"; "@F@"; "FAM"] 0 "@F@" "FAM")
             eq_refl eq_refl eq_refl).
Defined.

(* ===================================================================== *)
(** ** Stored ids and resolved parents *)
(* ===================================================================== *)

(** C9. In the dictionary returned by [parse], the [id] stored in every
    entry of the individuals map and of the families map is the key of the
    entry; and the relationship pass keeps the keys of the individuals map,
    in order, and the [id] of every record, and leaves the families map as
    it is. *)
Theorem stored_id_is_key :
  (forall w gedcom_file,
      exists r,
        GEDCOMParser.parse_file w gedcom_file = Some r
        /\ individual_ids_match (individuals r)
        /\ family_ids_match (families r))
  /\ (forall inds fams,
        Dict.keys (Resolve.resolve inds fams) = Dict.keys inds
        /\ map ind_id (Dict.values (Resolve.resolve inds fams))
           = map ind_id (Dict.values inds)
        /\ (individual_ids_match inds ->
            individual_ids_match (Resolve.resolve inds fams)))
  /\ (forall self,
        exists self',
          GEDCOMParser._resolve_relationships self
          = GEDCOMParser.Returned tt self'
          /\ GEDCOMParser.families self' = GEDCOMParser.families self
          /\ Dict.keys (GEDCOMParser.individuals self')
             = Dict.keys (GEDCOMParser.individuals self)
          /\ map ind_id (Dict.values (GEDCOMParser.individuals self'))
             = map ind_id (Dict.values (GEDCOMParser.individuals self))).
Proof.
  split; [|split].
  - intros w file. eexists. split; [apply parse_file_value|].
    cbn [individuals families]. split.
    + apply resolve_ids_match, extract_ids_match. constructor.
    + apply family_extract_ids_match. constructor.
  - intros inds fams. split; [apply resolve_keys|].
    split; [apply resolve_ids|apply resolve_ids_match].
  - intro self. eexists. split; [reflexivity|].
    cbn [GEDCOMParser.families GEDCOMParser.individuals].
    split; [reflexivity|]. split; [apply resolve_keys|apply resolve_ids].
Qed.

Lemma stored_id_is_key_witness :
  individual_ids_match
    (Resolve.resolve [("7", ExtractIndividuals.new_record "7")] []).
Proof.
  apply (proj2 (proj2 (proj1 (proj2 stored_id_is_key)
                         [("7", ExtractIndividuals.new_record "7")] []))).
  repeat constructor.
Defined.

(** C4. After the relationship pass, the [parents] list of every
    individual is the concatenation, over its [families_as_child] list in
    order, of the husband and then the wife of the family (each when it is
    not empty) for an id that is a key of the families map, and of nothing
    for an id that is not; the pass leaves [families_as_child] as it was.
    This holds for the dictionary returned by [parse]; with a family [F1]
    of husband [I1], wife [I2] and child [I3], and [I3] a child of [F1], the
    parents of [I3] are [1], [2]. *)
Theorem parents_from_families_as_child :
  (forall inds fams,
      Forall (fun kv =>
                ind_parents (snd kv)
                = expected_parents fams (ind_families_as_child (snd kv)))
        (Resolve.resolve inds fams)
      /\ map ind_families_as_child (Dict.values (Resolve.resolve inds fams))
         = map ind_families_as_child (Dict.values inds))
  /\ (forall w gedcom_file,
        exists r,
          GEDCOMParser.parse_file w gedcom_file = Some r
          /\ Forall (fun kv =>
                       ind_parents (snd kv)
                       = expected_parents (families r)
                           (ind_families_as_child (snd kv)))
               (individuals r))
  /\ (forall fams fam_id fam_ids,
        Dict.get fam_id fams = None ->
        expected_parents fams (fam_id :: fam_ids)
        = expected_parents fams fam_ids)
  /\ option_map
       (fun r => map (fun kv => (fst kv, ind_parents (snd kv))) (individuals r))
       (GEDCOMParser.parse_file
          (GEDCOMParser.mkWorld
             (fun _ => inr ["0 @I3@ INDI"; "1 FAMC @F1@"; "1 FAMC @F9@";
                            "0 @F1@ FAM"; "1 HUSB @I1@"; "1 WIFE @I2@";
                            "1 CHIL @I3@"]) "now") "f.ged")
     = Some [("3", ["1"; "2"])].
Proof.
  assert (H : forall inds fams,
             Forall (fun kv =>
                       ind_parents (snd kv)
                       = expected_parents fams
                           (ind_families_as_child (snd kv)))
               (Resolve.resolve inds fams)).
  { intros inds fams. rewrite resolve_entries. apply Forall_forall.
    intros kv Hin. apply in_map_iff in Hin.
    destruct Hin as [[k i] [<- _]]. cbn [fst snd].
    destruct (link_clean fams k i) as [[_ [Hc _]] Hp].
    rewrite Hc. exact Hp. }
  split; [|split; [|split]].
  - intros inds fams. split; [apply H|].
    rewrite resolve_entries. unfold Dict.values. rewrite !map_map.
    apply map_ext. intros [k i]. cbn [fst snd].
    apply (link_clean fams k i).
  - intros w file. eexists. split; [apply parse_file_value|].
    cbn [individuals families]. apply H.
  - intros fams fam_id fam_ids Hg. unfold expected_parents. simpl.
    rewrite Hg. reflexivity.
  - reflexivity.
Qed.

Lemma parents_from_families_as_child_witness :
  expected_parents [("1", mkFamily "1" empty_event "1" "2" ["3"] [] false)]
    ["9"; "1"]
  = ["1"; "2"].
Proof.
  rewrite (proj1 (proj2 (proj2 parents_from_families_as_child))
             [("1", mkFamily "1" empty_event "1" "2" ["3"] [] false)] "9"
             ["1"] eq_refl).
  reflexivity.
Defined.

(* ===================================================================== *)
(** ** Statistics *)
(* ===================================================================== *)

Section Statistics.
Import GenealogyQueryEngine.

Lemma living_test (person : Individual) :
  negb (PyStr.truthy (get_or_empty (date (ind_death person))))
  = no_death_date person.
Proof.
  unfold no_death_date, get_or_empty.
  destruct (date (ind_death person)) as [[|c d]|]; reflexivity.
Qed.

Lemma living_people_step (stats : Statistics) (person : Individual) :
  living_people (stats_step stats person)
  = living_people stats + (if no_death_date person then 1 else 0).
Proof.
  unfold stats_step. cbn [living_people]. rewrite living_test.
  destruct (no_death_date person); lia.
Qed.

Lemma living_people_loop (people : list Individual) (stats : Statistics) :
  living_people (fold_left stats_step people stats)
  = living_people stats
    + Z.of_nat (List.length (filter no_death_date people)).
Proof.
  revert stats. induction people as [|p l IH]; intro stats.
  - simpl. lia.
  - cbn [fold_left filter]. rewrite IH, living_people_step.
    destruct (no_death_date p); cbn [List.length]; lia.
Qed.

End Statistics.

(** C7. [living_people] of [get_statistics] is the number of individuals
    whose [death] dictionary has no [date] key or an empty [date]. *)
Theorem living_people_counts_missing_death_dates :
  forall self,
    GenealogyQueryEngine.living_people
      (GenealogyQueryEngine.get_statistics self)
    = Z.of_nat
        (List.length
           (filter no_death_date
              (Dict.values (GenealogyQueryEngine.individuals self)))).
Proof.
  intro self. unfold GenealogyQueryEngine.get_statistics.
  rewrite living_people_loop. reflexivity.
Qed.

(* ===================================================================== *)
(** ** Searches *)
(* ===================================================================== *)

Section Substrings.

Lemma append_assoc (a b c : string) : ((a ++ b) ++ c = a ++ (b ++ c))%string.
Proof. induction a as [|x a IH]; simpl; [reflexivity|]. rewrite IH. reflexivity. Qed.

Lemma prefix_iff (q s : string) :
  String.prefix q s = true <-> exists b, s = (q ++ b)%string.
Proof.
  revert s. induction q as [|x q IH]; intro s.
  - destruct s; simpl; split; eauto.
  - destruct s as [|y s]; simpl.
    + split; [discriminate|]. intros [b Hb]. discriminate Hb.
    + destruct (ascii_dec x y) as [->|Hne].
      * rewrite IH. split; intros [b Hb]; exists b; congruence.
      * split; [discriminate|]. intros [b Hb]. congruence.
Qed.

(** [q in s] holds exactly when [s] is some [a ++ q ++ b]. *)
Lemma contains_iff (q s : string) :
  PyStr.contains q s = true <-> exists a b, s = (a ++ q ++ b)%string.
Proof.
  induction s as [|y s IH].
  - cbn [PyStr.contains]. rewrite orb_false_r, prefix_iff. split.
    + intros [b Hb]. exists "", b. exact Hb.
    + intros [a [b Hab]]. destruct a; [eauto|discriminate Hab].
  - cbn [PyStr.contains]. rewrite orb_true_iff, prefix_iff, IH. split.
    + intros [[b Hb]|[a [b Hab]]].
      * exists "", b. exact Hb.
      * exists (String y a), b. simpl. rewrite Hab. reflexivity.
    + intros [[|x a] [b Hab]].
      * left. exists b. exact Hab.
      * right. exists a, b. simpl in Hab. congruence.
Qed.

Lemma contains_trans (q1 q2 s : string) :
  PyStr.contains q1 q2 = true -> PyStr.contains q2 s = true ->
  PyStr.contains q1 s = true.
Proof.
  rewrite !contains_iff. intros [a [b ->]] [c [d ->]].
  exists (c ++ a)%string, (b ++ d)%string. rewrite !append_assoc. reflexivity.
Qed.

Lemma contains_empty (s : string) : PyStr.contains "" s = true.
Proof. apply contains_iff. exists "", s. reflexivity. Qed.

(** A loop that appends the elements passing a test is a filter. *)
Lemma append_loop_filter {A : Type} (f : A -> bool) (l acc : list A) :
  fold_left (fun results x => if f x then (results ++ [x])%list else results)
    l acc
  = (acc ++ filter f l)%list.
Proof.
  revert acc. induction l as [|x l IH]; intro acc; simpl.
  - rewrite app_nil_r. reflexivity.
  - rewrite IH. destruct (f x); [|reflexivity].
    rewrite <- app_assoc. reflexivity.
Qed.

Lemma filter_all {A : Type} (f : A -> bool) (l : list A) :
  (forall x, f x = true) -> filter f l = l.
Proof.
  intro H. induction l as [|x l IH]; simpl; [reflexivity|].
  rewrite H, IH. reflexivity.
Qed.

Lemma filter_refines {A : Type} (f g : A -> bool) (l : list A) :
  (forall x, g x = true -> f x = true) -> filter g (filter f l) = filter g l.
Proof.
  intro H. induction l as [|x l IH]; simpl; [reflexivity|].
  destruct (f x) eqn:Ef; simpl.
  - rewrite IH. reflexivity.
  - destruct (g x) eqn:Eg; [|exact IH].
    rewrite (H x Eg) in Ef. discriminate Ef.
Qed.

Lemma find_person_filter (self : GenealogyQueryEngine.t) (q : string) :
  GenealogyQueryEngine.find_person self q
  = filter (name_matches (PyStr.lower q))
      (Dict.values (GenealogyQueryEngine.individuals self)).
Proof.
  unfold GenealogyQueryEngine.find_person.
  apply (append_loop_filter (name_matches (PyStr.lower q))).
Qed.

Lemma search_by_location_filter (self : GenealogyQueryEngine.t) (q : string) :
  GenealogyQueryEngine.search_by_location self q
  = filter (place_matches (PyStr.lower q))
      (Dict.values (GenealogyQueryEngine.individuals self)).
Proof.
  unfold GenealogyQueryEngine.search_by_location.
  apply (append_loop_filter (place_matches (PyStr.lower q))).
Qed.

Lemma name_matches_antitone (q1 q2 : string) (person : Individual) :
  PyStr.contains q1 q2 = true ->
  name_matches q2 person = true -> name_matches q1 person = true.
Proof. unfold name_matches. apply contains_trans. Qed.

Lemma place_matches_antitone (q1 q2 : string) (person : Individual) :
  PyStr.contains q1 q2 = true ->
  place_matches q2 person = true -> place_matches q1 person = true.
Proof.
  unfold place_matches. intros H. rewrite !orb_true_iff.
  intros [G|G]; [left|right]; exact (contains_trans _ _ _ H G).
Qed.

End Substrings.

(** C10. When the lowercased [q1] occurs in the lowercased [q2], the
    individuals that [find_person] returns for [q2] are those it returns
    for [q1] that also match [q2], in the same order, so each of them is
    returned for [q1]; the same holds for [search_by_location]; and for the
    empty query both return all the individuals of the map, in its
    order. *)
Theorem searches_antitone_in_query :
  (forall self q1 q2,
      PyStr.contains (PyStr.lower q1) (PyStr.lower q2) = true ->
      GenealogyQueryEngine.find_person self q2
      = filter (name_matches (PyStr.lower q2))
          (GenealogyQueryEngine.find_person self q1)
      /\ (forall person,
            In person (GenealogyQueryEngine.find_person self q2) ->
            In person (GenealogyQueryEngine.find_person self q1))
      /\ GenealogyQueryEngine.search_by_location self q2
         = filter (place_matches (PyStr.lower q2))
             (GenealogyQueryEngine.search_by_location self q1)
      /\ (forall person,
            In person (GenealogyQueryEngine.search_by_location self q2) ->
            In person (GenealogyQueryEngine.search_by_location self q1)))
  /\ (forall self,
        GenealogyQueryEngine.find_person self ""
        = Dict.values (GenealogyQueryEngine.individuals self)
        /\ GenealogyQueryEngine.search_by_location self ""
           = Dict.values (GenealogyQueryEngine.individuals self)).
Proof.
  split.
  - intros self q1 q2 H.
    assert (Hf : GenealogyQueryEngine.find_person self q2
                 = filter (name_matches (PyStr.lower q2))
                     (GenealogyQueryEngine.find_person self q1)).
    { rewrite !find_person_filter. symmetry. apply filter_refines.
      intro x. apply name_matches_antitone, H. }
    assert (Hs : GenealogyQueryEngine.search_by_location self q2
                 = filter (place_matches (PyStr.lower q2))
                     (GenealogyQueryEngine.search_by_location self q1)).
    { rewrite !search_by_location_filter. symmetry. apply filter_refines.
      intro x. apply place_matches_antitone, H. }
    split; [exact Hf|]. split; [|split; [exact Hs|]].
    + intros p Hp. rewrite Hf in Hp. apply filter_In in Hp. apply Hp.
    + intros p Hp. rewrite Hs in Hp. apply filter_In in Hp. apply Hp.
  - intro self. rewrite find_person_filter, search_by_location_filter.
    split; apply filter_all; intro p.
    + apply contains_empty.
    + unfold place_matches. cbn [PyStr.lower]. rewrite contains_empty.
      reflexivity.
Qed.

Lemma searches_antitone_in_query_witness :
  let john := set_name "John SMITH" (ExtractIndividuals.new_record "1") in
  let self := GenealogyQueryEngine.init
                (mkResult [("1", john)] [] (mkSummary 1 0 "now" None)) in
  In john (GenealogyQueryEngine.find_person self "smi").
Proof.
  intros john self.
  apply (proj1 (proj2 (proj1 searches_antitone_in_query self "smi" "SMITH"
                         eq_refl))).
  left. reflexivity.
Defined.

(* ===================================================================== *)
(** ** Family trees *)
(* ===================================================================== *)

Section FamilyTree.
Import GenealogyQueryEngine.

(** With a parent and a child linked both ways, the call for the parent at
    generation 0 asks for the child at generation -1, which asks for the
    parent at generation 0 again: no depth of calls is enough. *)
Lemma parent_and_child_loop (self : t) (fuel : nat) :
  engine_for parent_and_child = Some self ->
  build_tree self fuel "1" 0 2 = None
  /\ build_tree self fuel "2" (-1) 2 = None.
Proof.
  intro H. vm_compute in H. injection H as <-.
  induction fuel as [|fuel [IH1 IH2]]; [split; reflexivity|].
  split.
  - cbn -[build_tree]. cbn [build_tree]. cbn -[build_tree].
    rewrite IH2. reflexivity.
  - cbn -[build_tree]. cbn [build_tree]. cbn -[build_tree].
    rewrite IH1. reflexivity.
Qed.

Lemma collect_forallb (P : Tree -> bool) (build : string -> option Tree)
  (ids : list string) (subs : list Tree) :
  (forall i sub, build i = Some sub -> tree_truthy sub = true ->
                 P sub = true) ->
  collect build ids = Some subs -> forallb P subs = true.
Proof.
  intro H. revert subs. induction ids as [|i ids IH]; simpl; intros subs E.
  - injection E as <-. reflexivity.
  - destruct (build i) as [sub|] eqn:Eb; [|discriminate E].
    destruct (collect build ids) as [rest|]; [|discriminate E].
    injection E as <-. specialize (IH rest eq_refl).
    destruct (tree_truthy sub) eqn:Et; [|exact IH].
    simpl. rewrite (H i sub Eb Et), IH. reflexivity.
Qed.

(** What [build_tree] does guarantee when it returns a node: the numbering
    of [numbered_from]. Every generation is below [max_gen], a parent is one
    above its child and a child one below its parent, and the nodes at
    [max_gen - 1] have no [parents] and [children] keys. Nothing bounds the
    generations from below. *)
Lemma build_tree_numbered (self : t) (fuel : nat) :
  forall pid gen max_gen tree,
    build_tree self fuel pid gen max_gen = Some tree ->
    tree_truthy tree = true ->
    numbered_from max_gen gen tree = true.
Proof.
  induction fuel as [|fuel IH]; intros pid gen max_gen tree; [discriminate|].
  cbn [build_tree].
  destruct ((gen >=? max_gen) || negb (Dict.mem pid (individuals self)))
    eqn:Hstop.
  - intro E. injection E as <-. discriminate.
  - apply orb_false_iff in Hstop. destruct Hstop as [Hge _].
    assert (Hlt : (gen <? max_gen) = true).
    { apply Z.ltb_lt. rewrite Z.geb_leb in Hge. apply Z.leb_gt in Hge. lia. }
    destruct (Dict.get pid (individuals self)) as [person|];
      [|intro E; injection E as <-; discriminate].
    destruct (gen <? max_gen - 1) eqn:Hexp.
    + destruct (collect _ (ind_parents person)) as [ps|] eqn:Eps;
        [|discriminate].
      destruct (collect _ (ind_children person)) as [cs|] eqn:Ecs;
        [|discriminate].
      intros E _. injection E as <-. cbn [numbered_from].
      rewrite Z.eqb_refl, Hlt, Hexp. cbn [andb].
      rewrite (collect_forallb _ _ _ _ (fun i sub => IH i (gen + 1) max_gen sub)
                 Eps).
      rewrite (collect_forallb _ _ _ _ (fun i sub => IH i (gen - 1) max_gen sub)
                 Ecs).
      reflexivity.
    + intros E _. injection E as <-. cbn [numbered_from].
      rewrite Z.eqb_refl, Hlt, Hexp. reflexivity.
Qed.

End FamilyTree.

(** C1, on the code. With three generations linked downwards,
    [get_family_tree("1", 2)] returns, for every depth of calls from 3 on,
    a tree whose nodes have the generations 0, -1 and -2: the node of
    generation -2 is not strictly inside the bound 2, and it carries both
    [parents] and [children] keys. With a parent and a child linked both
    ways, [get_family_tree("1", 2)] returns for no depth of calls. *)
Theorem family_tree_descends_past_the_bound :
  (exists self,
      engine_for descendants_only = Some self
      /\ forall fuel, (3 <= fuel)%nat ->
           GenealogyQueryEngine.get_family_tree self fuel "1" 2
           = Some (Node "1" "Grandparent" empty_event empty_event 0 (Some [])
                     (Some [Node "2" "Parent" empty_event empty_event (-1)
                              (Some [])
                              (Some [Node "3" "Child" empty_event empty_event
                                       (-2) (Some []) (Some [])])])))
  /\ (exists self,
        engine_for parent_and_child = Some self
        /\ forall fuel,
             GenealogyQueryEngine.get_family_tree self fuel "1" 2 = None).
Proof.
  split.
  - eexists. split; [vm_compute; reflexivity|].
    intros fuel Hf. destruct fuel as [|[|[|fuel]]]; try lia.
    vm_compute. reflexivity.
  - eexists. split; [vm_compute; reflexivity|].
    intro fuel.
    destruct (parent_and_child_loop _ fuel
                (eq_refl : engine_for parent_and_child = Some _)) as [H _].
    unfold GenealogyQueryEngine.get_family_tree.
    cbn -[GenealogyQueryEngine.build_tree].
    exact H.
Qed.

Lemma family_tree_descends_past_the_bound_witness :
  exists self tree,
    engine_for descendants_only = Some self
    /\ GenealogyQueryEngine.get_family_tree self 5 "1" 2 = Some tree
    /\ generations_of tree = [0; -1; -2].
Proof.
  destruct (proj1 family_tree_descends_past_the_bound) as [self [H1 H2]].
  exists self. eexists. split; [exact H1|].
  split; [apply (H2 5%nat); lia|reflexivity].
Defined.

(* ===================================================================== *)
(** ** Stripping and cleaning lines *)
(* ===================================================================== *)

Section Stripping.
Variable p : ascii -> bool.

Lemma lstrip_with_idem (s : string) :
  PyStr.lstrip_with p (PyStr.lstrip_with p s) = PyStr.lstrip_with p s.
Proof.
  induction s as [|c s IH]; simpl; [reflexivity|].
  destruct (p c) eqn:E; [exact IH|]. simpl. rewrite E. reflexivity.
Qed.

(** What [rstrip_with] returns on a non-empty string. *)
Lemma rstrip_with_cons (c : ascii) (s : string) :
  PyStr.rstrip_with p (String c s)
  = match PyStr.rstrip_with p s with
    | EmptyString => if p c then EmptyString else String c EmptyString
    | String d r => String c (String d r)
    end.
Proof. reflexivity. Qed.

Lemma rstrip_with_idem (s : string) :
  PyStr.rstrip_with p (PyStr.rstrip_with p s) = PyStr.rstrip_with p s.
Proof.
  induction s as [|c s IH]; [reflexivity|].
  rewrite rstrip_with_cons.
  destruct (PyStr.rstrip_with p s) as [|d r] eqn:E.
  - destruct (p c) eqn:Ec; [reflexivity|]. simpl. rewrite Ec. reflexivity.
  - rewrite rstrip_with_cons, IH. reflexivity.
Qed.

Lemma strip_with_sides_commute (s : string) :
  PyStr.rstrip_with p (PyStr.lstrip_with p s)
  = PyStr.lstrip_with p (PyStr.rstrip_with p s).
Proof.
  induction s as [|c s IH]; [reflexivity|].
  rewrite rstrip_with_cons. cbn [PyStr.lstrip_with].
  destruct (p c) eqn:Ec.
  - rewrite IH. destruct (PyStr.rstrip_with p s) as [|d r]; [reflexivity|].
    cbn [PyStr.lstrip_with]. rewrite Ec. reflexivity.
  - rewrite rstrip_with_cons.
    destruct (PyStr.rstrip_with p s) as [|d r]; cbn [PyStr.lstrip_with];
      rewrite Ec; reflexivity.
Qed.

Lemma strip_with_idem (s : string) :
  PyStr.strip_with p (PyStr.strip_with p s) = PyStr.strip_with p s.
Proof.
  unfold PyStr.strip_with.
  rewrite strip_with_sides_commute, rstrip_with_idem, lstrip_with_idem.
  reflexivity.
Qed.

End Stripping.

Section CleanLines.

Lemma tokenize_strip (line : string) :
  tokenize (PyStr.strip line) = tokenize line.
Proof.
  unfold tokenize, PyStr.strip. rewrite strip_with_idem. reflexivity.
Qed.

Lemma tokenize_blank (line : string) :
  PyStr.truthy (PyStr.strip line) = false -> tokenize line = None.
Proof. intro H. unfold tokenize. rewrite H. reflexivity. Qed.

Lemma individual_step_strip (st : ExtractIndividuals.locals) (line : string) :
  ExtractIndividuals.step st (PyStr.strip line)
  = ExtractIndividuals.step st line.
Proof. unfold ExtractIndividuals.step. rewrite tokenize_strip. reflexivity. Qed.

Lemma family_step_strip (st : ExtractFamilies.locals) (line : string) :
  ExtractFamilies.step st (PyStr.strip line) = ExtractFamilies.step st line.
Proof. unfold ExtractFamilies.step. rewrite tokenize_strip. reflexivity. Qed.

Lemma individual_run_clean (raw : list string)
  (st : ExtractIndividuals.locals) :
  fold_left ExtractIndividuals.step (GEDCOMParser.clean_lines raw) st
  = fold_left ExtractIndividuals.step raw st.
Proof.
  unfold GEDCOMParser.clean_lines. revert st.
  induction raw as [|l raw IH]; intro st; [reflexivity|].
  cbn [filter]. destruct (PyStr.truthy (PyStr.strip l)) eqn:E.
  - cbn [map fold_left]. rewrite individual_step_strip. apply IH.
  - cbn [fold_left].
    replace (ExtractIndividuals.step st l) with st; [apply IH|].
    unfold ExtractIndividuals.step. rewrite (tokenize_blank l E).
    reflexivity.
Qed.

Lemma family_run_clean (raw : list string) (st : ExtractFamilies.locals) :
  fold_left ExtractFamilies.step (GEDCOMParser.clean_lines raw) st
  = fold_left ExtractFamilies.step raw st.
Proof.
  unfold GEDCOMParser.clean_lines. revert st.
  induction raw as [|l raw IH]; intro st; [reflexivity|].
  cbn [filter]. destruct (PyStr.truthy (PyStr.strip l)) eqn:E.
  - cbn [map fold_left]. rewrite family_step_strip. apply IH.
  - cbn [fold_left].
    replace (ExtractFamilies.step st l) with st; [apply IH|].
    unfold ExtractFamilies.step. rewrite (tokenize_blank l E). reflexivity.
Qed.

Lemma clean_lines_stripped (raw : list string) :
  Forall (fun l => l <> "" /\ PyStr.strip l = l) (GEDCOMParser.clean_lines raw).
Proof.
  unfold GEDCOMParser.clean_lines.
  induction raw as [|l raw IH]; [constructor|].
  cbn [filter]. destruct (PyStr.truthy (PyStr.strip l)) eqn:E; [|exact IH].
  cbn [map]. constructor; [|exact IH]. split.
  - apply truthy_nonempty, E.
  - apply strip_with_idem.
Qed.

Lemma clean_lines_fixed (lines : list string) :
  Forall (fun l => l <> "" /\ PyStr.strip l = l) lines ->
  GEDCOMParser.clean_lines lines = lines.
Proof.
  unfold GEDCOMParser.clean_lines.
  induction 1 as [|l lines [Hne Hs] _ IH]; [reflexivity|].
  cbn [filter]. rewrite Hs. apply truthy_nonempty in Hne. rewrite Hne.
  cbn [map]. rewrite Hs, IH. reflexivity.
Qed.

End CleanLines.

(** X1. The lines kept by [_read_file] are not empty and have no
    whitespace at either end; cleaning cleaned lines changes nothing; and
    both extraction loops, which strip each line again and skip empty
    ones, give the same map on the raw lines of the file as on the cleaned
    ones. *)
Theorem cleaning_lines_is_idempotent_and_invisible :
  forall raw,
    Forall (fun l => l <> "" /\ PyStr.strip l = l)
      (GEDCOMParser.clean_lines raw)
    /\ GEDCOMParser.clean_lines (GEDCOMParser.clean_lines raw)
       = GEDCOMParser.clean_lines raw
    /\ (forall inds,
          ExtractIndividuals.extract inds (GEDCOMParser.clean_lines raw)
          = ExtractIndividuals.extract inds raw)
    /\ (forall fams,
          ExtractFamilies.extract fams (GEDCOMParser.clean_lines raw)
          = ExtractFamilies.extract fams raw).
Proof.
  intro raw. split; [apply clean_lines_stripped|].
  split; [apply clean_lines_fixed, clean_lines_stripped|]. split.
  - intro inds. unfold ExtractIndividuals.extract, ExtractIndividuals.run.
    rewrite individual_run_clean. reflexivity.
  - intro fams. unfold ExtractFamilies.extract, ExtractFamilies.run.
    rewrite family_run_clean. reflexivity.
Qed.

(* ===================================================================== *)
(** ** Lines that a pass passes over *)
(* ===================================================================== *)

Section PassedOver.

Lemma individual_step_passed_over (st : ExtractIndividuals.locals)
  (line : string) :
  passed_over "INDI" line = true -> ExtractIndividuals.step st line = st.
Proof.
  unfold passed_over, ExtractIndividuals.step.
  destruct (tokenize line) as [t|]; [|reflexivity].
  intro H. apply andb_true_iff in H. destruct H as [H H2].
  apply andb_true_iff in H. destruct H as [H0 H1].
  apply negb_true_iff in H0, H1, H2.
  rewrite H0, H1, H2, !andb_false_r. reflexivity.
Qed.

Lemma family_step_passed_over (st : ExtractFamilies.locals) (line : string) :
  passed_over "FAM" line = true -> ExtractFamilies.step st line = st.
Proof.
  unfold passed_over, ExtractFamilies.step.
  destruct (tokenize line) as [t|]; [|reflexivity].
  intro H. apply andb_true_iff in H. destruct H as [H H2].
  apply andb_true_iff in H. destruct H as [H0 H1].
  apply negb_true_iff in H0, H1, H2.
  rewrite H0, H1, H2, !andb_false_r. reflexivity.
Qed.

(** Dropping the lines on which a step does nothing does not change a
    loop. *)
Lemma fold_left_skip {A B : Type} (f : A -> B -> A) (skip : B -> bool)
  (l : list B) (a : A) :
  (forall x b, skip b = true -> f x b = x) ->
  fold_left f (filter (fun b => negb (skip b)) l) a = fold_left f l a.
Proof.
  intro H. revert a. induction l as [|b l IH]; intro a; [reflexivity|].
  cbn [filter]. destruct (skip b) eqn:E; cbn [negb fold_left].
  - rewrite (H a b E). apply IH.
  - apply IH.
Qed.

End PassedOver.

(** X2. A line that neither starts an INDI record nor has level 1 or 2 (a
    [HEAD] or [TRLR] line, the start of a FAM record, a line without a
    token) is invisible to the individual pass: the extracted map is the
    same with these lines removed, so such a line between two lines leaves
    the record above it open and the line after it is processed as a line
    of that record. The family pass does the same with the lines that do
    not start a FAM record. *)
Theorem level0_lines_do_not_close_records :
  (forall inds lines,
      ExtractIndividuals.extract inds
        (filter (fun l => negb (passed_over "INDI" l)) lines)
      = ExtractIndividuals.extract inds lines)
  /\ (forall fams lines,
        ExtractFamilies.extract fams
          (filter (fun l => negb (passed_over "FAM" l)) lines)
        = ExtractFamilies.extract fams lines)
  /\ (forall st line next,
        passed_over "INDI" line = true ->
        ExtractIndividuals.step (ExtractIndividuals.step st line) next
        = ExtractIndividuals.step st next)
  /\ (forall st line next,
        passed_over "FAM" line = true ->
        ExtractFamilies.step (ExtractFamilies.step st line) next
        = ExtractFamilies.step st next).
Proof.
  split; [|split; [|split]].
  - intros inds lines.
    unfold ExtractIndividuals.extract, ExtractIndividuals.run.
    rewrite (fold_left_skip ExtractIndividuals.step (passed_over "INDI"));
      [reflexivity|].
    intros st l. apply individual_step_passed_over.
  - intros fams lines. unfold ExtractFamilies.extract, ExtractFamilies.run.
    rewrite (fold_left_skip ExtractFamilies.step (passed_over "FAM"));
      [reflexivity|].
    intros st l. apply family_step_passed_over.
  - intros st line next H. rewrite (individual_step_passed_over st line H).
    reflexivity.
  - intros st line next H. rewrite (family_step_passed_over st line H).
    reflexivity.
Qed.

(** The marriage date and the note of a family that follows an individual
    end up in the record of that individual; the birth date of an
    individual that follows a family ends up as the marriage date of that
    family. *)
Lemma level0_lines_do_not_close_records_witness :
  ExtractIndividuals.step
    (ExtractIndividuals.step
       (ExtractIndividuals.run [] ["0 @I1@ INDI"; "1 BIRT"; "2 DATE 1900"])
       "0 @F1@ FAM")
    "2 DATE 1925"
  = ExtractIndividuals.run [] ["0 @I1@ INDI"; "1 BIRT"; "2 DATE 1925"]
  /\ ExtractFamilies.step
       (ExtractFamilies.step
          (ExtractFamilies.run [] ["0 @F1@ FAM"; "1 MARR"; "2 DATE 1925"])
          "0 @I1@ INDI")
       "2 DATE 1900"
     = ExtractFamilies.run [] ["0 @F1@ FAM"; "1 MARR"; "2 DATE 1900"].
Proof.
  split.
  - rewrite (proj1 (proj2 (proj2 level0_lines_do_not_close_records))
               _ "0 @F1@ FAM" "2 DATE 1925" eq_refl).
    reflexivity.
  - rewrite (proj2 (proj2 (proj2 level0_lines_do_not_close_records))
               _ "0 @I1@ INDI" "2 DATE 1900" eq_refl).
    reflexivity.
Defined.

(* ===================================================================== *)
(** ** Names and ids *)
(* ===================================================================== *)

Section Characters.

Lemma has_char_append (c : ascii) (a b : string) :
  PyStr.has_char c (a ++ b) = PyStr.has_char c a || PyStr.has_char c b.
Proof.
  induction a as [|d a IH]; simpl; [reflexivity|].
  rewrite IH, orb_assoc. reflexivity.
Qed.

Lemma has_char_lstrip (c : ascii) (p : ascii -> bool) (s : string) :
  PyStr.has_char c s = false ->
  PyStr.has_char c (PyStr.lstrip_with p s) = false.
Proof.
  induction s as [|d s IH]; simpl; intro H; [reflexivity|].
  apply orb_false_iff in H. destruct H as [Hd Hs].
  destruct (p d); [exact (IH Hs)|]. simpl. rewrite Hd, Hs. reflexivity.
Qed.

Lemma has_char_rstrip (c : ascii) (p : ascii -> bool) (s : string) :
  PyStr.has_char c s = false ->
  PyStr.has_char c (PyStr.rstrip_with p s) = false.
Proof.
  induction s as [|d s IH]; [reflexivity|].
  cbn [PyStr.has_char]. intro H.
  apply orb_false_iff in H. destruct H as [Hd Hs].
  rewrite rstrip_with_cons. specialize (IH Hs).
  destruct (PyStr.rstrip_with p s) as [|e r].
  - destruct (p d); simpl; [reflexivity|]. rewrite Hd. reflexivity.
  - cbn [PyStr.has_char] in *. rewrite Hd, IH. reflexivity.
Qed.

Lemma has_char_strip (c : ascii) (p : ascii -> bool) (s : string) :
  PyStr.has_char c s = false ->
  PyStr.has_char c (PyStr.strip_with p s) = false.
Proof.
  intro H. unfold PyStr.strip_with. apply has_char_lstrip, has_char_rstrip, H.
Qed.

(** [s.strip(c)] returns [s] when [c] does not occur in [s]. *)
Lemma strip_char_absent (c : ascii) (s : string) :
  PyStr.has_char c s = false -> PyStr.strip_char c s = s.
Proof.
  unfold PyStr.strip_char, PyStr.strip_with. intro H.
  assert (Hr : PyStr.rstrip_with (Ascii.eqb c) s = s).
  { induction s as [|d s IH]; [reflexivity|].
    cbn [PyStr.has_char] in H. apply orb_false_iff in H.
    destruct H as [Hd Hs]. rewrite rstrip_with_cons, (IH Hs).
    rewrite Ascii.eqb_sym, Hd. destruct s; reflexivity. }
  rewrite Hr. destruct s as [|d s]; [reflexivity|].
  cbn [PyStr.has_char] in H. apply orb_false_iff in H.
  destruct H as [Hd _]. simpl. rewrite Ascii.eqb_sym, Hd. reflexivity.
Qed.

Lemma split_parts_without_sep (sep : ascii) (s : string) :
  Forall (fun x => PyStr.has_char sep x = false) (PyStr.split sep s).
Proof.
  induction s as [|d s IH]; simpl.
  - constructor; [reflexivity|constructor].
  - destruct (Ascii.eqb d sep) eqn:E.
    + constructor; [reflexivity|exact IH].
    + destruct (PyStr.split sep s) as [|h t].
      * constructor; [simpl; rewrite E; reflexivity|constructor].
      * inversion IH; subst. constructor; [|assumption].
        simpl. rewrite E. assumption.
Qed.

Lemma join_without_char (c : ascii) (sep : string) (l : list string) :
  PyStr.has_char c sep = false ->
  Forall (fun x => PyStr.has_char c x = false) l ->
  PyStr.has_char c (PyStr.join sep l) = false.
Proof.
  intros Hsep. unfold PyStr.join.
  induction 1 as [|x l Hx Hl IH]; [reflexivity|].
  cbn [String.concat]. destruct l as [|y l]; [exact Hx|].
  rewrite !has_char_append, Hx, Hsep, IH. reflexivity.
Qed.

Lemma remove_char_gone (c : ascii) (s : string) :
  PyStr.has_char c (PyStr.remove_char c s) = false.
Proof.
  induction s as [|d s IH]; simpl; [reflexivity|].
  destruct (Ascii.eqb d c) eqn:E; [exact IH|]. simpl. rewrite E. exact IH.
Qed.

Lemma remove_char_keeps_absent (c d : ascii) (s : string) :
  PyStr.has_char c s = false ->
  PyStr.has_char c (PyStr.remove_char d s) = false.
Proof.
  induction s as [|e s IH]; simpl; intro H; [reflexivity|].
  apply orb_false_iff in H. destruct H as [He Hs].
  destruct (Ascii.eqb e d); [exact (IH Hs)|]. simpl.
  rewrite He. exact (IH Hs).
Qed.

Lemma remove_char_absent (c : ascii) (s : string) :
  PyStr.has_char c s = false -> PyStr.remove_char c s = s.
Proof.
  induction s as [|d s IH]; simpl; intro H; [reflexivity|].
  apply orb_false_iff in H. destruct H as [Hd Hs].
  rewrite Hd, (IH Hs). reflexivity.
Qed.

Lemma remove_char_append (c : ascii) (a b : string) :
  PyStr.remove_char c (a ++ b)
  = (PyStr.remove_char c a ++ PyStr.remove_char c b)%string.
Proof.
  induction a as [|d a IH]; simpl; [reflexivity|].
  destruct (Ascii.eqb d c); rewrite IH; reflexivity.
Qed.

End Characters.

(** X3. The name stored by a [NAME] line never contains a slash; a value
    without a slash is stored as it is; and cleaning a cleaned name changes
    nothing. *)
Theorem clean_name_removes_slashes :
  forall value,
    PyStr.has_char "/" (clean_name value) = false
    /\ (PyStr.has_char "/" value = false -> clean_name value = value)
    /\ clean_name (clean_name value) = clean_name value.
Proof.
  assert (Hid : forall v, PyStr.has_char "/" v = false -> clean_name v = v).
  { intros v H. unfold clean_name. destruct v as [|c v]; [reflexivity|].
    cbn [PyStr.truthy]. rewrite (strip_char_absent "/" _ H), H. reflexivity. }
  assert (Hno : forall v, PyStr.has_char "/" (clean_name v) = false).
  { intro v. unfold clean_name. destruct (PyStr.truthy v); [|reflexivity].
    destruct (PyStr.has_char "/" (PyStr.strip_char "/" v)) eqn:E; [|exact E].
    apply join_without_char; [reflexivity|].
    apply incl_Forall with (l1 := map PyStr.strip
                                    (PyStr.split "/" (PyStr.strip_char "/" v))).
    - intros x Hx. apply filter_In in Hx. apply Hx.
    - apply Forall_map.
      eapply Forall_impl; [|apply split_parts_without_sep].
      intros x Hx. apply has_char_strip, Hx. }
  intro value. split; [apply Hno|]. split; [apply Hid|]. apply Hid, Hno.
Qed.

Lemma clean_name_removes_slashes_witness :
  clean_name "John SMITH" = "John SMITH"
  /\ clean_name "John /SMITH/" = "John SMITH".
Proof.
  split.
  - apply (proj1 (proj2 (clean_name_removes_slashes "John SMITH"))).
    reflexivity.
  - reflexivity.
Defined.

(** X4. The id taken from the tag of a record line and the id taken from
    the value of a reference line ([FAMC], [FAMS], [HUSB], [WIFE], [CHIL])
    are the same function of the token, so a reference written like the
    record it names yields the key of that record; the id contains neither
    [@] nor the letter; and for a token [@], letter, [d], [@] where [d]
    contains neither, the id is [d]. *)
Theorem record_and_reference_ids_agree :
  forall c token,
    reference_id c token = record_id c token
    /\ PyStr.has_char "@" (record_id c token) = false
    /\ PyStr.has_char c (record_id c token) = false
    /\ (forall d,
          PyStr.has_char "@" d = false -> PyStr.has_char c d = false ->
          Ascii.eqb c "@" = false ->
          record_id c ("@" ++ String c d ++ "@") = d).
Proof.
  intros c token.
  assert (Hat : PyStr.has_char "@"
                  (PyStr.remove_char c (PyStr.remove_char "@" token)) = false)
    by apply remove_char_keeps_absent, remove_char_gone.
  assert (Heq : record_id c token
                = PyStr.remove_char c (PyStr.remove_char "@" token))
    by (unfold record_id; apply remove_char_absent, Hat).
  split; [|split; [|split]].
  - rewrite Heq. unfold reference_id. destruct token; reflexivity.
  - rewrite Heq. exact Hat.
  - rewrite Heq. apply remove_char_gone.
  - intros d Hd Hc Hne. unfold record_id.
    cbn [append PyStr.remove_char]. rewrite Ascii.eqb_refl.
    rewrite Hne. cbn [PyStr.remove_char]. rewrite Ascii.eqb_refl.
    rewrite !remove_char_append. cbn [PyStr.remove_char].
    rewrite Ascii.eqb_refl. cbn [PyStr.remove_char].
    rewrite (remove_char_absent "@" d Hd), (remove_char_absent c d Hc).
    rewrite (remove_char_absent "@" d Hd).
    clear. induction d as [|x d IH]; [reflexivity|].
    simpl. rewrite IH. reflexivity.
Qed.

Lemma record_and_reference_ids_agree_witness :
  record_id "I" "@I12@" = "12" /\ reference_id "F" "@F7@" = "7".
Proof.
  split.
  - apply (proj2 (proj2 (proj2 (record_and_reference_ids_agree "I" "@I12@")))
             "12"); reflexivity.
  - rewrite (proj1 (record_and_reference_ids_agree "F" "@F7@")).
    apply (proj2 (proj2 (proj2 (record_and_reference_ids_agree "F" "@F7@")))
             "7"); reflexivity.
Defined.

(* ===================================================================== *)
(** ** Order and content of the extracted maps *)
(* ===================================================================== *)

Section KeyOrder.

Lemma keys_set {V : Type} (k : string) (v : V) (d : dict V) :
  Dict.keys (Dict.set k v d) = add_key (Dict.keys d) k.
Proof.
  unfold add_key, Dict.keys. induction d as [|[k0 v0] d IH]; [reflexivity|].
  cbn [Dict.set map fst existsb].
  destruct (String.eqb_spec k k0) as [->|Hne]; [reflexivity|].
  cbn [orb map fst]. rewrite IH.
  destruct (existsb (String.eqb k) (map fst d)); reflexivity.
Qed.

Lemma get_set_other {V : Type} (k k' : string) (v : V) (d : dict V) :
  k <> k' -> Dict.get k (Dict.set k' v d) = Dict.get k d.
Proof.
  intro Hne. induction d as [|[k0 v0] d IH]; simpl.
  - destruct (String.eqb_spec k k'); [contradiction|reflexivity].
  - destruct (String.eqb_spec k' k0) as [->|H0]; simpl.
    + destruct (String.eqb_spec k k0); [contradiction|reflexivity].
    + rewrite IH. reflexivity.
Qed.

Lemma started_ids_app (kind : string) (c : ascii) (a b : list string) :
  started_ids kind c (a ++ b)
  = (started_ids kind c a ++ started_ids kind c b)%list.
Proof. unfold started_ids. apply flat_map_app. Qed.

Lemma individual_commit_step_key_list (st : ExtractIndividuals.locals)
  (line : string) :
  individual_locals_wf st ->
  Dict.keys (ExtractIndividuals.commit (ExtractIndividuals.step st line))
  = fold_left add_key (started_ids "INDI" "I" [line])
      (Dict.keys (ExtractIndividuals.commit st)).
Proof.
  intro Hwf. unfold started_ids. cbn [flat_map]. rewrite app_nil_r.
  destruct (record_line_id "INDI" "I" line) as [i|] eqn:Hl.
  - rewrite (step_start st line i Hl).
    unfold ExtractIndividuals.commit at 1.
    cbn [ExtractIndividuals.current_individual
           ExtractIndividuals.current_record ExtractIndividuals.individuals].
    destruct (PyStr.truthy i); [|reflexivity]. apply keys_set.
  - destruct (step_inside st line Hl) as [Hi [Hc [Hr _]]].
    cbn [fold_left]. unfold ExtractIndividuals.commit. rewrite Hi, Hc.
    destruct (ExtractIndividuals.current_individual st) as [i|] eqn:Ei;
      [|reflexivity].
    destruct (Hwf i Ei) as [r [Er _]].
    destruct (Hr r Er) as [r' [Er' _]]. rewrite Er, Er'.
    destruct (PyStr.truthy i); [|reflexivity].
    rewrite !keys_set. reflexivity.
Qed.

Lemma individual_run_key_list (lines : list string)
  (st : ExtractIndividuals.locals) :
  individual_locals_wf st ->
  Dict.keys (ExtractIndividuals.commit
               (fold_left ExtractIndividuals.step lines st))
  = fold_left add_key (started_ids "INDI" "I" lines)
      (Dict.keys (ExtractIndividuals.commit st)).
Proof.
  revert st. induction lines as [|l ls IH]; intros st Hwf; [reflexivity|].
  cbn [fold_left]. rewrite (IH _ (step_wf st l Hwf)).
  rewrite (individual_commit_step_key_list st l Hwf).
  change (l :: ls) with ([l] ++ ls)%list.
  rewrite started_ids_app, fold_left_app. reflexivity.
Qed.

Lemma family_commit_step_key_list (st : ExtractFamilies.locals)
  (line : string) :
  family_locals_wf st ->
  Dict.keys (ExtractFamilies.commit (ExtractFamilies.step st line))
  = fold_left add_key (started_ids "FAM" "F" [line])
      (Dict.keys (ExtractFamilies.commit st)).
Proof.
  intro Hwf. unfold started_ids. cbn [flat_map]. rewrite app_nil_r.
  destruct (record_line_id "FAM" "F" line) as [i|] eqn:Hl.
  - rewrite (family_step_start st line i Hl).
    unfold ExtractFamilies.commit at 1.
    cbn [ExtractFamilies.current_family ExtractFamilies.current_record
           ExtractFamilies.families].
    destruct (PyStr.truthy i); [|reflexivity]. apply keys_set.
  - destruct (family_step_inside st line Hl) as [Hi [Hc [Hr _]]].
    cbn [fold_left]. unfold ExtractFamilies.commit. rewrite Hi, Hc.
    destruct (ExtractFamilies.current_family st) as [i|] eqn:Ei;
      [|reflexivity].
    destruct (Hwf i Ei) as [r [Er _]].
    destruct (Hr r Er) as [r' [Er' _]]. rewrite Er, Er'.
    destruct (PyStr.truthy i); [|reflexivity].
    rewrite !keys_set. reflexivity.
Qed.

Lemma family_run_key_list (lines : list string) (st : ExtractFamilies.locals) :
  family_locals_wf st ->
  Dict.keys (ExtractFamilies.commit (fold_left ExtractFamilies.step lines st))
  = fold_left add_key (started_ids "FAM" "F" lines)
      (Dict.keys (ExtractFamilies.commit st)).
Proof.
  revert st. induction lines as [|l ls IH]; intros st Hwf; [reflexivity|].
  cbn [fold_left]. rewrite (IH _ (family_step_wf st l Hwf)).
  rewrite (family_commit_step_key_list st l Hwf).
  change (l :: ls) with ([l] ++ ls)%list.
  rewrite started_ids_app, fold_left_app. reflexivity.
Qed.

End KeyOrder.

(** X5. The entries of both maps returned by [parse] stand in the order in
    which their ids first occur in the file: the keys of the individuals
    map are the distinct non-empty ids of the INDI record lines in order of
    first occurrence, those of the families map the same for the FAM record
    lines, and the two totals of the summary are the numbers of these
    distinct ids. *)
Theorem maps_keep_first_occurrence_order :
  forall w gedcom_file,
  exists r,
    GEDCOMParser.parse_file w gedcom_file = Some r
    /\ Dict.keys (individuals r)
       = first_occurrences
           (started_ids "INDI" "I" (parsed_lines w gedcom_file))
    /\ Dict.keys (families r)
       = first_occurrences (started_ids "FAM" "F" (parsed_lines w gedcom_file))
    /\ total_individuals (summary r)
       = Z.of_nat
           (List.length
              (first_occurrences
                 (started_ids "INDI" "I" (parsed_lines w gedcom_file))))
    /\ total_families (summary r)
       = Z.of_nat
           (List.length
              (first_occurrences
                 (started_ids "FAM" "F" (parsed_lines w gedcom_file)))).
Proof.
  intros w file. eexists. split; [apply parse_file_value|].
  cbn [individuals families summary total_individuals total_families].
  set (lines := parsed_lines w file).
  assert (Hi : Dict.keys (ExtractIndividuals.extract [] lines)
               = first_occurrences (started_ids "INDI" "I" lines))
    by apply (individual_run_key_list lines _ (start_wf [])).
  assert (Hf : Dict.keys (ExtractFamilies.extract [] lines)
               = first_occurrences (started_ids "FAM" "F" lines))
    by apply (family_run_key_list lines _ (family_start_wf [])).
  rewrite <- Hi, <- Hf. unfold Dict.len.
  rewrite <- (resolve_keys (ExtractIndividuals.extract [] lines)
                (ExtractFamilies.extract [] lines)).
  unfold Dict.keys. rewrite !length_map. repeat split.
Qed.

Section LastRecordWins.
Import ExtractIndividuals.

Lemma agree_on_commit (k : string) (s1 s2 : locals) :
  k <> "" -> individual_locals_wf s1 -> agree_on k s1 s2 ->
  Dict.get k (commit s1) = Dict.get k (commit s2).
Proof.
  intros Hk Hwf [Hi [Hr [_ Hg]]]. unfold commit. rewrite <- Hi, <- Hr.
  destruct (current_individual s1) as [i|] eqn:Ei.
  - destruct (Hwf i Ei) as [r [Er _]]. rewrite Er.
    destruct (String.eqb_spec k i) as [<-|Hne].
    + apply truthy_nonempty in Hk. rewrite Hk, !get_set_same. reflexivity.
    + destruct Hg as [Hg|Hg]; [congruence|].
      destruct (PyStr.truthy i); [|exact Hg].
      rewrite !(get_set_other k i) by exact Hne. exact Hg.
  - destruct Hg as [Hg|Hg]; [discriminate Hg|exact Hg].
Qed.

Lemma agree_on_step (k : string) (s1 s2 : locals) (line : string) :
  k <> "" -> individual_locals_wf s1 -> agree_on k s1 s2 ->
  record_line_id "INDI" "I" line <> Some k ->
  agree_on k (step s1 line) (step s2 line).
Proof.
  intros Hk Hwf Hag Hl.
  destruct (record_line_id "INDI" "I" line) as [i|] eqn:El.
  - rewrite (step_start s1 line i El), (step_start s2 line i El).
    unfold agree_on. cbn [current_individual current_record current_section
                            individuals].
    repeat split. right. apply agree_on_commit; assumption.
  - destruct Hag as [Hi [Hr [Hs Hg]]].
    destruct s1 as [d1 ci cr cs], s2 as [d2 ci2 cr2 cs2].
    cbn [current_individual current_record current_section individuals] in *.
    subst ci2 cr2 cs2. unfold record_line_id in El. unfold step, is_open.
    cbn [current_individual current_record current_section individuals].
    destruct (tokenize line) as [t|]; [|unfold agree_on; auto].
    destruct (starts_record "INDI" t); [discriminate El|].
    destruct (match ci with Some i => PyStr.truthy i | None => false end);
      cbn [andb]; [|unfold agree_on; auto].
    destruct (level t =? 1).
    { destruct cr as [r|]; [|unfold agree_on; auto].
      destruct (level1 t r cs) as [r' sec']. unfold agree_on; auto. }
    destruct (level t =? 2); [|unfold agree_on; auto].
    destruct cs as [sec|], cr as [r|]; unfold agree_on; auto.
Qed.

Lemma agree_on_run (k : string) (lines : list string) (s1 s2 : locals) :
  k <> "" -> individual_locals_wf s1 -> agree_on k s1 s2 ->
  Forall (fun b => record_line_id "INDI" "I" b <> Some k) lines ->
  Dict.get k (commit (fold_left step lines s1))
  = Dict.get k (commit (fold_left step lines s2)).
Proof.
  intros Hk. revert s1 s2.
  induction lines as [|l ls IH]; intros s1 s2 Hwf Hag Hall.
  - apply agree_on_commit; assumption.
  - inversion Hall as [|? ? Hl Hls]; subst. cbn [fold_left].
    apply IH; [apply step_wf, Hwf| |exact Hls].
    apply agree_on_step; assumption.
Qed.

End LastRecordWins.

(** X6. The last record of an id wins, whole: when a line starts the INDI
    record of a non-empty id [k] and no later line starts a record of [k],
    the entry under [k] is the one built from that line and the lines
    after it alone. Nothing of the lines before it, and nothing of the map
    the pass started from, is left in the entry. *)
Theorem last_record_of_an_id_wins :
  forall inds before line after k,
    record_line_id "INDI" "I" line = Some k -> k <> "" ->
    Forall (fun b => record_line_id "INDI" "I" b <> Some k) after ->
    Dict.get k (ExtractIndividuals.extract inds (before ++ line :: after))
    = Dict.get k (ExtractIndividuals.extract [] (line :: after))
    /\ exists person,
         Dict.get k (ExtractIndividuals.extract inds (before ++ line :: after))
         = Some person.
Proof.
  intros inds before line after k Hl Hk Hafter.
  assert (E : Dict.get k (ExtractIndividuals.extract inds
                            (before ++ line :: after))
              = Dict.get k (ExtractIndividuals.extract [] (line :: after))).
  { unfold ExtractIndividuals.extract, ExtractIndividuals.run.
    rewrite fold_left_app. cbn [fold_left].
    set (sb := fold_left ExtractIndividuals.step before
                 (ExtractIndividuals.start inds)).
    assert (Hwf : individual_locals_wf sb) by apply run_from_wf, start_wf.
    apply agree_on_run; [exact Hk|apply step_wf, Hwf| |exact Hafter].
    rewrite (step_start sb line k Hl), (step_start _ line k Hl).
    unfold agree_on. cbn. auto. }
  split; [exact E|].
  apply in_keys_get. unfold ExtractIndividuals.extract, ExtractIndividuals.run.
  apply (run_from_keys (before ++ line :: after) _ k (start_wf inds)).
  right. apply in_started_ids. split; [exact Hk|]. exists line.
  split; [apply in_or_app; right; left; reflexivity|exact Hl].
Qed.

Lemma last_record_of_an_id_wins_witness :
  Dict.get "1"
    (ExtractIndividuals.extract []
       (["0 @I1@ INDI"; "1 NAME A"; "1 SEX M"]
          ++ "0 @I1@ INDI" :: ["1 NAME B"]))
  = Some (set_name "B" (ExtractIndividuals.new_record "1")).
Proof.
  rewrite (proj1 (last_record_of_an_id_wins []
                    ["0 @I1@ INDI"; "1 NAME A"; "1 SEX M"] "0 @I1@ INDI"
                    ["1 NAME B"] "1" eq_refl ltac:(discriminate)
                    ltac:(repeat constructor; discriminate))).
  reflexivity.
Defined.

(* ===================================================================== *)
(** ** The relationship pass in closed form *)
(* ===================================================================== *)

Section ResolveClosedForm.
Import Resolve.

Lemma parents_loop_record (families : dict Family) (l : list string)
  (i : Individual) :
  fold_left (parents_step families) l i
  = set_parents (ind_parents i ++ expected_parents families l) i.
Proof.
  revert i. induction l as [|f l IH]; intro i.
  - destruct i. unfold set_parents. simpl. rewrite app_nil_r. reflexivity.
  - cbn [fold_left]. rewrite IH. destruct i. unfold parents_step.
    unfold expected_parents. cbn [flat_map].
    destruct (Dict.get f families) as [fam|]; [|reflexivity].
    unfold if_nonempty, append_parent, set_parents.
    destruct (PyStr.truthy (fam_husband fam)), (PyStr.truthy (fam_wife fam));
      simpl; rewrite <- ?app_assoc; reflexivity.
Qed.

Lemma spouse_loop_record (families : dict Family) (k : string)
  (l : list string) (i : Individual) :
  fold_left (spouse_step families k) l i
  = set_children (ind_children i ++ listed_children families l)
      (set_spouse (ind_spouse i ++ expected_spouse families k l) i).
Proof.
  revert i. induction l as [|f l IH]; intro i.
  - destruct i. unfold set_children, set_spouse. simpl.
    rewrite !app_nil_r. reflexivity.
  - cbn [fold_left]. rewrite IH. destruct i. unfold spouse_step.
    unfold expected_spouse, listed_children. cbn [flat_map].
    destruct (Dict.get f families) as [fam|]; [|reflexivity].
    unfold append_spouse, set_spouse, set_children.
    destruct (String.eqb (fam_husband fam) k && PyStr.truthy (fam_wife fam));
      [simpl; rewrite <- ?app_assoc; reflexivity|].
    destruct (String.eqb (fam_wife fam) k && PyStr.truthy (fam_husband fam));
      simpl; rewrite <- ?app_assoc; reflexivity.
Qed.

Lemma expected_spouse_nonempty (families : dict Family) (k : string)
  (l : list string) :
  forallb PyStr.truthy (expected_spouse families k l) = true.
Proof.
  apply forallb_forall. intros x Hx. unfold expected_spouse in Hx.
  apply in_flat_map in Hx. destruct Hx as [f [_ Hx]].
  destruct (Dict.get f families) as [fam|]; [|destruct Hx].
  destruct (String.eqb (fam_husband fam) k && PyStr.truthy (fam_wife fam))
    eqn:E1.
  - destruct Hx as [<-|[]]. apply andb_true_iff in E1. apply E1.
  - destruct (String.eqb (fam_wife fam) k && PyStr.truthy (fam_husband fam))
      eqn:E2; [|destruct Hx].
    destruct Hx as [<-|[]]. apply andb_true_iff in E2. apply E2.
Qed.

Lemma link_clean_record (families : dict Family) (k : string)
  (i : Individual) :
  clean (link families k i) = resolved families k i.
Proof.
  unfold link. cbv zeta. rewrite parents_loop_record.
  destruct i. unfold set_parents, set_spouse, set_children.
  cbn [ind_id ind_name ind_gender ind_birth ind_death ind_occupation ind_notes
         ind_families_as_child ind_families_as_spouse ind_media ind_parents
         ind_spouse ind_children].
  rewrite spouse_loop_record. unfold clean, resolved, set_parents, set_spouse,
    set_children.
  cbn [ind_id ind_name ind_gender ind_birth ind_death ind_occupation ind_notes
         ind_families_as_child ind_families_as_spouse ind_media ind_parents
         ind_spouse ind_children app].
  rewrite expected_parents_nonempty.
  rewrite (forallb_filter_id _ _ (expected_spouse_nonempty _ _ _)).
  reflexivity.
Qed.

Lemma resolved_twice (families : dict Family) (k : string) (i : Individual) :
  resolved families k (resolved families k i) = resolved families k i.
Proof. destruct i. reflexivity. Qed.

End ResolveClosedForm.

(** X7. The relationship pass in closed form: it keeps every key and
    changes three fields of each record only. Under the key [k], [parents]
    becomes the husbands and wives of the families listed in
    [families_as_child]; [spouse] becomes, for each family listed in
    [families_as_spouse], the wife when [k] is its husband, else the husband
    when [k] is its wife (nothing when [k] is neither, or when the other id
    is empty); [children] becomes all the non-empty children of the families
    listed in [families_as_spouse], whether or not [k] is a spouse there.
    Family ids that are not keys of the families map add nothing, and ids
    are not checked against the individuals map. *)
Theorem relationship_pass_closed_form :
  forall inds fams,
    Resolve.resolve inds fams
    = map (fun kv => (fst kv, resolved fams (fst kv) (snd kv))) inds.
Proof.
  intros inds fams. rewrite resolve_entries. apply map_ext.
  intros [k i]. cbn [fst snd]. rewrite link_clean_record. reflexivity.
Qed.

(** X8. Running the relationship pass a second time, with the same
    families, changes nothing: the three lists are rebuilt from the raw
    family references, not extended. *)
Theorem relationship_pass_idempotent :
  forall inds fams,
    Resolve.resolve (Resolve.resolve inds fams) fams
    = Resolve.resolve inds fams.
Proof.
  intros inds fams. rewrite !resolve_entries, map_map. apply map_ext.
  intros [k i]. cbn [fst snd]. rewrite !link_clean_record, resolved_twice.
  reflexivity.
Qed.

(* ===================================================================== *)
(** ** The distributions of [get_statistics] *)
(* ===================================================================== *)

Section Distributions.
Import GenealogyQueryEngine.

Lemma count_of_cons {A : Type} (f : A -> bool) (x : A) (l : list A) :
  count_of f (x :: l) = (if f x then 1 else 0) + count_of f l.
Proof.
  unfold count_of. cbn [filter]. destruct (f x); cbn [List.length]; lia.
Qed.

Lemma count_of_nonneg {A : Type} (f : A -> bool) (l : list A) :
  0 <= count_of f l.
Proof. unfold count_of. lia. Qed.

(** The loop of [get_statistics], field by field. *)
Lemma stats_step_fields (stats : Statistics) (person : Individual) :
  total_individuals (stats_step stats person) = total_individuals stats
  /\ total_families (stats_step stats person) = total_families stats
  /\ gender_distribution (stats_step stats person)
     = (if Dict.mem (ind_gender person) (gender_distribution stats)
        then count_up (ind_gender person) (gender_distribution stats)
        else count_up "Unknown" (gender_distribution stats))
  /\ occupation_distribution (stats_step stats person)
     = tally occupation_key (occupation_distribution stats) person
  /\ century_distribution (stats_step stats person)
     = tally century_key (century_distribution stats) person.
Proof.
  unfold stats_step, tally, occupation_key, century_key.
  cbn [total_individuals total_families gender_distribution
         occupation_distribution century_distribution].
  repeat split.
  - destruct (PyStr.truthy (ind_occupation person)); reflexivity.
  - destruct (PyStr.truthy (get_or_empty (date (ind_birth person)))
              && (4 <=? String.length
                          (get_or_empty (date (ind_birth person))))%nat);
      [|reflexivity].
    destruct (PyStr.to_int
                (PyStr.suffix 4 (get_or_empty (date (ind_birth person)))));
      reflexivity.
Qed.

Lemma gender_bucket (m f u : Z) (person : Individual) :
  let d := [("M", m); ("F", f); ("Unknown", u)] in
  (if Dict.mem (ind_gender person) d
   then count_up (ind_gender person) d else count_up "Unknown" d)
  = [("M", m + (if is_male person then 1 else 0));
     ("F", f + (if is_female person then 1 else 0));
     ("Unknown", u + (if is_other person then 1 else 0))].
Proof.
  unfold is_other, is_male, is_female, count_up, Dict.mem.
  cbn [Dict.get Dict.set].
  destruct (String.eqb_spec (ind_gender person) "M") as [->|HM].
  - cbn. rewrite !Z.add_0_r. reflexivity.
  - destruct (String.eqb_spec (ind_gender person) "F") as [->|HF].
    + cbn. rewrite !Z.add_0_r. reflexivity.
    + destruct (String.eqb_spec (ind_gender person) "Unknown") as [->|HU];
        cbn; rewrite !Z.add_0_r; reflexivity.
Qed.

Lemma gender_loop (people : list Individual) (stats : Statistics)
  (m f u : Z) :
  gender_distribution stats = [("M", m); ("F", f); ("Unknown", u)] ->
  gender_distribution (fold_left stats_step people stats)
  = [("M", m + count_of is_male people);
     ("F", f + count_of is_female people);
     ("Unknown", u + count_of is_other people)]
  /\ total_individuals (fold_left stats_step people stats)
     = total_individuals stats
  /\ total_families (fold_left stats_step people stats)
     = total_families stats.
Proof.
  revert stats m f u. induction people as [|p l IH]; intros stats m f u H.
  - cbn [fold_left]. unfold count_of. cbn. rewrite !Z.add_0_r. auto.
  - cbn [fold_left].
    destruct (stats_step_fields stats p) as [Ht [Hf [Hg _]]].
    rewrite H, gender_bucket in Hg.
    destruct (IH _ _ _ _ Hg) as [G1 [G2 G3]].
    rewrite G1, G2, G3, Ht, Hf, !count_of_cons, !Z.add_assoc. auto.
Qed.

Lemma partition_by_gender (people : list Individual) :
  count_of is_male people + count_of is_female people
  + count_of is_other people
  = Z.of_nat (List.length people).
Proof.
  induction people as [|p l IH]; [reflexivity|].
  rewrite !count_of_cons. cbn [List.length].
  change (is_other p) with (negb (is_male p) && negb (is_female p)).
  assert (H : is_male p && is_female p = false).
  { unfold is_male, is_female.
    destruct (String.eqb_spec (ind_gender p) "M") as [->|]; reflexivity. }
  destruct (is_male p), (is_female p); cbn [negb andb] in *;
    try discriminate H; lia.
Qed.

Lemma get_count_up (k k' : string) (d : dict Z) :
  Dict.get k (count_up k' d)
  = if String.eqb k' k
    then Some (match Dict.get k d with Some n => n | None => 0 end + 1)
    else Dict.get k d.
Proof.
  unfold count_up. destruct (String.eqb_spec k' k) as [->|Hne].
  - apply get_set_same.
  - apply get_set_other. congruence.
Qed.

(** After a counting loop, the entry of a key is the entry before the loop
    plus the number of persons counted under the key. *)
Lemma tally_loop (key : Individual -> option string) (k : string)
  (people : list Individual) (d : dict Z) :
  Dict.get k (fold_left (tally key) people d)
  = if count_of (has_key key k) people =? 0 then Dict.get k d
    else Some (match Dict.get k d with Some n => n | None => 0 end
               + count_of (has_key key k) people).
Proof.
  revert d. induction people as [|p l IH]; intro d; [reflexivity|].
  cbn [fold_left]. rewrite IH, count_of_cons.
  pose proof (count_of_nonneg (has_key key k) l) as Hn.
  set (n := count_of (has_key key k) l) in *.
  assert (Hp : has_key key k p
               = match key p with
                 | Some k' => String.eqb k' k
                 | None => false
                 end) by reflexivity.
  unfold tally. destruct (key p) as [k'|]; rewrite Hp; [|reflexivity].
  rewrite get_count_up. destruct (String.eqb k' k); [|reflexivity].
  destruct (Z.eqb_spec n 0) as [E|E].
  - rewrite E. reflexivity.
  - destruct (Z.eqb_spec (1 + n) 0); [lia|]. f_equal. lia.
Qed.

Lemma distribution_loops (people : list Individual) (stats : Statistics) :
  occupation_distribution (fold_left stats_step people stats)
  = fold_left (tally occupation_key) people (occupation_distribution stats)
  /\ century_distribution (fold_left stats_step people stats)
     = fold_left (tally century_key) people (century_distribution stats).
Proof.
  revert stats. induction people as [|p l IH]; intro stats; [auto|].
  cbn [fold_left]. destruct (IH (stats_step stats p)) as [H1 H2].
  destruct (stats_step_fields stats p) as [_ [_ [_ [Ho Hc]]]].
  rewrite H1, H2, Ho, Hc. auto.
Qed.

End Distributions.

(** X9. The three gender buckets of [get_statistics] keep their order and
    partition the individuals: [M] and [F] count the individuals of exactly
    that gender, [Unknown] counts all the others (empty, [Unknown], or any
    other code), and the three counts add up to [total_individuals], the
    size of the map. *)
Theorem gender_buckets_partition_individuals :
  forall self,
    let stats := GenealogyQueryEngine.get_statistics self in
    let people := Dict.values (GenealogyQueryEngine.individuals self) in
    GenealogyQueryEngine.gender_distribution stats
    = [("M", count_of is_male people); ("F", count_of is_female people);
       ("Unknown", count_of is_other people)]
    /\ count_of is_male people + count_of is_female people
       + count_of is_other people
       = GenealogyQueryEngine.total_individuals stats
    /\ GenealogyQueryEngine.total_individuals stats
       = Dict.len (GenealogyQueryEngine.individuals self)
    /\ GenealogyQueryEngine.total_families stats
       = Dict.len (GenealogyQueryEngine.families self).
Proof.
  intros self stats people. unfold stats, GenealogyQueryEngine.get_statistics.
  fold people.
  destruct (gender_loop people
              (GenealogyQueryEngine.mkStatistics
                 (Dict.len (GenealogyQueryEngine.individuals self))
                 (Dict.len (GenealogyQueryEngine.families self))
                 [("M", 0); ("F", 0); ("Unknown", 0)] [] [] 0) 0 0 0 eq_refl)
    as [G1 [G2 G3]].
  rewrite G1, G2, G3. cbn [GenealogyQueryEngine.total_individuals
                             GenealogyQueryEngine.total_families].
  repeat split. rewrite partition_by_gender. unfold people, Dict.len, Dict.values.
  rewrite length_map. reflexivity.
Qed.

(** X10. The occupation and century dictionaries of [get_statistics] are
    frequency tables: the entry of a key is the number of individuals
    counted under it, and a key under which nobody is counted has no entry.
    An individual is counted under its occupation when that is not empty,
    and under the century of its birth when the last four characters of the
    birth date are accepted by [int]. *)
Theorem distributions_are_frequency_tables :
  forall self k,
    let stats := GenealogyQueryEngine.get_statistics self in
    let people := Dict.values (GenealogyQueryEngine.individuals self) in
    Dict.get k (GenealogyQueryEngine.occupation_distribution stats)
    = frequency (count_of (has_key occupation_key k) people)
    /\ Dict.get k (GenealogyQueryEngine.century_distribution stats)
       = frequency (count_of (has_key century_key k) people).
Proof.
  intros self k stats people.
  unfold stats, GenealogyQueryEngine.get_statistics. fold people.
  destruct (distribution_loops people
              (GenealogyQueryEngine.mkStatistics
                 (Dict.len (GenealogyQueryEngine.individuals self))
                 (Dict.len (GenealogyQueryEngine.families self))
                 [("M", 0); ("F", 0); ("Unknown", 0)] [] [] 0)) as [Ho Hc].
  rewrite Ho, Hc, !tally_loop. unfold frequency.
  cbn [GenealogyQueryEngine.occupation_distribution
         GenealogyQueryEngine.century_distribution Dict.get].
  split; destruct (_ =? 0); reflexivity.
Qed.

(* ===================================================================== *)
(** ** Details of a person *)
(* ===================================================================== *)

Section Details.
Import GenealogyQueryEngine.

Lemma names_of_known (self : t) (ids : list string) :
  names_of self ids = known_names (individuals self) ids.
Proof.
  unfold names_of, known_names.
  assert (H : forall acc,
             fold_left
               (fun names linked_id =>
                  if Dict.mem linked_id (individuals self) then
                    match Dict.get linked_id (individuals self) with
                    | Some linked => (names ++ [ind_name linked])%list
                    | None => names
                    end
                  else names) ids acc
             = (acc ++ flat_map
                         (fun i =>
                            match Dict.get i (individuals self) with
                            | Some linked => [ind_name linked]
                            | None => []
                            end) ids)%list).
  { induction ids as [|i ids IH]; intro acc; cbn [fold_left flat_map].
    - rewrite app_nil_r. reflexivity.
    - rewrite IH. unfold Dict.mem.
      destruct (Dict.get i (individuals self)) as [p|].
      + rewrite <- app_assoc. reflexivity.
      + reflexivity. }
  apply (H []).
Qed.

Lemma known_names_length (inds : dict Individual) (ids : list string) :
  (List.length (known_names inds ids) <= List.length ids)%nat
  /\ (List.length (known_names inds ids) = List.length ids
      <-> Forall (fun i => In i (Dict.keys inds)) ids).
Proof.
  unfold known_names. induction ids as [|i ids [IHle IHeq]].
  - split; [apply Nat.le_refl|]. split; [constructor|reflexivity].
  - cbn [flat_map]. rewrite length_app. cbn [List.length].
    pose proof (get_in_keys i inds) as Hk.
    destruct (Dict.get i inds) as [p|]; cbn [List.length].
    + split; [lia|]. split.
      * intro H. constructor; [apply Hk; discriminate|].
        apply IHeq. lia.
      * intro H. inversion H; subst. apply IHeq in H3. lia.
    + split; [lia|]. split; [lia|].
      intro H. inversion H as [|? ? Hin _]; subst.
      apply Hk in Hin. contradiction.
Qed.

End Details.

(** X11. [get_person_details] returns [None] exactly for an id that is not
    a key of the individuals map. For a key it returns the record stored
    under it with three lists of names: the names of the parents, spouses
    and children whose ids are keys of the map, in the order of the ids. An
    id that is not a key is left out without notice, so a list of names is
    never longer than its list of ids and is as long exactly when every id
    is a key. *)
Theorem person_details_name_known_links :
  forall self person_id,
    (GenealogyQueryEngine.get_person_details self person_id = None
     <-> Dict.get person_id (GenealogyQueryEngine.individuals self) = None)
    /\ forall details,
         GenealogyQueryEngine.get_person_details self person_id = Some details ->
         let inds := GenealogyQueryEngine.individuals self in
         let person := GenealogyQueryEngine.person details in
         Dict.get person_id inds = Some person
         /\ GenealogyQueryEngine.parent_names details
            = known_names inds (ind_parents person)
         /\ GenealogyQueryEngine.spouse_names details
            = known_names inds (ind_spouse person)
         /\ GenealogyQueryEngine.children_names details
            = known_names inds (ind_children person)
         /\ (List.length (GenealogyQueryEngine.parent_names details)
             <= List.length (ind_parents person))%nat
         /\ (List.length (GenealogyQueryEngine.parent_names details)
             = List.length (ind_parents person)
             <-> Forall (fun i => In i (Dict.keys inds)) (ind_parents person)).
Proof.
  intros self person_id.
  unfold GenealogyQueryEngine.get_person_details, Dict.mem.
  destruct (Dict.get person_id (GenealogyQueryEngine.individuals self))
    as [p|]; cbn [negb].
  - split; [split; discriminate|].
    intros details E. injection E as <-.
    cbn [GenealogyQueryEngine.person GenealogyQueryEngine.parent_names
           GenealogyQueryEngine.spouse_names
           GenealogyQueryEngine.children_names].
    rewrite !names_of_known. repeat split; try apply known_names_length.
  - split; [split; reflexivity|]. discriminate.
Qed.

Lemma person_details_name_known_links_witness :
  let child := set_parents ["1"; "9"] (ExtractIndividuals.new_record "3") in
  let father := set_name "John SMITH" (ExtractIndividuals.new_record "1") in
  let self := GenealogyQueryEngine.init
                (mkResult [("1", father); ("3", child)] []
                   (mkSummary 2 0 "now" None)) in
  known_names (GenealogyQueryEngine.individuals self) (ind_parents child)
  = ["John SMITH"]
  /\ GenealogyQueryEngine.get_person_details self "9" = None.
Proof.
  intros child father self. split.
  - pose proof (proj2 (person_details_name_known_links self "3")
                  (GenealogyQueryEngine.mkDetails child ["John SMITH"] [] [])
                  eq_refl) as H.
    cbv zeta in H. destruct H as [_ [H _]]. symmetry. exact H.
  - apply (proj1 (person_details_name_known_links self "9")). reflexivity.
Defined.

(* ===================================================================== *)
(** ** Case in searches *)
(* ===================================================================== *)

Section Case.

Lemma lower_char_idem (c : ascii) :
  PyStr.lower_char (PyStr.lower_char c) = PyStr.lower_char c.
Proof.
  destruct c as [[] [] [] [] [] [] [] []]; vm_compute; reflexivity.
Qed.

Lemma lower_idem (s : string) : PyStr.lower (PyStr.lower s) = PyStr.lower s.
Proof.
  induction s as [|c s IH]; simpl; [reflexivity|].
  rewrite lower_char_idem, IH. reflexivity.
Qed.

End Case.

(** X12. [find_person] and [search_by_location] do not see the case of the
    query: two queries with the same lowercase form give the same list, and
    so do a query and its lowercase form. A person is returned by
    [find_person] exactly when it is in the map and the lowercase query
    occurs in its lowercase name. *)
Theorem searches_ignore_case :
  forall self q,
    GenealogyQueryEngine.find_person self (PyStr.lower q)
    = GenealogyQueryEngine.find_person self q
    /\ GenealogyQueryEngine.search_by_location self (PyStr.lower q)
       = GenealogyQueryEngine.search_by_location self q
    /\ (forall q',
          PyStr.lower q = PyStr.lower q' ->
          GenealogyQueryEngine.find_person self q
          = GenealogyQueryEngine.find_person self q'
          /\ GenealogyQueryEngine.search_by_location self q
             = GenealogyQueryEngine.search_by_location self q')
    /\ (forall person,
          In person (GenealogyQueryEngine.find_person self q)
          <-> In person (Dict.values (GenealogyQueryEngine.individuals self))
              /\ PyStr.contains (PyStr.lower q)
                   (PyStr.lower (ind_name person)) = true).
Proof.
  intros self q. rewrite !find_person_filter, !search_by_location_filter.
  rewrite lower_idem. split; [reflexivity|]. split; [reflexivity|]. split.
  - intros q' H. rewrite !find_person_filter, !search_by_location_filter, H.
    split; reflexivity.
  - intro person. apply filter_In.
Qed.

Lemma searches_ignore_case_witness :
  let john := set_name "John SMITH" (ExtractIndividuals.new_record "1") in
  let self := GenealogyQueryEngine.init
                (mkResult [("1", john)] [] (mkSummary 1 0 "now" None)) in
  GenealogyQueryEngine.find_person self "SMITH"
  = GenealogyQueryEngine.find_person self "smith".
Proof.
  intros john self.
  apply (proj1 (proj2 (proj2 (searches_ignore_case self "SMITH")))
           "smith" eq_refl).
Defined.

(* ===================================================================== *)
(** ** Family trees that are returned *)
(* ===================================================================== *)

Section ReturnedTrees.
Import GenealogyQueryEngine.

Lemma collect_total (build : string -> option Tree) (ids : list string) :
  (forall i, In i ids -> exists sub, build i = Some sub) ->
  exists subs, collect build ids = Some subs.
Proof.
  induction ids as [|i ids IH]; intro H; [exists []; reflexivity|].
  destruct (H i (or_introl eq_refl)) as [sub Hs].
  destruct (IH (fun j Hj => H j (or_intror Hj))) as [subs Hss].
  cbn [collect]. rewrite Hs, Hss. eauto.
Qed.

Lemma collect_forall (P : Tree -> Prop) (build : string -> option Tree)
  (ids : list string) (subs : list Tree) :
  (forall i sub, build i = Some sub -> P sub) ->
  collect build ids = Some subs -> Forall P subs.
Proof.
  intro H. revert subs. induction ids as [|i ids IH]; cbn [collect];
    intros subs E.
  - injection E as <-. constructor.
  - destruct (build i) as [sub|] eqn:Eb; [|discriminate E].
    destruct (collect build ids) as [rest|]; [|discriminate E].
    injection E as <-. specialize (IH rest eq_refl).
    destruct (tree_truthy sub); [constructor; eauto|exact IH].
Qed.

Lemma forall_flat_map {A B : Type} (Q : B -> Prop) (f : A -> list B)
  (l : list A) :
  Forall (fun x => Forall Q (f x)) l -> Forall Q (flat_map f l).
Proof.
  induction 1 as [|x l Hx _ IH]; cbn [flat_map]; [constructor|].
  apply Forall_app. auto.
Qed.

(** Without children links the calls go upwards only: at most
    [max_gen - gen] nested calls are needed. *)
Lemma build_tree_upwards_returns (self : t) :
  (forall k p, In (k, p) (individuals self) -> ind_children p = []) ->
  forall fuel pid gen max_gen,
    (Z.to_nat (max_gen - gen) < fuel)%nat ->
    exists tree, build_tree self fuel pid gen max_gen = Some tree.
Proof.
  intros Hno. induction fuel as [|fuel IH]; intros pid gen max_gen Hf; [lia|].
  cbn [build_tree].
  destruct ((gen >=? max_gen) || negb (Dict.mem pid (individuals self)))
    eqn:Hstop; [eauto|].
  apply orb_false_iff in Hstop. destruct Hstop as [Hge _].
  rewrite Z.geb_leb in Hge. apply Z.leb_gt in Hge.
  destruct (Dict.get pid (individuals self)) as [p|] eqn:Ep; [|eauto].
  destruct (gen <? max_gen - 1); [|eauto].
  rewrite (Hno pid p (get_some_in _ _ _ Ep)). cbn [collect].
  destruct (collect_total
              (fun parent_id => build_tree self fuel parent_id (gen + 1) max_gen)
              (ind_parents p)) as [ps Hps].
  { intros i _. apply IH. lia. }
  rewrite Hps. eauto.
Qed.

Lemma build_tree_upwards_generations (self : t) :
  (forall k p, In (k, p) (individuals self) -> ind_children p = []) ->
  forall fuel pid gen max_gen tree,
    build_tree self fuel pid gen max_gen = Some tree ->
    Forall (fun z => gen <= z < max_gen) (generations_of tree).
Proof.
  intros Hno. induction fuel as [|fuel IH]; intros pid gen max_gen tree;
    [discriminate|].
  cbn [build_tree].
  destruct ((gen >=? max_gen) || negb (Dict.mem pid (individuals self)))
    eqn:Hstop; [intro E; injection E as <-; constructor|].
  apply orb_false_iff in Hstop. destruct Hstop as [Hge _].
  rewrite Z.geb_leb in Hge. apply Z.leb_gt in Hge.
  destruct (Dict.get pid (individuals self)) as [p|] eqn:Ep;
    [|intro E; injection E as <-; constructor].
  destruct (gen <? max_gen - 1).
  - rewrite (Hno pid p (get_some_in _ _ _ Ep)). cbn [collect].
    destruct (collect _ (ind_parents p)) as [ps|] eqn:Eps; [|discriminate].
    intro E. injection E as <-. cbn [generations_of flat_map].
    rewrite app_nil_r. constructor; [lia|].
    apply forall_flat_map.
    apply (collect_forall _ _ _ _
             (fun i sub (H : build_tree self fuel i (gen + 1) max_gen = Some sub)
              => Forall_impl _ (fun z (Hz : gen + 1 <= z < max_gen)
                                => conj (Z.le_trans _ _ _ (Z.le_succ_diag_r gen)
                                           (proj1 Hz)) (proj2 Hz))
                   (IH i (gen + 1) max_gen sub H))
             Eps).
  - intro E. injection E as <-. cbn [generations_of app].
    constructor; [lia|constructor].
Qed.

End ReturnedTrees.

(** X13. The calls of [get_family_tree] that return whatever the data: for
    an id that is not a key of the map the result is the empty dictionary;
    for [generations <= 0] the result is the empty dictionary even for a
    known id; for [generations = 1] the result is the node of the person
    alone, at generation 0, without [parents] and [children] keys. None of
    these needs more than one call of [build_tree]. *)
Theorem family_tree_edge_cases :
  forall self fuel person_id,
    (Dict.get person_id (GenealogyQueryEngine.individuals self) = None ->
     forall generations,
       GenealogyQueryEngine.get_family_tree self fuel person_id generations
       = Some Empty)
    /\ (forall generations,
          generations <= 0 ->
          GenealogyQueryEngine.get_family_tree self (S fuel) person_id
            generations
          = Some Empty)
    /\ (forall person,
          Dict.get person_id (GenealogyQueryEngine.individuals self)
          = Some person ->
          GenealogyQueryEngine.get_family_tree self (S fuel) person_id 1
          = Some (Node person_id (ind_name person) (ind_birth person)
                    (ind_death person) 0 None None)).
Proof.
  intros self fuel person_id.
  unfold GenealogyQueryEngine.get_family_tree, Dict.mem. split; [|split].
  - intros H g. rewrite H. reflexivity.
  - intros g Hg.
    destruct (Dict.get person_id (GenealogyQueryEngine.individuals self));
      [|reflexivity].
    cbn [negb GenealogyQueryEngine.build_tree].
    destruct (Z.geb_spec 0 g); [reflexivity|lia].
  - intros person H. rewrite H.
    cbn [negb GenealogyQueryEngine.build_tree]. unfold Dict.mem. rewrite H.
    reflexivity.
Qed.

Lemma family_tree_edge_cases_witness :
  let self := GenealogyQueryEngine.init
                (mkResult [("1", ExtractIndividuals.new_record "1")] []
                   (mkSummary 1 0 "now" None)) in
  GenealogyQueryEngine.get_family_tree self 0 "2" 3 = Some Empty
  /\ GenealogyQueryEngine.get_family_tree self 1 "1" 0 = Some Empty
  /\ GenealogyQueryEngine.get_family_tree self 1 "1" 1
     = Some (Node "1" "" empty_event empty_event 0 None None).
Proof.
  intro self. split; [|split].
  - apply (proj1 (family_tree_edge_cases self 0%nat "2")). reflexivity.
  - apply (proj1 (proj2 (family_tree_edge_cases self 0%nat "1")) 0). lia.
  - apply (proj2 (proj2 (family_tree_edge_cases self 0%nat "1"))
             (ExtractIndividuals.new_record "1")).
    reflexivity.
Defined.

(** X14. On a model in which no individual has children links,
    [get_family_tree] returns for every [generations] bound: a depth of
    [generations + 1] nested calls is enough, and every node of the tree
    has a generation from 0 to [generations - 1], numbered as
    [numbered_from] says when the tree is not empty. *)
Theorem family_tree_of_ancestors_returns :
  forall self person_id generations fuel,
    (forall k p,
        In (k, p) (GenealogyQueryEngine.individuals self) ->
        ind_children p = []) ->
    (Z.to_nat generations < fuel)%nat ->
    exists tree,
      GenealogyQueryEngine.get_family_tree self fuel person_id generations
      = Some tree
      /\ Forall (fun z => 0 <= z < generations) (generations_of tree)
      /\ (tree_truthy tree = true -> numbered_from generations 0 tree = true).
Proof.
  intros self person_id g fuel Hno Hf.
  unfold GenealogyQueryEngine.get_family_tree.
  destruct (negb (Dict.mem person_id (GenealogyQueryEngine.individuals self))).
  - exists Empty. split; [reflexivity|]. split; [constructor|discriminate].
  - destruct (build_tree_upwards_returns self Hno fuel person_id 0 g)
      as [tree Ht]; [rewrite Z.sub_0_r; exact Hf|].
    exists tree. split; [exact Ht|]. split.
    + apply (build_tree_upwards_generations self Hno fuel person_id 0 g tree Ht).
    + apply (build_tree_numbered self fuel person_id 0 g tree Ht).
Qed.

Lemma family_tree_of_ancestors_returns_witness :
  exists tree,
    GenealogyQueryEngine.get_family_tree ancestors_only_engine 3 "1" 2
    = Some tree
    /\ Forall (fun z => 0 <= z < 2) (generations_of tree).
Proof.
  destruct (family_tree_of_ancestors_returns ancestors_only_engine "1" 2 3%nat)
    as [tree [H1 [H2 _]]].
  - intros k p [H|[H|[]]]; injection H as <- <-; reflexivity.
  - vm_compute. lia.
  - exists tree. split; assumption.
Defined.

(* ===================================================================== *)
(** ** The content of a family record *)
(* ===================================================================== *)

Section FamilyRecord.
Import ExtractFamilies.

(** Inside an open record, a line that starts no record acts on the record
    under construction alone. *)
Lemma family_step_record (fams : dict Family) (k : string) (r : Family)
  (line : string) :
  k <> "" -> record_line_id "FAM" "F" line = None ->
  step (mkLocals fams (Some k) (Some r)) line
  = mkLocals fams (Some k) (Some (family_line r line)).
Proof.
  intros Hk Hl. apply truthy_nonempty in Hk.
  unfold record_line_id in Hl. unfold step, family_line, is_open.
  cbn [current_family current_record families]. rewrite Hk.
  destruct (tokenize line) as [t|]; [|reflexivity].
  destruct (starts_record "FAM" t); [discriminate Hl|].
  cbn [andb]. destruct (level t =? 1); [reflexivity|].
  destruct (level t =? 2); reflexivity.
Qed.

Lemma family_run_record (fams : dict Family) (k : string) (lines : list string)
  (r : Family) :
  k <> "" -> Forall (fun b => record_line_id "FAM" "F" b = None) lines ->
  fold_left step lines (mkLocals fams (Some k) (Some r))
  = mkLocals fams (Some k) (Some (fold_left family_line lines r)).
Proof.
  intros Hk H. revert r. induction H as [|l ls Hl _ IH]; intro r;
    [reflexivity|].
  cbn [fold_left]. rewrite (family_step_record fams k r l Hk Hl). apply IH.
Qed.

Lemma level_1_not_2 (t : Token) : (level t =? 1) = true -> (level t =? 2) = false.
Proof. intro H. apply Z.eqb_eq in H. rewrite H. reflexivity. Qed.

(** The effect of one line on four fields of the record. *)
Lemma family_line_fields (r : Family) (line : string) :
  fam_id (family_line r line) = fam_id r
  /\ fam_divorced (family_line r line)
     = fam_divorced r || is_divorce_line line
  /\ fam_children (family_line r line)
     = (fam_children r ++ child_ids [line])%list
  /\ date (fam_marriage (family_line r line))
     = match line_value 2 "DATE" line with
       | Some v => Some (or_empty v)
       | None => date (fam_marriage r)
       end.
Proof.
  unfold family_line, is_divorce_line, child_ids, line_value.
  cbn [flat_map]. rewrite app_nil_r.
  destruct (tokenize line) as [t|];
    [|rewrite orb_false_r, app_nil_r; auto].
  destruct (level t =? 1) eqn:E1.
  - rewrite (level_1_not_2 t E1). cbn [andb]. unfold level1.
    destruct (String.eqb_spec (tag t) "MARR") as [E|_];
      [rewrite E; cbn; rewrite orb_false_r, app_nil_r; auto|].
    destruct (String.eqb_spec (tag t) "DIV") as [E|_];
      [rewrite E; cbn; rewrite orb_true_r, app_nil_r; auto|].
    destruct (String.eqb_spec (tag t) "SEP") as [E|_];
      [rewrite E; cbn; rewrite orb_true_r, app_nil_r; auto|].
    destruct (String.eqb_spec (tag t) "HUSB") as [E|_];
      [rewrite E; cbn; rewrite orb_false_r, app_nil_r; auto|].
    destruct (String.eqb_spec (tag t) "WIFE") as [E|_];
      [rewrite E; cbn; rewrite orb_false_r, app_nil_r; auto|].
    destruct (String.eqb_spec (tag t) "CHIL") as [E|_].
    { unfold if_nonempty.
      destruct (PyStr.truthy (reference_id "I" (value t))); cbn;
        rewrite orb_false_r, ?app_nil_r; auto. }
    rewrite orb_false_r, app_nil_r.
    destruct (String.eqb (tag t) "NOTE"); [|auto].
    destruct (PyStr.truthy (value t)); auto.
  - cbn [andb]. rewrite orb_false_r, app_nil_r.
    destruct (level t =? 2); [|auto]. cbn [andb]. unfold level2.
    destruct (String.eqb (tag t) "DATE"); [auto|].
    destruct (String.eqb (tag t) "PLAC"); auto.
Qed.

Lemma last_value_earlier (lvl : Z) (tg : string) (lines : list string)
  (earlier : option string) :
  last_value lvl tg lines earlier
  = match last_value lvl tg lines None with
    | Some v => Some v
    | None => earlier
    end.
Proof.
  unfold last_value. revert earlier.
  induction lines as [|l ls IH]; intro earlier; [reflexivity|].
  cbn [fold_left]. rewrite IH. symmetry. rewrite IH.
  destruct (fold_left _ ls None); [reflexivity|].
  destruct (line_value lvl tg l); reflexivity.
Qed.

Lemma last_value_cons (lvl : Z) (tg : string) (l : string)
  (ls : list string) :
  last_value lvl tg (l :: ls) None
  = match last_value lvl tg ls None with
    | Some v => Some v
    | None => line_value lvl tg l
    end.
Proof.
  change (last_value lvl tg (l :: ls) None)
    with (last_value lvl tg ls
            match line_value lvl tg l with
            | Some v => Some v
            | None => None
            end).
  rewrite last_value_earlier.
  destruct (last_value lvl tg ls None); [reflexivity|].
  destruct (line_value lvl tg l); reflexivity.
Qed.

Lemma child_ids_cons (l : string) (ls : list string) :
  child_ids (l :: ls) = (child_ids [l] ++ child_ids ls)%list.
Proof. unfold child_ids. cbn [flat_map]. rewrite app_nil_r. reflexivity. Qed.

(** The effect of the lines of a record on the four fields. *)
Lemma family_lines_fields (lines : list string) (r : Family) :
  fam_id (fold_left family_line lines r) = fam_id r
  /\ fam_divorced (fold_left family_line lines r)
     = fam_divorced r || existsb is_divorce_line lines
  /\ fam_children (fold_left family_line lines r)
     = (fam_children r ++ child_ids lines)%list
  /\ date (fam_marriage (fold_left family_line lines r))
     = match last_value 2 "DATE" lines None with
       | Some v => Some (or_empty v)
       | None => date (fam_marriage r)
       end.
Proof.
  revert r. induction lines as [|l ls IH]; intro r.
  - cbn. rewrite orb_false_r, app_nil_r. auto.
  - cbn [fold_left existsb].
    destruct (IH (family_line r l)) as [H1 [H2 [H3 H4]]].
    destruct (family_line_fields r l) as [G1 [G2 [G3 G4]]].
    rewrite H1, H2, H3, H4, G1, G2, G3, G4.
    split; [reflexivity|]. split; [symmetry; apply orb_assoc|]. split.
    + rewrite (child_ids_cons l ls), app_assoc. reflexivity.
    + rewrite last_value_cons.
      destruct (last_value 2 "DATE" ls None); [reflexivity|].
      destruct (line_value 2 "DATE" l); reflexivity.
Qed.

End FamilyRecord.

(** X15. The content of a family record. When a line starts the FAM record
    of a non-empty id [k] and none of the lines after it starts a FAM
    record, the families map has an entry under [k] whose [id] is [k];
    [divorced] is true exactly when one of these lines is a level-1 [DIV] or
    [SEP] line; [children] are the non-empty ids of the level-1 [CHIL]
    lines, in order; and the marriage date is the value of the last level-2
    [DATE] line, whatever level-1 line it stands under ([MARR], [DIV], a
    note or none), and absent when there is no such line. *)
Theorem family_record_content :
  forall fams before line after k,
    record_line_id "FAM" "F" line = Some k -> k <> "" ->
    Forall (fun b => record_line_id "FAM" "F" b = None) after ->
    exists family,
      Dict.get k (ExtractFamilies.extract fams (before ++ line :: after))
      = Some family
      /\ fam_id family = k
      /\ fam_divorced family = existsb is_divorce_line after
      /\ fam_children family = child_ids after
      /\ date (fam_marriage family)
         = option_map or_empty (last_value 2 "DATE" after None).
Proof.
  intros fams before line after k Hl Hk Hafter.
  unfold ExtractFamilies.extract, ExtractFamilies.run.
  rewrite fold_left_app. cbn [fold_left].
  rewrite (family_step_start _ line k Hl).
  rewrite (family_run_record _ k after _ Hk Hafter).
  unfold ExtractFamilies.commit.
  cbn [ExtractFamilies.current_family ExtractFamilies.current_record
         ExtractFamilies.families].
  pose proof Hk as Ht. apply truthy_nonempty in Ht. rewrite Ht.
  eexists. split; [apply get_set_same|].
  destruct (family_lines_fields after (ExtractFamilies.new_record k))
    as [H1 [H2 [H3 H4]]].
  rewrite H1, H2, H3, H4. cbn. repeat split.
Qed.

Lemma family_record_content_witness :
  exists family,
    Dict.get "1"
      (ExtractFamilies.extract []
         (["0 HEAD"] ++ "0 @F1@ FAM"
            :: ["1 HUSB @I1@"; "1 CHIL @I3@"; "1 DIV"; "2 DATE 1950";
                "1 CHIL @I4@"]))
    = Some family
    /\ fam_divorced family = true
    /\ fam_children family = ["3"; "4"]
    /\ date (fam_marriage family) = Some "1950".
Proof.
  destruct (family_record_content [] ["0 HEAD"] "0 @F1@ FAM"
              ["1 HUSB @I1@"; "1 CHIL @I3@"; "1 DIV"; "2 DATE 1950";
               "1 CHIL @I4@"] "1" eq_refl ltac:(discriminate)
              ltac:(repeat constructor))
    as [family [H1 [_ [H3 [H4 H5]]]]].
  exists family. split; [exact H1|]. split; [exact H3|].
  split; [exact H4|exact H5].
Defined.

(* ===================================================================== *)
(** ** The content of an individual record *)
(* ===================================================================== *)

Section IndividualRecord.
Import ExtractIndividuals.

Lemma individual_step_record (inds : dict Individual) (k : string)
  (r : Individual) (sec : option section_name) (line : string) :
  k <> "" -> record_line_id "INDI" "I" line = None ->
  step (mkLocals inds (Some k) (Some r) sec) line
  = mkLocals inds (Some k) (Some (fst (individual_line (r, sec) line)))
      (snd (individual_line (r, sec) line)).
Proof.
  intros Hk Hl. apply truthy_nonempty in Hk.
  unfold record_line_id in Hl. unfold step, individual_line, is_open.
  cbn [current_individual current_record current_section individuals fst snd].
  rewrite Hk.
  destruct (tokenize line) as [t|]; [|reflexivity].
  destruct (starts_record "INDI" t); [discriminate Hl|].
  cbn [andb]. destruct (level t =? 1).
  - destruct (level1 t r sec); reflexivity.
  - destruct (level t =? 2); [|reflexivity]. destruct sec; reflexivity.
Qed.

Lemma individual_run_record (inds : dict Individual) (k : string)
  (lines : list string) (rs : Individual * option section_name) :
  k <> "" -> Forall (fun b => record_line_id "INDI" "I" b = None) lines ->
  fold_left step lines (mkLocals inds (Some k) (Some (fst rs)) (snd rs))
  = mkLocals inds (Some k)
      (Some (fst (fold_left individual_line lines rs)))
      (snd (fold_left individual_line lines rs)).
Proof.
  intros Hk H. revert rs. induction H as [|l ls Hl _ IH]; intro rs;
    [reflexivity|].
  cbn [fold_left]. rewrite (individual_step_record inds k _ _ l Hk Hl).
  rewrite <- IH. destruct rs. reflexivity.
Qed.

(** The effect of one line on six fields of the record. *)
Lemma individual_line_fields (rs : Individual * option section_name)
  (line : string) :
  let r := fst rs in
  let r' := fst (individual_line rs line) in
  ind_id r' = ind_id r
  /\ ind_name r'
     = match line_value 1 "NAME" line with
       | Some v => clean_name v
       | None => ind_name r
       end
  /\ ind_gender r'
     = match line_value 1 "SEX" line with
       | Some v => or_empty v
       | None => ind_gender r
       end
  /\ ind_occupation r'
     = match line_value 1 "OCCU" line with
       | Some v => or_empty v
       | None => ind_occupation r
       end
  /\ ind_families_as_child r'
     = (ind_families_as_child r ++ reference_ids "FAMC" "F" [line])%list
  /\ ind_families_as_spouse r'
     = (ind_families_as_spouse r ++ reference_ids "FAMS" "F" [line])%list.
Proof.
  destruct rs as [r sec]. cbn [fst snd].
  unfold individual_line, reference_ids, line_value.
  cbn [flat_map fst snd]. rewrite !app_nil_r.
  destruct (tokenize line) as [t|]; [|rewrite !app_nil_r; repeat split].
  destruct (level t =? 1) eqn:E1.
  - cbn [andb]. unfold level1.
    destruct (String.eqb_spec (tag t) "NAME") as [E|_];
      [rewrite E; cbn; rewrite !app_nil_r; repeat split|].
    destruct (String.eqb_spec (tag t) "SEX") as [E|_];
      [rewrite E; cbn; rewrite !app_nil_r; repeat split|].
    destruct (String.eqb_spec (tag t) "OCCU") as [E|_];
      [rewrite E; cbn; rewrite !app_nil_r; repeat split|].
    destruct (String.eqb_spec (tag t) "BIRT") as [E|_];
      [rewrite E; cbn; rewrite !app_nil_r; repeat split|].
    destruct (String.eqb_spec (tag t) "DEAT") as [E|_];
      [rewrite E; cbn; rewrite !app_nil_r; repeat split|].
    destruct (String.eqb_spec (tag t) "FAMC") as [E|_].
    { rewrite E. unfold if_nonempty.
      destruct (PyStr.truthy (reference_id "F" (value t))); cbn;
        rewrite ?app_nil_r; repeat split. }
    destruct (String.eqb_spec (tag t) "FAMS") as [E|_].
    { unfold if_nonempty.
      destruct (PyStr.truthy (reference_id "F" (value t))); cbn;
        rewrite ?app_nil_r; repeat split. }
    rewrite !app_nil_r.
    destruct (String.eqb (tag t) "OBJE"); [repeat split|].
    destruct (String.eqb (tag t) "NOTE"); [|repeat split].
    destruct (PyStr.truthy (value t)); repeat split.
  - cbn [andb]. rewrite !app_nil_r.
    destruct (level t =? 2); [|repeat split].
    destruct sec as [sec|]; [|repeat split].
    cbn [fst]. unfold level2. destruct sec;
      repeat match goal with
             | |- context [if ?b then _ else _] => destruct b
             end; repeat split.
Qed.

Lemma reference_ids_cons (tg : string) (c : ascii) (l : string)
  (ls : list string) :
  reference_ids tg c (l :: ls)
  = (reference_ids tg c [l] ++ reference_ids tg c ls)%list.
Proof.
  unfold reference_ids. cbn [flat_map]. rewrite app_nil_r. reflexivity.
Qed.

Lemma individual_lines_fields (lines : list string)
  (rs : Individual * option section_name) :
  let r := fst rs in
  let r' := fst (fold_left individual_line lines rs) in
  ind_id r' = ind_id r
  /\ ind_name r'
     = match last_value 1 "NAME" lines None with
       | Some v => clean_name v
       | None => ind_name r
       end
  /\ ind_gender r'
     = match last_value 1 "SEX" lines None with
       | Some v => or_empty v
       | None => ind_gender r
       end
  /\ ind_occupation r'
     = match last_value 1 "OCCU" lines None with
       | Some v => or_empty v
       | None => ind_occupation r
       end
  /\ ind_families_as_child r'
     = (ind_families_as_child r ++ reference_ids "FAMC" "F" lines)%list
  /\ ind_families_as_spouse r'
     = (ind_families_as_spouse r ++ reference_ids "FAMS" "F" lines)%list.
Proof.
  cbv zeta. revert rs. induction lines as [|l ls IH]; intro rs.
  - cbn. rewrite !app_nil_r. repeat split.
  - cbn [fold_left].
    destruct (IH (individual_line rs l)) as [H1 [H2 [H3 [H4 [H5 H6]]]]].
    destruct (individual_line_fields rs l) as [G1 [G2 [G3 [G4 [G5 G6]]]]].
    rewrite H1, H2, H3, H4, H5, H6, G1, G2, G3, G4, G5, G6.
    rewrite !last_value_cons.
    rewrite (reference_ids_cons "FAMC" "F" l ls).
    rewrite (reference_ids_cons "FAMS" "F" l ls). rewrite !app_assoc.
    split; [reflexivity|].
    split; [destruct (last_value 1 "NAME" ls None); reflexivity|].
    split; [destruct (last_value 1 "SEX" ls None); reflexivity|].
    split; [destruct (last_value 1 "OCCU" ls None); reflexivity|].
    split; reflexivity.
Qed.

End IndividualRecord.

(** X16. The content of an individual record. When a line starts the INDI
    record of a non-empty id [k] and none of the lines after it starts an
    INDI record, the individuals map has an entry under [k] whose [id] is
    [k]; its [name] is the cleaned value of the last level-1 [NAME] line,
    its [gender] and [occupation] the values of the last level-1 [SEX] and
    [OCCU] lines (each empty when there is no such line); and
    [families_as_child] and [families_as_spouse] are the non-empty ids of
    the level-1 [FAMC] and [FAMS] lines, in order, repeated when a line is
    repeated. *)
Theorem individual_record_content :
  forall inds before line after k,
    record_line_id "INDI" "I" line = Some k -> k <> "" ->
    Forall (fun b => record_line_id "INDI" "I" b = None) after ->
    exists person,
      Dict.get k (ExtractIndividuals.extract inds (before ++ line :: after))
      = Some person
      /\ ind_id person = k
      /\ ind_name person
         = match last_value 1 "NAME" after None with
           | Some v => clean_name v
           | None => ""
           end
      /\ ind_gender person
         = match last_value 1 "SEX" after None with
           | Some v => or_empty v
           | None => ""
           end
      /\ ind_occupation person
         = match last_value 1 "OCCU" after None with
           | Some v => or_empty v
           | None => ""
           end
      /\ ind_families_as_child person = reference_ids "FAMC" "F" after
      /\ ind_families_as_spouse person = reference_ids "FAMS" "F" after.
Proof.
  intros inds before line after k Hl Hk Hafter.
  unfold ExtractIndividuals.extract, ExtractIndividuals.run.
  rewrite fold_left_app. cbn [fold_left].
  rewrite (step_start _ line k Hl).
  rewrite (individual_run_record _ k after
             (ExtractIndividuals.new_record k, None) Hk Hafter).
  unfold ExtractIndividuals.commit.
  cbn [ExtractIndividuals.current_individual ExtractIndividuals.current_record
         ExtractIndividuals.individuals].
  pose proof Hk as Ht. apply truthy_nonempty in Ht. rewrite Ht.
  eexists. split; [apply get_set_same|].
  apply (individual_lines_fields after (ExtractIndividuals.new_record k, None)).
Qed.

Lemma individual_record_content_witness :
  exists person,
    Dict.get "3"
      (ExtractIndividuals.extract []
         ([] ++ "0 @I3@ INDI"
            :: ["1 NAME Ann /LEE/"; "1 FAMC @F1@"; "1 SEX F"; "1 FAMC @F@";
                "1 FAMC @F2@"]))
    = Some person
    /\ ind_name person = "Ann LEE"
    /\ ind_families_as_child person = ["1"; "2"].
Proof.
  destruct (individual_record_content [] [] "0 @I3@ INDI"
              ["1 NAME Ann /LEE/"; "1 FAMC @F1@"; "1 SEX F"; "1 FAMC @F@";
               "1 FAMC @F2@"] "3" eq_refl ltac:(discriminate)
              ltac:(repeat constructor))
    as [person [H1 [_ [H3 [_ [_ [H6 _]]]]]]].
  exists person. split; [exact H1|]. split; [exact H3|exact H6].
Defined.

(* ===================================================================== *)
(** ** The upper bound of a family tree *)
(* ===================================================================== *)

Section UpperBound.
Import GenealogyQueryEngine.

Lemma build_tree_below_bound (self : t) :
  forall fuel pid gen max_gen tree,
    build_tree self fuel pid gen max_gen = Some tree ->
    Forall (fun z => z < max_gen) (generations_of tree).
Proof.
  induction fuel as [|fuel IH]; intros pid gen max_gen tree; [discriminate|].
  cbn [build_tree].
  destruct ((gen >=? max_gen) || negb (Dict.mem pid (individuals self)))
    eqn:Hstop; [intro E; injection E as <-; constructor|].
  apply orb_false_iff in Hstop. destruct Hstop as [Hge _].
  rewrite Z.geb_leb in Hge. apply Z.leb_gt in Hge.
  destruct (Dict.get pid (individuals self)) as [p|];
    [|intro E; injection E as <-; constructor].
  destruct (gen <? max_gen - 1).
  - destruct (collect _ (ind_parents p)) as [ps|] eqn:Eps; [|discriminate].
    destruct (collect _ (ind_children p)) as [cs|] eqn:Ecs; [|discriminate].
    intro E. injection E as <-. cbn [generations_of].
    constructor; [exact Hge|]. apply Forall_app. split; apply forall_flat_map.
    + apply (collect_forall _ _ _ _ (fun i sub => IH i (gen + 1) max_gen sub)
               Eps).
    + apply (collect_forall _ _ _ _ (fun i sub => IH i (gen - 1) max_gen sub)
               Ecs).
  - intro E. injection E as <-. cbn [generations_of app].
    constructor; [exact Hge|constructor].
Qed.

End UpperBound.

(** X17. Whenever [get_family_tree] returns, on any model, every node of
    the tree has a generation below [generations], and a tree that is not
    empty is numbered from the root at generation 0: one up for each
    parent, one down for each child, the [parents] and [children] keys
    present exactly on the nodes below [generations - 1]. No lower bound
    holds: see [descendants_only]. *)
Theorem returned_family_tree_is_bounded_above :
  forall self fuel person_id generations tree,
    GenealogyQueryEngine.get_family_tree self fuel person_id generations
    = Some tree ->
    Forall (fun z => z < generations) (generations_of tree)
    /\ (tree_truthy tree = true -> numbered_from generations 0 tree = true).
Proof.
  intros self fuel person_id g tree.
  unfold GenealogyQueryEngine.get_family_tree.
  destruct (negb (Dict.mem person_id (GenealogyQueryEngine.individuals self))).
  - intro E. injection E as <-. split; [constructor|discriminate].
  - intro E. split.
    + apply (build_tree_below_bound self fuel person_id 0 g tree E).
    + apply (build_tree_numbered self fuel person_id 0 g tree E).
Qed.

Lemma returned_family_tree_is_bounded_above_witness :
  engine_for descendants_only = Some descendants_only_engine
  /\ Forall (fun z => z < 2)
       (generations_of
          (Node "1" "Grandparent" empty_event empty_event 0 (Some [])
             (Some [Node "2" "Parent" empty_event empty_event (-1) (Some [])
                      (Some [Node "3" "Child" empty_event empty_event (-2)
                               (Some []) (Some [])])]))).
Proof.
  split; [reflexivity|].
  apply (returned_family_tree_is_bounded_above descendants_only_engine 3%nat
           "1" 2).
  reflexivity.
Defined.
